(** * CEX/DEX arbitrage bot: spread calculator, scanner, ledger and executor

    A shallow embedding of the decision logic of the arbitrage bot:
    - [ArbitrageService] (services/arbitrageService.js): [calculateProfit],
      [getDexPrice], [findArbitrageOpportunities], [runArbitrageLoop],
      [executeArbitrage];
    - [BasicArbitrageStrategy] (strategies): [calculateSpread],
      [evaluateArbitrageOpportunities];
    - [BinanceExchange.normalizeQuantity] and [UniswapDEX.executeTrade].

    Decimal values are the values of bignumber.js objects, JavaScript numbers
    are extended rationals, and venue calls are answered by an explicit
    record of oracle responses while every call is logged in a trace.  A
    plain object used as a table is a map of its own properties, read with
    what it inherits from [Object.prototype]; the ethers library is one of
    its two incompatible releases, a parameter of the environment. *)

From stdpp Require Import gmap strings list.
From Stdlib Require Import Ascii String QArith Qpower Qround Qabs Lqa.
From Stdlib Require Import Sorted Permutation.

(* ===================================================================== *)
(** ** JavaScript numbers *)
(* ===================================================================== *)

(** A JavaScript number: NaN, an infinity, or a finite value.  A finite
    double is a rational, so [Num q] carries its exact value; the two zeros
    are identified (no operation below tells them apart). *)
Inductive number : Type :=
  | NaN
  | Infinity (neg : bool)
  | Num (q : Q).

Module JS.

Local Open Scope Q_scope.

Definition Qneg (q : Q) : bool := negb (Qle_bool 0 q).

(** [a > b] on numbers: false as soon as one side is NaN. *)
Definition gt (a b : number) : bool :=
  match a, b with
  | NaN, _ | _, NaN => false
  | Infinity na, Infinity nb => negb na && nb
  | Infinity na, Num _ => negb na
  | Num _, Infinity nb => nb
  | Num x, Num y => negb (Qle_bool x y)
  end.

(** [a < b]. *)
Definition lt (a b : number) : bool := gt b a.

(** [a === b] on numbers (NaN differs from itself). *)
Definition eqb (a b : number) : bool :=
  match a, b with
  | Infinity na, Infinity nb => Bool.eqb na nb
  | Num x, Num y => Qeq_bool x y
  | _, _ => false
  end.

(** [a - b].  Only the sign of a difference is ever inspected (by the sort
    comparators), and the rounded difference of two doubles has the sign
    of the exact one, so the finite case keeps the exact difference. *)
Definition sub (a b : number) : number :=
  match a, b with
  | NaN, _ | _, NaN => NaN
  | Infinity na, Infinity nb => if Bool.eqb na nb then NaN else Infinity na
  | Infinity na, Num _ => Infinity na
  | Num _, Infinity nb => Infinity (negb nb)
  | Num x, Num y => Num (x - y)
  end.

(** floor(log2 a) for a positive rational. *)
Definition floor_log2 (a : Q) : Z :=
  let e := (Z.log2 (Qnum a) - Z.log2 (Zpos (Qden a)))%Z in
  if Qle_bool (2 ^ e) a then e else (e - 1)%Z.

(** Nearest integer of a non-negative rational, ties to even. *)
Definition round_half_even (q : Q) : Z :=
  let f := Qfloor q in
  let r := q - inject_Z f in
  if Qle_bool r (1 # 2)
  then if Qeq_bool r (1 # 2) then (if Z.even f then f else f + 1)%Z else f
  else (f + 1)%Z.

(** The double nearest to a rational (IEEE 754 binary64, round to nearest,
    ties to even, gradual underflow, overflow to an infinity): what
    [+str] yields for a decimal string [str]. *)
Definition to_double (q : Q) : number :=
  if Qeq_bool q 0 then Num 0
  else
    let a := Qabs q in
    let e := Z.max (floor_log2 a) (-1022) in
    let ulp := 2 ^ (e - 52) in
    let r := inject_Z (round_half_even (a / ulp)) * ulp in
    if Qle_bool (2 ^ 1024) r then Infinity (Qneg q)
    else Num (Qred (if Qneg q then - r else r)).

Definition is_finite (a : number) : bool :=
  match a with Num _ => true | _ => false end.

(** [a * b]. *)
Definition mul (a b : number) : number :=
  match a, b with
  | NaN, _ | _, NaN => NaN
  | Infinity na, Infinity nb => Infinity (xorb na nb)
  | Infinity na, Num y =>
      if Qeq_bool y 0 then NaN else Infinity (xorb na (Qneg y))
  | Num x, Infinity nb =>
      if Qeq_bool x 0 then NaN else Infinity (xorb (Qneg x) nb)
  | Num x, Num y => to_double (x * y)
  end.

(** [Math.floor(a)] as an integer; [None] when it is not finite. *)
Definition floor (a : number) : option Z :=
  match a with Num q => Some (Qfloor q) | _ => None end.

End JS.

(* ===================================================================== *)
(** ** bignumber.js values *)
(* ===================================================================== *)

(** The value of a [BigNumber] object: NaN, an infinity or a finite decimal.
    Every finite value is kept as the rational it denotes (the exponent
    range of the library, 1e9, is never reached here).

    Zero is unsigned.  The library keeps a sign on zero, which [toString]
    does not print and which only one operation below could show: a
    division by zero, whose infinite quotient takes the sign of the
    dividend here and the product of both signs in the library.  The
    value -0 (read from the string '-0', or a negative value times zero)
    is therefore outside these definitions. *)
Inductive BigNumber : Type :=
  | BN_NaN
  | BN_Infinity (neg : bool)
  | BN (q : Q).

Module BigNumber.

Local Open Scope Q_scope.

(** Library defaults, unchanged by the program. *)
Definition DECIMAL_PLACES : Z := 20.

Definition is_zero (q : Q) : bool := Qeq_bool q 0.

Definition negated (x : BigNumber) : BigNumber :=
  match x with
  | BN_NaN => BN_NaN
  | BN_Infinity n => BN_Infinity (negb n)
  | BN q => BN (- q)
  end.

Definition plus (x y : BigNumber) : BigNumber :=
  match x, y with
  | BN_NaN, _ | _, BN_NaN => BN_NaN
  | BN_Infinity nx, BN_Infinity ny =>
      if Bool.eqb nx ny then BN_Infinity nx else BN_NaN
  | BN_Infinity nx, BN _ => BN_Infinity nx
  | BN _, BN_Infinity ny => BN_Infinity ny
  | BN a, BN b => BN (Qred (a + b))
  end.

Definition minus (x y : BigNumber) : BigNumber := plus x (negated y).

Definition multipliedBy (x y : BigNumber) : BigNumber :=
  match x, y with
  | BN_NaN, _ | _, BN_NaN => BN_NaN
  | BN_Infinity nx, BN_Infinity ny => BN_Infinity (xorb nx ny)
  | BN_Infinity nx, BN b =>
      if is_zero b then BN_NaN else BN_Infinity (xorb nx (JS.Qneg b))
  | BN a, BN_Infinity ny =>
      if is_zero a then BN_NaN else BN_Infinity (xorb (JS.Qneg a) ny)
  | BN a, BN b => BN (Qred (a * b))
  end.

(** ROUND_HALF_UP (rounding mode 4) to [dp] decimal places: to the nearest
    multiple of 10^-dp, a tie going away from zero. *)
Definition round_half_up (dp : Z) (q : Q) : Q :=
  let scale := 10 ^ dp in
  let m := Qfloor (Qabs q * scale + (1 # 2)) in
  let r := inject_Z m / scale in
  if JS.Qneg q then - r else r.

(** ROUND_DOWN (rounding mode 1) to an integer: towards zero. *)
Definition round_down (q : Q) : Z :=
  if JS.Qneg q then (- Qfloor (- q))%Z else Qfloor q.

(** The library's [div(x, y, dp, rm)]: NaN for NaN operands, inf/inf and
    0/0; zero for 0/y and x/inf; an infinity for x/0 and inf/y; otherwise
    the quotient rounded by [rnd].  The divisor zero is the zero without
    sign: x/0 has the sign of x. *)
Definition div (rnd : Q -> Q) (x y : BigNumber) : BigNumber :=
  match x, y with
  | BN_NaN, _ | _, BN_NaN => BN_NaN
  | BN_Infinity _, BN_Infinity _ => BN_NaN
  | BN_Infinity nx, BN b => BN_Infinity (xorb nx (JS.Qneg b))
  | BN _, BN_Infinity _ => BN 0
  | BN a, BN b =>
      if is_zero b
      then (if is_zero a then BN_NaN else BN_Infinity (JS.Qneg a))
      else BN (Qred (rnd (a / b)))
  end.

(** [x.dividedBy(y)]: DECIMAL_PLACES and ROUNDING_MODE at their defaults. *)
Definition dividedBy : BigNumber -> BigNumber -> BigNumber :=
  div (round_half_up DECIMAL_PLACES).

(** [x.dividedToIntegerBy(y)]: [div(x, y, 0, ROUND_DOWN)]. *)
Definition dividedToIntegerBy : BigNumber -> BigNumber -> BigNumber :=
  div (fun q => inject_Z (round_down q)).

(** [x.toNumber()], that is [+x.valueOf()]. *)
Definition toNumber (x : BigNumber) : number :=
  match x with
  | BN_NaN => NaN
  | BN_Infinity n => Infinity n
  | BN q => JS.to_double q
  end.

(** [x.isLessThan(y)]. *)
Definition isLessThan (x y : BigNumber) : bool :=
  match x, y with
  | BN_NaN, _ | _, BN_NaN => false
  | BN_Infinity nx, BN_Infinity ny => nx && negb ny
  | BN_Infinity nx, BN _ => nx
  | BN _, BN_Infinity ny => negb ny
  | BN a, BN b => negb (Qle_bool b a)
  end.

(** Same value (the canonical strings [toString] prints coincide). *)
Definition same (x y : BigNumber) : Prop :=
  match x, y with
  | BN_NaN, BN_NaN => True
  | BN_Infinity nx, BN_Infinity ny => nx = ny
  | BN a, BN b => a == b
  | _, _ => False
  end.

Definition is_finite (x : BigNumber) : bool :=
  match x with BN _ => true | _ => false end.

End BigNumber.

Notation "x *! y" := (BigNumber.multipliedBy x y) (at level 40, left associativity).
Notation "x +! y" := (BigNumber.plus x y) (at level 50, left associativity).
Notation "x -! y" := (BigNumber.minus x y) (at level 50, left associativity).
Notation "x /! y" := (BigNumber.dividedBy x y) (at level 40, left associativity).

(* ===================================================================== *)
(** ** Completions, the world and the effect monad *)
(* ===================================================================== *)

(** How a JavaScript call ends: with a value, or with a thrown [Error]
    (kept by its message). *)
Inductive completion (A : Type) : Type :=
  | Normal (a : A)
  | Throw (message : string).
Arguments Normal {A} a.
Arguments Throw {A} message.

Definition threw {A} (c : completion A) : bool :=
  match c with Throw _ => true | Normal _ => false end.

(** The two kinds of blockchain transaction the program submits. *)
Inductive TxKind : Type := ApproveTx | SwapTx.

Inductive Side : Type := BUY | SELL.

(** The calls that leave the process, in the order they are made. *)
Inductive Event : Type :=
  | EvQuote (network tokenIn tokenOut : string) (fee amountIn : Z)
  | EvApprove (network token : string) (amount : Z)
  | EvTxWait (tx : TxKind)         (* [tx.wait()]: block until [tx] is mined *)
  | EvGasPrice (network : string)
  | EvSwap (network tokenIn tokenOut : string)
           (fee amountIn amountOutMinimum gasPrice : Z)
  | EvOrder (symbol : string) (side : Side) (quantity : BigNumber)
  | EvSleep (milliseconds : Z).

(** A price as the venues deliver it: a non-empty decimal string, kept as the
    [BigNumber] it parses to.  [None] stands for null, undefined and the
    empty string, the values [!price] rejects. *)
Definition price : Type := option BigNumber.

(** The object [ArbitrageService.calculateProfit] returns. *)
Module Opportunity.
Record t : Type := {
  direction : string;
  network : string;
  baseToken : string;
  quoteToken : option string;     (* undefined for a pair without '-' *)
  buyPrice : BigNumber;
  sellPrice : BigNumber;
  tradeAmount : BigNumber;
  estimatedProfit : BigNumber;
  profitPercentage : number;
  timestamp : Z;
}.
End Opportunity.

(** A cache entry of node-cache: the value and the time [t] it lives until. *)
Record CacheEntry : Type := { ce_value : BigNumber; ce_t : Z }.

(** The mutable part: the clock, the trace of venue calls, the cache, the
    ledger [this.opportunities] and the array a running scan pushes to.
    [computed] is a ghost log of every result [calculateProfit] returned to
    a scan; the program never reads it. *)
Record World : Type := {
  clock : nat -> Z;          (* successive readings of Date.now() *)
  reads : nat;               (* how many readings were taken *)
  trace : list Event;        (* venue calls made so far, oldest first *)
  cacheData : gmap string CacheEntry;
  ledger : list Opportunity.t;
  scanning : list Opportunity.t;
  computed : list Opportunity.t;
}.

Definition set_reads (n : nat) (w : World) : World :=
  {| clock := clock w; reads := n; trace := trace w;
     cacheData := cacheData w; ledger := ledger w; scanning := scanning w;
     computed := computed w |}.
Definition set_trace (t : list Event) (w : World) : World :=
  {| clock := clock w; reads := reads w; trace := t;
     cacheData := cacheData w; ledger := ledger w; scanning := scanning w;
     computed := computed w |}.
Definition set_cacheData (c : gmap string CacheEntry) (w : World) : World :=
  {| clock := clock w; reads := reads w; trace := trace w;
     cacheData := c; ledger := ledger w; scanning := scanning w;
     computed := computed w |}.
Definition set_ledger (l : list Opportunity.t) (w : World) : World :=
  {| clock := clock w; reads := reads w; trace := trace w;
     cacheData := cacheData w; ledger := l; scanning := scanning w;
     computed := computed w |}.
Definition set_scanning (l : list Opportunity.t) (w : World) : World :=
  {| clock := clock w; reads := reads w; trace := trace w;
     cacheData := cacheData w; ledger := ledger w; scanning := l;
     computed := computed w |}.
Definition set_computed (l : list Opportunity.t) (w : World) : World :=
  {| clock := clock w; reads := reads w; trace := trace w;
     cacheData := cacheData w; ledger := ledger w; scanning := scanning w;
     computed := l |}.

Definition M (A : Type) : Type := World -> completion A * World.

Definition ret {A} (a : A) : M A := fun w => (Normal a, w).

Definition throw {A} (msg : string) : M A := fun w => (Throw msg, w).

Definition bind {A B} (m : M A) (k : A -> M B) : M B :=
  fun w =>
    match m w with
    | (Normal a, w') => k a w'
    | (Throw e, w') => (Throw e, w')
    end.

(** [try { m } catch (error) { h error }]. *)
Definition try_catch {A} (m : M A) (h : string -> M A) : M A :=
  fun w =>
    match m w with
    | (Normal a, w') => (Normal a, w')
    | (Throw e, w') => h e w'
    end.

Definition lift {A} (c : completion A) : M A := fun w => (c, w).

Declare Scope js_scope.
Delimit Scope js_scope with js.
Notation "x <- m ;; k" := (bind m (fun x => k))
  (at level 100, m at next level, right associativity) : js_scope.
Notation "m ;;; k" := (bind m (fun _ => k))
  (at level 100, right associativity) : js_scope.

(** [Date.now()] / [new Date().getTime()]. *)
Definition date_now : M Z :=
  fun w => (Normal (clock w (reads w)), set_reads (S (reads w)) w).

(** Record that a venue call is made. *)
Definition emit (e : Event) : M unit :=
  fun w => (Normal tt, set_trace (trace w ++ [e]) w).

Definition get_trace : M (list Event) := fun w => (Normal (trace w), w).

(** [a || b] on numeric options: [b] when [a] is undefined or zero. *)
Definition or_default (a : option Q) (b : Q) : Q :=
  match a with
  | Some q => if Qeq_bool q 0 then b else q
  | None => b
  end.

(** Destructuring default [{ a = b }]: [b] only when [a] is undefined. *)
Definition default_to {A} (a : option A) (b : A) : A :=
  match a with Some x => x | None => b end.

(* ===================================================================== *)
(** ** Plain objects read as tables *)
(* ===================================================================== *)

(** The string-named members of [Object.prototype], which every plain
    object inherits. *)
Definition prototype_names : list string :=
  ["constructor"; "__defineGetter__"; "__defineSetter__"; "hasOwnProperty";
   "__lookupGetter__"; "__lookupSetter__"; "isPrototypeOf";
   "propertyIsEnumerable"; "toString"; "valueOf"; "__proto__";
   "toLocaleString"].

Definition is_prototype_name (key : string) : bool :=
  existsb (String.eqb key) prototype_names.

(** What [object[key]] finds: a property of the object's own; a member of
    [Object.prototype] (a function, or the prototype itself for
    '__proto__': truthy, and neither a number nor a string); or nothing
    ([undefined]). *)
Inductive Property (A : Type) : Type :=
  | Own (a : A)
  | Inherited
  | Absent.
Arguments Own {A} a.
Arguments Inherited {A}.
Arguments Absent {A}.

(** [object[key]] for an object literal: the map holds its own properties. *)
Definition get_property {A} (object : gmap string A) (key : string)
    : Property A :=
  match object !! key with
  | Some a => Own a
  | None => if is_prototype_name key then Inherited else Absent
  end.

(** [new BigNumber(table[network] || 0.1)] for a table of gas costs: a
    listed cost that is not zero, 0.1 for a network the table does not
    have, and NaN for a name the table inherits. *)
Definition gas_or_default (table : gmap string Q) (network : string)
    : BigNumber :=
  match get_property table network with
  | Own g => BN (or_default (Some g) 0.1)
  | Inherited => BN_NaN
  | Absent => BN 0.1
  end.

(** [Array.prototype.sort(compare)]: a stable sort (ECMAScript 2019; the
    program asks for Node.js 16 or later), here by insertion, since for a
    consistent comparator all stable sorts return the same array.
    [compare a b > 0] moves [a] behind [b]; a NaN or zero result leaves the
    two in place. *)
Section Sort.
Context {A : Type} (compare : A -> A -> number).

Fixpoint sort_insert (x : A) (l : list A) : list A :=
  match l with
  | [] => [x]
  | y :: l' =>
      if JS.gt (compare x y) (Num 0) then y :: sort_insert x l'
      else x :: y :: l'
  end.

Definition array_sort (l : list A) : list A := foldr sort_insert [] l.
End Sort.

(* ===================================================================== *)
(** ** BasicArbitrageStrategy *)
(* ===================================================================== *)

Module Strategy.

(** The [options] argument of [calculateSpread]; [None] is an absent
    property. Numeric options are JavaScript numbers, kept as the decimal
    they print as (which is what [new BigNumber(n)] reads).  The gas cost
    is whatever the caller finds in its table: it is kept as the value
    [new BigNumber(gasCost)] reads from it, NaN for what is no number. *)
Record SpreadOptions : Type := {
  opt_buyFee : option Q;
  opt_sellFee : option Q;
  opt_gasCost : option BigNumber;
  opt_baseToken : option string;
  opt_quoteToken : option string;
  opt_network : option string;
  opt_direction : option string;
  opt_tradeSize : option Q;
}.

(** The object [calculateSpread] returns.  The fields printed with
    [toString()] hold the printed value: the program sets the library's
    EXPONENTIAL_AT to 1e9 when the service module loads, so that every
    finite value prints in plain notation, one string for each value. *)
Record SpreadResult : Type := {
  direction : string;
  network : string;
  baseToken : string;
  quoteToken : string;
  buyPrice : BigNumber;
  sellPrice : BigNumber;
  buyFee : Q;
  sellFee : Q;
  tradeSize : BigNumber;
  totalBuyCost : BigNumber;
  totalSellProceeds : BigNumber;
  gasCost : BigNumber;
  rawProfit : BigNumber;
  profitAfterGas : BigNumber;
  profitPercentage : number;
  timestamp : Z;
}.

(** The decimal quotient [profitAfterGas.dividedBy(totalBuyCost)
    .multipliedBy(100)], before [toNumber()]. *)
Definition percentage (profitAfterGas totalBuyCost : BigNumber) : BigNumber :=
  (profitAfterGas /! totalBuyCost) *! BN 100.

(** [calculateSpread(buyPrice, sellPrice, options)]; [now] is what
    [Date.now()] answers during the call. *)
Definition calculateSpread (now : Z) (buyPrice sellPrice : BigNumber)
    (options : SpreadOptions) : completion SpreadResult :=
  let buyFee := default_to (opt_buyFee options) 0.001%Q in
  let sellFee := default_to (opt_sellFee options) 0.001%Q in
  let gasCost := default_to (opt_gasCost options) (BN 0.1) in
  let baseToken := default_to (opt_baseToken options) "ETH" in
  let quoteToken := default_to (opt_quoteToken options) "USDT" in
  let network := default_to (opt_network options) "ethereum" in
  let direction := default_to (opt_direction options) "cexToDex" in
  let tradeSize := default_to (opt_tradeSize options) 1%Q in
  let tradeSizeBN := BN tradeSize in
  let buyAmount := tradeSizeBN in
  let buyCost := buyPrice *! buyAmount in
  let buyFeeAmount := buyCost *! BN buyFee in
  let totalBuyCost := buyCost +! buyFeeAmount in
  let sellProceeds := sellPrice *! buyAmount in
  let sellFeeAmount := sellProceeds *! BN sellFee in
  let totalSellProceeds := sellProceeds -! sellFeeAmount in
  let gasCostBN := gasCost in
  let rawProfit := totalSellProceeds -! totalBuyCost in
  let profitAfterGas := rawProfit -! gasCostBN in
  let profitPercentage :=
    BigNumber.toNumber (percentage profitAfterGas totalBuyCost) in
  Normal {|
    direction := direction;
    network := network;
    baseToken := baseToken;
    quoteToken := quoteToken;
    buyPrice := buyPrice;
    sellPrice := sellPrice;
    buyFee := buyFee;
    sellFee := sellFee;
    tradeSize := tradeSizeBN;
    totalBuyCost := totalBuyCost;
    totalSellProceeds := totalSellProceeds;
    gasCost := gasCostBN;
    rawProfit := rawProfit;
    profitAfterGas := profitAfterGas;
    profitPercentage := profitPercentage;
    timestamp := now;
  |}.

(** The strategy object after its constructor ran. *)
Record t : Type := {
  minProfitPercentage : number;
  maxSlippage : number;
  networkPriority : list string;
  cexFee : Q;
  dexFee : Q;
  gasCosts : gmap string Q;
}.

(** The constructor's [options]. *)
Record Options : Type := {
  o_minProfitPercentage : option Q;
  o_maxSlippage : option Q;
  o_networkPriority : option (list string);
  o_cexFee : option Q;
  o_dexFee : option Q;
  o_gasCosts : option (gmap string Q);
}.

Definition default_gasCosts : gmap string Q :=
  list_to_map [("ethereum", 20%Q); ("arbitrum", 0.3%Q);
               ("optimism", 0.1%Q); ("polygon", 0.05%Q)].

(** [a || b] where [b] is already a number. *)
Definition or_number (a : option Q) (b : number) : number :=
  match a with
  | Some q => if Qeq_bool q 0 then b else JS.to_double q
  | None => b
  end.

(** [new BasicArbitrageStrategy(options)], given the two configuration
    values it falls back on. *)
Definition construct (options : Options)
    (config_minimumProfitPercentage config_maxSlippagePercentage : number) : t :=
  {| minProfitPercentage :=
       or_number (o_minProfitPercentage options) config_minimumProfitPercentage;
     maxSlippage := or_number (o_maxSlippage options) config_maxSlippagePercentage;
     networkPriority :=
       default_to (o_networkPriority options)
                  ["arbitrum"; "optimism"; "polygon"; "ethereum"];
     cexFee := or_default (o_cexFee options) 0.001%Q;
     dexFee := or_default (o_dexFee options) 0.003%Q;
     gasCosts := default_to (o_gasCosts options) default_gasCosts |}.

(** The options of the two [calculateSpread] calls of one network; [gas]
    is [this.gasCosts[network] || 0.1]. *)
Definition spread_options (buyFee sellFee : Q) (gas : BigNumber)
    (network : string) (baseToken quoteToken : option string)
    (direction : string) : SpreadOptions :=
  {| opt_buyFee := Some buyFee;
     opt_sellFee := Some sellFee;
     opt_gasCost := Some gas;
     opt_baseToken := baseToken;
     opt_quoteToken := quoteToken;
     opt_network := Some network;
     opt_direction := Some direction;
     opt_tradeSize := None |}.

(** The two spreads of one network and the results pushed, cexToDex
    before dexToCex. *)
Definition evaluate_price (this : t) (bid ask dexPrice : BigNumber)
    (baseToken quoteToken : option string) (network : string)
    : M (list SpreadResult) :=
  (now1 <- date_now ;;
   cexToDexSpread <- lift (calculateSpread now1 ask dexPrice
     (spread_options (cexFee this) (dexFee this)
        (gas_or_default (gasCosts this) network)
        network baseToken quoteToken "cexToDex")) ;;
   now2 <- date_now ;;
   dexToCexSpread <- lift (calculateSpread now2 dexPrice bid
     (spread_options (dexFee this) (cexFee this)
        (gas_or_default (gasCosts this) network)
        network baseToken quoteToken "dexToCex")) ;;
   ret ((if JS.gt (profitPercentage cexToDexSpread) (minProfitPercentage this)
         then [cexToDexSpread] else [])
        ++
        (if JS.gt (profitPercentage dexToCexSpread) (minProfitPercentage this)
         then [dexToCexSpread] else [])))%js.

(** The body of the [for (const network of this.networkPriority)] loop.
    A network name the price object only inherits is not skipped: its
    price reads as NaN. *)
Definition evaluate_network (this : t) (bid ask : BigNumber)
    (dexPricesByNetwork : gmap string BigNumber)
    (baseToken quoteToken : option string) (network : string)
    : M (list SpreadResult) :=
  match get_property dexPricesByNetwork network with
  | Absent => ret []
  | Own dexPrice =>
      evaluate_price this bid ask dexPrice baseToken quoteToken network
  | Inherited =>
      evaluate_price this bid ask BN_NaN baseToken quoteToken network
  end.

Fixpoint evaluate_networks (this : t) (bid ask : BigNumber)
    (dexPricesByNetwork : gmap string BigNumber)
    (baseToken quoteToken : option string) (networks : list string)
    : M (list SpreadResult) :=
  match networks with
  | [] => ret []
  | network :: rest =>
      (pushed <- evaluate_network this bid ask dexPricesByNetwork
                   baseToken quoteToken network ;;
       more <- evaluate_networks this bid ask dexPricesByNetwork
                   baseToken quoteToken rest ;;
       ret (pushed ++ more))%js
  end.

(** The sort comparator [(a, b) => b.profitPercentage - a.profitPercentage]. *)
Definition compare (a b : SpreadResult) : number :=
  JS.sub (profitPercentage b) (profitPercentage a).

(** [evaluateArbitrageOpportunities(cexPrices, dexPricesByNetwork, params)];
    [cexPrices] is the pair (bid, ask). *)
Definition evaluateArbitrageOpportunities (this : t)
    (cexPrices : option (BigNumber * BigNumber))
    (dexPricesByNetwork : option (gmap string BigNumber))
    (baseToken quoteToken : option string) : M (list SpreadResult) :=
  match cexPrices, dexPricesByNetwork with
  | Some (bid, ask), Some dexPrices =>
      (opportunities <- evaluate_networks this bid ask dexPrices
                          baseToken quoteToken (networkPriority this) ;;
       ret (array_sort compare opportunities))%js
  | _, _ => ret []
  end.

(** [shouldExecute(opportunity)]. *)
Definition shouldExecute (this : t) (opportunity : option SpreadResult) : bool :=
  match opportunity with
  | None => false
  | Some o =>
      if JS.lt (profitPercentage o) (minProfitPercentage this) then false
      else if BigNumber.isLessThan (profitAfterGas o) (gasCost o *! BN 3)
           then false
           else true
  end.

End Strategy.

(* ===================================================================== *)
(** ** Strings, configuration and the environment *)
(* ===================================================================== *)

(** [s.split(sep)] for a one-character separator. *)
Fixpoint split_on (sep : ascii) (s : string) : list string :=
  match s with
  | EmptyString => [EmptyString]
  | String c s' =>
      if Ascii.eqb c sep then EmptyString :: split_on sep s'
      else match split_on sep s' with
           | [] => [String c EmptyString]
           | h :: t => String c h :: t
           end
  end.

Definition upper_ascii (c : ascii) : ascii :=
  let n := nat_of_ascii c in
  if (97 <=? n)%nat && (n <=? 122)%nat then ascii_of_nat (n - 32) else c.

(** [s.toUpperCase()] (on ASCII). *)
Fixpoint toUpperCase (s : string) : string :=
  match s with
  | EmptyString => EmptyString
  | String c s' => String (upper_ascii c) (toUpperCase s')
  end.

(** How a template literal prints a possibly undefined string. *)
Definition render (s : option string) : string := default_to s "undefined".

(** [const [base, quote] = pair.split('-')]. *)
Definition split_pair (pair : string) : string * option string :=
  match split_on "-"%char pair with
  | [] => (EmptyString, None)
  | [b] => (b, None)
  | b :: q :: _ => (b, Some q)
  end.

(** config/config.js, the part the engine reads. *)
Record Config : Type := {
  networks : list (string * bool);     (* key, and whether a provider exists *)
  minimumProfitPercentage : number;
  maxSlippagePercentage : number;
  gasPriceMultiplier : number;
  tradingPairs : list string;
}.

(** The configuration an empty process environment gives, with providers
    as listed. *)
Definition default_config (providers : list (string * bool)) : Config :=
  {| networks := providers;
     minimumProfitPercentage := Num 0.5;
     maxSlippagePercentage := Num 0.5;
     gasPriceMultiplier := Num 1.1;
     tradingPairs := ["ETH-USDT"; "WBTC-USDT"; "LINK-USDT"] |}.

(** [this.fees] of the service. *)
Record Fees : Type := {
  binance_maker : Q;
  binance_taker : Q;
  uniswap_fee : Q;
  gas : gmap string Q;
}.

Definition service_fees : Fees :=
  {| binance_maker := 0.001; binance_taker := 0.001; uniswap_fee := 0.003;
     gas := list_to_map [("ethereum", 20%Q); ("arbitrum", 0.3%Q);
                         ("optimism", 0.1%Q); ("polygon", 0.05%Q)] |}.

(** One entry of [binance.prices]. *)
Record Ticker : Type := { bid : price; ask : price; last : price }.

(** One entry of [binance.symbolInfo]. *)
Record SymbolInfo : Type := {
  baseAsset : string;
  quoteAsset : string;
  stepSize : BigNumber;
  tickSize : BigNumber;
  minNotional : BigNumber;
}.

(** A filter of the exchange information. *)
Record Filter : Type := {
  filterType : string;
  f_stepSize : price;
  f_tickSize : price;
  f_minNotional : price;
}.

Record ExchangeSymbol : Type := {
  es_symbol : string;
  es_baseAsset : string;
  es_quoteAsset : string;
  es_filters : list Filter;
}.

(** The ethers library the program is installed with.  No manifest pins
    it, and the adapter calls both [ethers.BigNumber], which only the
    releases up to 5 have, and [ethers.parseUnits], which release 6 put in
    the place of [ethers.utils.parseUnits].  (config/config.js builds its
    providers with [new ethers.JsonRpcProvider], which is release 6.) *)
Inductive EthersRelease : Type := Ethers5 | Ethers6.

(** What the outside answers.  Every answer may depend on all the calls made
    so far; the last element of the list is the call being answered.
    [engine owner name] tells whether the built-in value [tokens[owner]]
    (a method of the module config/tokens.js, a member of
    [Object.prototype]) has a truthy property [name], or that reading it
    throws. *)
Record Env : Type := {
  config : Config;
  fees : Fees;
  prices : list Event -> gmap string Ticker;   (* fed by the ticker stream *)
  symbolInfo : gmap string SymbolInfo;
  uniswap_initialized : bool;
  ethers : EthersRelease;
  engine : string -> string -> completion bool;
  answer_amount : list Event -> completion Z;          (* quoter, gas price *)
  answer_tx : list Event -> completion string;         (* approve, swap: hash *)
  answer_wait : list Event -> completion unit;         (* tx.wait() *)
  answer_order : list Event -> completion Z;           (* client.order: id *)
}.

(** Make a venue call and receive its answer. *)
Definition perform {A} (e : Event) (answer : list Event -> completion A) : M A :=
  (emit e ;;; t <- get_trace ;; lift (answer t))%js.

Definition has_provider (cfg : Config) (network : string) : bool :=
  match List.find (fun nb => String.eqb (fst nb) network) (networks cfg) with
  | Some (_, b) => b
  | None => false
  end.

(* ===================================================================== *)
(** ** BinanceExchange *)
(* ===================================================================== *)

Module Binance.

(** [filters.find(f => f.filterType === name)?.field || fallback]. *)
Definition filter_value (filters : list Filter) (name : string)
    (field : Filter -> price) (fallback : BigNumber) : BigNumber :=
  match List.find (fun f => String.eqb (filterType f) name) filters with
  | Some f => default_to (field f) fallback
  | None => fallback
  end.

(** The loop of [initialize] that fills [this.symbolInfo]. *)
Definition load_symbolInfo (symbols : list ExchangeSymbol)
    : gmap string SymbolInfo :=
  foldl (fun m s =>
           <[ es_symbol s :=
              {| baseAsset := es_baseAsset s;
                 quoteAsset := es_quoteAsset s;
                 stepSize := filter_value (es_filters s) "LOT_SIZE"
                               f_stepSize (BN 0.00000001);
                 tickSize := filter_value (es_filters s) "PRICE_FILTER"
                               f_tickSize (BN 0.00000001);
                 minNotional := filter_value (es_filters s) "MIN_NOTIONAL"
                               f_minNotional (BN 10) |} ]> m)
        ∅ symbols.

(** [getBestAsk(symbol)]; [None] is null as well as undefined, which is
    what the ask of an inherited name reads as: no caller tells them
    apart. *)
Definition getBestAsk (env : Env) (symbol : string) : M price :=
  (t <- get_trace ;;
   ret (match prices env t !! symbol with
        | None => None
        | Some tk => ask tk
        end))%js.

Definition getBestBid (env : Env) (symbol : string) : M price :=
  (t <- get_trace ;;
   ret (match prices env t !! symbol with
        | None => None
        | Some tk => bid tk
        end))%js.

Definition getSymbolFromPair (pair : string) : string :=
  let '(base, quote) := split_pair pair in
  toUpperCase (String.append base (render quote)).

(** [executeBuy]: the error is logged and thrown again. *)
Definition executeBuy (env : Env) (symbol : string) (quantity : BigNumber)
    : M Z :=
  try_catch (perform (EvOrder symbol BUY quantity) (answer_order env))
            (fun error => throw error).

Definition executeSell (env : Env) (symbol : string) (quantity : BigNumber)
    : M Z :=
  try_catch (perform (EvOrder symbol SELL quantity) (answer_order env))
            (fun error => throw error).

(** The properties of an entry of [this.symbolInfo]. *)
Definition info_fields : list string :=
  ["filters"; "stepSize"; "tickSize"; "minNotional"].

(** [this.symbolInfo[symbol]].  The object starts as [{}] and is filled
    by assignment, so it also answers to the names it inherits.  An
    assignment to '__proto__' replaces the prototype instead of adding a
    property: the entry kept under that key is the prototype, and the
    names of its fields are inherited too (strings and an array: truthy,
    except an empty asset name). *)
Definition symbol_property (symbolInfo : gmap string SymbolInfo)
    (symbol : string) : Property SymbolInfo :=
  match symbolInfo !! symbol with
  | Some info => Own info
  | None =>
      if is_prototype_name symbol then Inherited
      else match symbolInfo !! "__proto__" with
           | Some proto =>
               if existsb (String.eqb symbol) info_fields then Inherited
               else if String.eqb symbol "baseAsset"
               then (if String.eqb (baseAsset proto) "" then Absent
                     else Inherited)
               else if String.eqb symbol "quoteAsset"
               then (if String.eqb (quoteAsset proto) "" then Absent
                     else Inherited)
               else Absent
           | None => Absent
           end
  end.

(** [normalizeQuantity(symbol, quantity)]; the string it returns is kept
    as the value it prints.  An inherited value has no step size:
    [new BigNumber(undefined)] is NaN. *)
Definition normalizeQuantity (symbolInfo : gmap string SymbolInfo)
    (symbol : string) (quantity : BigNumber) : completion BigNumber :=
  match symbol_property symbolInfo symbol with
  | Absent => Throw (String.append "Symbol info not found for " symbol)
  | found =>
      let stepSize :=
        match found with Own info => stepSize info | _ => BN_NaN end in
      let normalized :=
        BigNumber.dividedToIntegerBy quantity stepSize *! stepSize in
      Normal normalized
  end.

End Binance.

(* ===================================================================== *)
(** ** UniswapDEX *)
(* ===================================================================== *)

Module Uniswap.

(** POOL_FEES in key order: LOWEST, LOW, MEDIUM. *)
Definition POOL_FEES : list Z := [500; 3000; 10000]%Z.
Definition MEDIUM : Z := 10000.

(** config/tokens.js. *)
Definition tokens : gmap string (gmap string string) :=
  list_to_map
    [("ethereum", list_to_map
        [("WETH", "0xC02aaA39b223FE8D0A0e5C4F27eAD9083C756Cc2");
         ("USDT", "0xdAC17F958D2ee523a2206206994597C13D831ec7");
         ("USDC", "0xA0b86991c6218b36c1d19D4a2e9Eb0cE3606eB48");
         ("WBTC", "0x2260FAC5E5542a773Aa44fBCfeDf7C193bc2C599");
         ("LINK", "0x514910771AF9Ca656af840dff83E8264EcF986CA");
         ("DAI", "0x6B175474E89094C44Da98b954EedeAC495271d0F")]);
     ("arbitrum", list_to_map
        [("WETH", "0x82aF49447D8a07e3bd95BD0d56f35241523fBab1");
         ("USDT", "0xFd086bC7CD5C481DCC9C85ebE478A1C0b69FCbb9");
         ("USDC", "0xFF970A61A04b1cA14834A43f5dE4533eBDDB5CC8");
         ("WBTC", "0x2f2a2543B76A4166549F7aaB2e75Bef0aefC5B0f");
         ("LINK", "0xf97f4df75117a78c1A5a0DBb814Af92458539FB4");
         ("DAI", "0xDA10009cBd5D07dd0CeCc66161FC93D7c9000da1")]);
     ("optimism", list_to_map
        [("WETH", "0x4200000000000000000000000000000000000006");
         ("USDT", "0x94b008aA00579c1307B0EF2c499aD98a8ce58e58");
         ("USDC", "0x7F5c764cBc14f9669B88837ca1490cCa17c31607");
         ("WBTC", "0x68f180fcCe6836688e9084f035309E29Bf0A2095");
         ("LINK", "0x350a791Bfc2C21F9Ed5d10980Dad2e2638ffa7f6");
         ("DAI", "0xDA10009cBd5D07dd0CeCc66161FC93D7c9000da1")]);
     ("polygon", list_to_map
        [("WETH", "0x7ceB23fD6bC0adD59E62ac25578270cFf1b9f619");
         ("USDT", "0xc2132D05D31c914a87C6611C10748AEb04B58e8F");
         ("USDC", "0x2791Bca1f2de4661ED88A30C99A7a9449Aa84174");
         ("WBTC", "0x1BFD67037B42Cf73acF2047067bd4F2C47D9BfD6");
         ("LINK", "0xb0897686c545045aFc77CF20eC7A532E3120E0F1");
         ("DAI", "0x8f3Cf7ad23Cd3CaDbD9735AFf958023239c6A063")])].

Definition token_not_found (network : string) (symbol : option string) : string :=
  String.append "Token "
    (String.append (render symbol)
       (String.append " not found for network " network)).

(** What [tokens.getTokenAddress] can return: a listed address, or the
    built-in value found under [name] on [tokens[owner]]. *)
Inductive TokenValue : Type :=
  | Address (a : string)
  | BuiltIn (owner name : string).

(** The members of the module object besides its four tables: its two
    methods and what it inherits. *)
Definition is_member (network : string) : bool :=
  String.eqb network "getTokenAddress" ||
  String.eqb network "getTokenDecimals" ||
  is_prototype_name network.

(** [tokens.getTokenAddress(network, symbol)]: it returns whatever truthy
    value [this[network][symbol]] is. *)
Definition getTokenAddress (env : Env) (network : string)
    (symbol : option string) : completion TokenValue :=
  match tokens !! network with
  | Some table =>
      match get_property table (render symbol) with
      | Own address => Normal (Address address)
      | Inherited => Normal (BuiltIn network (render symbol))
      | Absent => Throw (token_not_found network symbol)
      end
  | None =>
      if is_member network
      then match engine env network (render symbol) with
           | Normal true => Normal (BuiltIn network (render symbol))
           | Normal false => Throw (token_not_found network symbol)
           | Throw e => Throw e
           end
      else Throw (token_not_found network symbol)
  end.

Definition decimalMap : gmap string N :=
  list_to_map [("USDT", 6); ("USDC", 6); ("DAI", 18); ("WETH", 18);
               ("ETH", 18); ("WBTC", 8); ("BTC", 8); ("LINK", 18)]%N.

(** [tokens.getTokenDecimals(symbol)], that is [decimalMap[symbol] || 18]:
    [None] is an inherited value, which is no number. *)
Definition getTokenDecimals (symbol : option string) : option N :=
  match get_property decimalMap (render symbol) with
  | Own d => Some (if (d =? 0)%N then 18%N else d)
  | Inherited => None
  | Absent => Some 18%N
  end.

(** The FixedNumber format of ethers 6 that [parseUnits] and
    [formatUnits] work in: signed, 512 bits wide, at most 80 decimals. *)
Definition fits_format (value : Z) : bool :=
  (- 2 ^ 511 <=? value)%Z && (value <? 2 ^ 511)%Z.

(** [parseUnits(amount, decimals)] of ethers 6: the amount in the smallest
    unit; an error for decimals that are no number or more than 80, for
    a value that is not a decimal with at most [decimals] fractional
    digits, and for one that does not fit the format. *)
Definition parseUnits (amount : BigNumber) (decimals : option N)
    : completion Z :=
  match decimals with
  | None => Throw "invalid numeric value"
  | Some d =>
      if (80 <? d)%N then Throw "invalid fixed format (decimals too large)"
      else match amount with
           | BN q =>
               let v := (q * 10 ^ Z.of_N d)%Q in
               if Qeq_bool (inject_Z (Qfloor v)) v
               then if fits_format (Qfloor v) then Normal (Qfloor v)
                    else Throw "overflow"
               else Throw "too many decimals for format"
           | _ => Throw "invalid FixedNumber string value"
           end
  end.

(** [formatUnits(value, decimals)] of ethers 6. *)
Definition formatUnits (value : Z) (decimals : option N)
    : completion BigNumber :=
  match decimals with
  | None => Throw "invalid numeric value"
  | Some d =>
      if (80 <? d)%N then Throw "invalid fixed format (decimals too large)"
      else if fits_format value
           then Normal (BN (Qred (inject_Z value / 10 ^ Z.of_N d)%Q))
           else Throw "overflow"
  end.

(** [ethers.parseUnits(amount, decimals)] as the adapter writes it. *)
Definition ethers_parseUnits (env : Env) (amount : BigNumber)
    (decimals : option N) : completion Z :=
  match ethers env with
  | Ethers6 => parseUnits amount decimals
  | Ethers5 => Throw "ethers.parseUnits is not a function"
  end.

(** [ethers.formatUnits(value, decimals)] as the adapter writes it. *)
Definition ethers_formatUnits (env : Env) (value : Z) (decimals : option N)
    : completion BigNumber :=
  match ethers env with
  | Ethers6 => formatUnits value decimals
  | Ethers5 => Throw "ethers.formatUnits is not a function"
  end.

(** [ethers.BigNumber.from(n)] as the adapter writes it, for an integer
    literal. *)
Definition ethers_BigNumber_from (env : Env) (n : Z) : completion Z :=
  match ethers env with
  | Ethers5 => Normal n
  | Ethers6 => Throw "Cannot read properties of undefined (reading 'from')"
  end.

(** How a method of an ethers 5 [BigNumber] reads a JavaScript number that
    is an integer: it refuses what is not a safe integer. *)
Definition from_number (k : Z) : completion Z :=
  if (2 ^ 53 - 1 <=? Z.abs k)%Z then Throw "overflow" else Normal k.

Definition not_initialized : string := "Uniswap DEX adapter not initialized".

Definition no_valid_pool (network baseToken : string) (quoteToken : option string)
    : string :=
  String.append "No valid pool found for "
    (String.append baseToken
       (String.append "/"
          (String.append (render quoteToken) (String.append " on " network)))).

(** One round of the [for (const feeKey in POOL_FEES)] loop: a quote that
    fails (or a network without quoter) leaves the best pair as it is. *)
Definition try_fee (env : Env) (network tokenIn tokenOut : string)
    (amountIn : Z) (best : Z * Z) (fee : Z) : M (Z * Z) :=
  try_catch
    (if has_provider (config env) network
     then (amountOut <- perform (EvQuote network tokenIn tokenOut fee amountIn)
                                (answer_amount env) ;;
           ret (if (amountOut >? fst best)%Z then (amountOut, fee) else best))%js
     else throw "Cannot read properties of undefined")
    (fun _ => ret best).

(** The whole loop; [best] is the pair (bestAmountOut, bestFee). *)
Fixpoint quote_pools (env : Env) (network tokenIn tokenOut : string)
    (amountIn : Z) (best : Z * Z) (pool_fees : list Z) : M (Z * Z) :=
  match pool_fees with
  | [] => ret best
  | fee :: rest =>
      (best' <- try_fee env network tokenIn tokenOut amountIn best fee ;;
       quote_pools env network tokenIn tokenOut amountIn best' rest)%js
  end.

(** The loop for the two values [getTokenAddress] returned.  Quotes are
    asked for listed addresses; with a built-in value in the place of an
    address no round of the loop gets a quote. *)
Definition quote_tokens (env : Env) (network : string)
    (tokenIn tokenOut : TokenValue) (amountIn : Z) (best : Z * Z)
    : M (Z * Z) :=
  match tokenIn, tokenOut with
  | Address a, Address b =>
      quote_pools env network a b amountIn best POOL_FEES
  | _, _ => ret best
  end.

(** [getPrice(network, baseToken, quoteToken)] with the default amount '1'. *)
Definition getPrice (env : Env) (network baseToken : string)
    (quoteToken : option string) : M BigNumber :=
  try_catch
    ((if uniswap_initialized env then ret tt else throw not_initialized) ;;;
     baseTokenAddress <- lift (getTokenAddress env network (Some baseToken)) ;;
     quoteTokenAddress <- lift (getTokenAddress env network quoteToken) ;;
     let baseDecimals := getTokenDecimals (Some baseToken) in
     amountIn <- lift (ethers_parseUnits env (BN 1) baseDecimals) ;;
     bestAmountOut <- lift (ethers_BigNumber_from env 0) ;;
     best <- quote_tokens env network baseTokenAddress quoteTokenAddress
               amountIn (bestAmountOut, MEDIUM) ;;
     (if (fst best =? 0)%Z
      then throw (no_valid_pool network baseToken quoteToken) else ret tt) ;;;
     let quoteDecimals := getTokenDecimals quoteToken in
     price <- lift (ethers_formatUnits env (fst best) quoteDecimals) ;;
     _ <- date_now ;;       (* the time stamp of [this.prices[pairKey]] *)
     ret price)%js
    (fun error => throw error).

(** [bestAmountOut.mul(1000 - Math.floor(slippagePercentage * 10)).div(1000)]. *)
Definition minimum_out (bestAmountOut : Z) (slippagePercentage : number)
    : completion Z :=
  match JS.floor (JS.mul slippagePercentage (Num 10)) with
  | Some k =>
      match from_number (1000 - k) with
      | Normal m => Normal (Z.quot (bestAmountOut * m) 1000)
      | Throw e => Throw e
      end
  | None => Throw "invalid BigNumber value"
  end.

(** [getGasPrice(network)]: the provider of ethers 5 is asked for the gas
    price (release 6 has no such method); a network without provider has
    nothing to ask. *)
Definition getGasPrice (env : Env) (network : string) : M Z :=
  if has_provider (config env) network
  then
    match ethers env with
    | Ethers6 => throw "provider.getGasPrice is not a function"
    | Ethers5 =>
        (gasPrice <- perform (EvGasPrice network) (answer_amount env) ;;
         match JS.floor (JS.mul (gasPriceMultiplier (config env)) (Num 100)) with
         | Some k =>
             match from_number k with
             | Normal m => ret (Z.quot (gasPrice * m) 100)
             | Throw e => throw e
             end
         | None => throw "invalid BigNumber value"
         end)%js
    end
  else throw "Cannot read properties of undefined".

Record TradeResult : Type := {
  txHash : string;
  amountIn : BigNumber;
  estimatedAmountOut : BigNumber;
}.

(** What follows the quotes in the 'buy' and 'sell' branches of
    [executeTrade], for the best pair they found: approve, wait, swap. *)
Definition approve_and_swap (env : Env) (network baseToken : string)
    (quoteToken : option string) (tokenIn tokenOut : string)
    (decimalsIn decimalsOut : option N) (amountIn : Z) (best : Z * Z)
    (slippagePercentage : number) : M TradeResult :=
  ((if (fst best =? 0)%Z
    then throw (no_valid_pool network baseToken quoteToken) else ret tt) ;;;
   minAmountOut <- lift (minimum_out (fst best) slippagePercentage) ;;
   _ <- perform (EvApprove network tokenIn amountIn) (answer_tx env) ;;
   perform (EvTxWait ApproveTx) (answer_wait env) ;;;
   gasPrice <- getGasPrice env network ;;
   hash <- perform (EvSwap network tokenIn tokenOut (snd best) amountIn
                      minAmountOut gasPrice) (answer_tx env) ;;
   formattedIn <- lift (ethers_formatUnits env amountIn decimalsIn) ;;
   formattedOut <- lift (ethers_formatUnits env (fst best) decimalsOut) ;;
   ret {| txHash := hash;
          amountIn := formattedIn;
          estimatedAmountOut := formattedOut |})%js.

(** The common part of the 'buy' and 'sell' branches of [executeTrade]:
    spend [amount] of [tokenIn] for [tokenOut].  With a built-in value in
    the place of an address no quote is obtained, and the best amount
    stays what it was. *)
Definition swap_exact_input (env : Env) (network baseToken : string)
    (quoteToken : option string) (tokenIn tokenOut : TokenValue)
    (decimalsIn decimalsOut : option N) (amount : BigNumber)
    (slippagePercentage : number) (bestAmountOut : Z) : M TradeResult :=
  (amountIn <- lift (ethers_parseUnits env amount decimalsIn) ;;
   match tokenIn, tokenOut with
   | Address a, Address b =>
       best <- quote_pools env network a b amountIn
                 (bestAmountOut, MEDIUM) POOL_FEES ;;
       approve_and_swap env network baseToken quoteToken a b
         decimalsIn decimalsOut amountIn best slippagePercentage
   | _, _ =>
       if (bestAmountOut =? 0)%Z
       then throw (no_valid_pool network baseToken quoteToken)
       else throw "invalid address"
   end)%js.

(** [executeTrade(network, action, baseToken, quoteToken, amount,
    slippagePercentage)]. *)
Definition executeTrade (env : Env) (network action baseToken : string)
    (quoteToken : option string) (amount : BigNumber)
    (slippagePercentage : number) : M TradeResult :=
  try_catch
    ((if uniswap_initialized env then ret tt else throw not_initialized) ;;;
     baseTokenAddress <- lift (getTokenAddress env network (Some baseToken)) ;;
     quoteTokenAddress <- lift (getTokenAddress env network quoteToken) ;;
     let baseDecimals := getTokenDecimals (Some baseToken) in
     let quoteDecimals := getTokenDecimals quoteToken in
     _ <- date_now ;;       (* [deadline] *)
     bestAmountOut <- lift (ethers_BigNumber_from env 0) ;;
     if String.eqb action "buy" then
       swap_exact_input env network baseToken quoteToken
         quoteTokenAddress baseTokenAddress quoteDecimals baseDecimals
         amount slippagePercentage bestAmountOut
     else if String.eqb action "sell" then
       swap_exact_input env network baseToken quoteToken
         baseTokenAddress quoteTokenAddress baseDecimals quoteDecimals
         amount slippagePercentage bestAmountOut
     else throw (String.append "Invalid action: "
                   (String.append action ". Must be 'buy' or 'sell'")))%js
    (fun error => throw error).

End Uniswap.

(* ===================================================================== *)
(** ** ArbitrageService *)
(* ===================================================================== *)

Module Service.

Import Opportunity.

(** node-cache, constructed with [{ stdTTL: 60, checkperiod: 30 }]. *)
Definition stdTTL : Z := 60.

(** [this.cache.get(key)]: a present entry with a time to live is checked
    against the clock ([data.t !== 0 && data.t < Date.now()]) and dropped
    when its time is over; an entry without one is returned without a
    look at the clock. *)
Definition cache_get (key : string) : M (option BigNumber) :=
  fun w =>
    match cacheData w !! key with
    | None => (Normal None, w)
    | Some entry =>
        if (ce_t entry =? 0)%Z then (Normal (Some (ce_value entry)), w)
        else
          let now := clock w (reads w) in
          let w' := set_reads (S (reads w)) w in
          if (ce_t entry <? now)%Z
          then (Normal None, set_cacheData (delete key (cacheData w')) w')
          else (Normal (Some (ce_value entry)), w')
    end.

(** [this.cache.set(key, value)]: lives for stdTTL seconds from now. *)
Definition cache_set (key : string) (value : BigNumber) : M unit :=
  (now <- date_now ;;
   fun w => (Normal tt,
             set_cacheData
               (<[ key := {| ce_value := value;
                             ce_t := (now + stdTTL * 1000)%Z |} ]> (cacheData w))
               w))%js.

Definition cacheKey (network baseToken : string) (quoteToken : option string)
    : string :=
  String.append "dexPrice:"
    (String.append network
       (String.append ":"
          (String.append baseToken
             (String.append "-" (render quoteToken))))).

(** [getDexPrice(network, baseToken, quoteToken)]. *)
Definition getDexPrice (env : Env) (network baseToken : string)
    (quoteToken : option string) : M price :=
  try_catch
    (cachedPrice <- cache_get (cacheKey network baseToken quoteToken) ;;
     match cachedPrice with
     | Some cached => ret (Some cached)
     | None =>
         (price <- Uniswap.getPrice env network baseToken quoteToken ;;
          cache_set (cacheKey network baseToken quoteToken) price ;;;
          ret (Some price))
     end)%js
    (fun _ => ret None).

(** The local constants of [calculateProfit]. *)
Definition tradeAmount : BigNumber := BN 1.

Definition dexFee (f : Fees) (direction : string) (sellPriceBN : BigNumber)
    : BigNumber :=
  if String.eqb direction "dexToCex"
  then tradeAmount *! BN (uniswap_fee f)
  else tradeAmount *! sellPriceBN *! BN (uniswap_fee f).

Definition binanceFee (f : Fees) (direction : string) (sellPriceBN : BigNumber)
    : BigNumber :=
  if String.eqb direction "dexToCex"
  then tradeAmount *! sellPriceBN *! BN (binance_taker f)
  else tradeAmount *! BN (binance_taker f).

(** [new BigNumber(this.fees.gas[network] || 0.1)]. *)
Definition gasCost (f : Fees) (network : string) : BigNumber :=
  gas_or_default (gas f) network.

Definition costToBuy (f : Fees) (direction : string)
    (buyPriceBN sellPriceBN : BigNumber) : BigNumber :=
  if String.eqb direction "dexToCex"
  then tradeAmount *! buyPriceBN +! dexFee f direction sellPriceBN
  else tradeAmount *! buyPriceBN +! binanceFee f direction sellPriceBN.

Definition revenueFromSell (f : Fees) (direction : string)
    (sellPriceBN : BigNumber) : BigNumber :=
  if String.eqb direction "dexToCex"
  then tradeAmount *! sellPriceBN -! binanceFee f direction sellPriceBN
  else tradeAmount *! sellPriceBN -! dexFee f direction sellPriceBN.

Definition profit (f : Fees) (direction network : string)
    (buyPriceBN sellPriceBN : BigNumber) : BigNumber :=
  revenueFromSell f direction sellPriceBN
    -! costToBuy f direction buyPriceBN sellPriceBN
    -! gasCost f network.

(** [calculateProfit(direction, network, baseToken, quoteToken, buyPrice,
    sellPrice)]; [now] is what the clock answers during the call. *)
Definition calculateProfit (f : Fees) (now : Z)
    (direction network baseToken : string) (quoteToken : option string)
    (buyPrice sellPrice : BigNumber) : completion Opportunity.t :=
  let buyPriceBN := buyPrice in
  let sellPriceBN := sellPrice in
  let profit := profit f direction network buyPriceBN sellPriceBN in
  let profitPercentage :=
    BigNumber.toNumber
      (profit /! costToBuy f direction buyPriceBN sellPriceBN *! BN 100) in
  Normal {|
    direction := direction;
    network := network;
    baseToken := baseToken;
    quoteToken := quoteToken;
    buyPrice := buyPriceBN;
    sellPrice := sellPriceBN;
    Opportunity.tradeAmount := tradeAmount;
    estimatedProfit := profit;
    profitPercentage := profitPercentage;
    timestamp := now;
  |}.

(** [opportunities.push(o)] on the array of the running scan. *)
Definition push (o : Opportunity.t) : M unit :=
  fun w => (Normal tt, set_scanning (scanning w ++ [o]) w).

Definition push_if (b : bool) (o : Opportunity.t) : M unit :=
  if b then push o else ret tt.

(** Ghost: log a computed result. *)
Definition note_computed (o : Opportunity.t) : M unit :=
  fun w => (Normal tt, set_computed (computed w ++ [o]) w).

(** The two results computed for one pair and network, in the order of the
    calls: dexToCex, then cexToDex. *)
Definition compute_both (env : Env) (network baseToken : string)
    (quoteToken : option string) (cexBid cexAsk dexPrice : BigNumber)
    : M (Opportunity.t * Opportunity.t) :=
  (now1 <- date_now ;;
   dexToCexProfit <- lift (calculateProfit (fees env) now1 "dexToCex" network
                             baseToken quoteToken dexPrice cexBid) ;;
   note_computed dexToCexProfit ;;;
   now2 <- date_now ;;
   cexToDexProfit <- lift (calculateProfit (fees env) now2 "cexToDex" network
                             baseToken quoteToken cexAsk dexPrice) ;;
   note_computed cexToDexProfit ;;;
   ret (dexToCexProfit, cexToDexProfit))%js.

(** The body of the [for (const network of ...)] loop. *)
Definition scan_network (env : Env) (baseToken : string)
    (quoteToken : option string) (binanceSymbol : string)
    (network : string * bool) : M unit :=
  if negb (snd network) then ret tt
  else
    (cexBid <- Binance.getBestBid env binanceSymbol ;;
     cexAsk <- Binance.getBestAsk env binanceSymbol ;;
     match cexBid, cexAsk with
     | Some cexBid, Some cexAsk =>
         (dexPrice <- getDexPrice env (fst network) baseToken quoteToken ;;
          match dexPrice with
          | None => ret tt
          | Some dexPrice =>
              (both <- compute_both env (fst network) baseToken quoteToken
                         cexBid cexAsk dexPrice ;;
               push_if (JS.gt (profitPercentage (fst both)) (Num 0)) (fst both) ;;;
               push_if (JS.gt (profitPercentage (snd both)) (Num 0)) (snd both))
          end)
     | _, _ => ret tt
     end)%js.

Fixpoint scan_networks (env : Env) (baseToken : string)
    (quoteToken : option string) (binanceSymbol : string)
    (nets : list (string * bool)) : M unit :=
  match nets with
  | [] => ret tt
  | network :: rest =>
      (scan_network env baseToken quoteToken binanceSymbol network ;;;
       scan_networks env baseToken quoteToken binanceSymbol rest)%js
  end.

(** The body of the [for (const pair of ...)] loop, with its try/catch. *)
Definition scan_pair (env : Env) (tradingPair : string) : M unit :=
  try_catch
    (let '(baseToken, quoteToken) := split_pair tradingPair in
     let binanceSymbol := Binance.getSymbolFromPair tradingPair in
     scan_networks env baseToken quoteToken binanceSymbol
       (networks (config env)))
    (fun _ => ret tt).

Fixpoint scan_pairs (env : Env) (pairs : list string) : M unit :=
  match pairs with
  | [] => ret tt
  | tradingPair :: rest =>
      (scan_pair env tradingPair ;;; scan_pairs env rest)%js
  end.

(** The sort comparator [(a, b) => b.profitPercentage - a.profitPercentage]. *)
Definition compare (a b : Opportunity.t) : number :=
  JS.sub (profitPercentage b) (profitPercentage a).

(** [findArbitrageOpportunities()]. *)
Definition findArbitrageOpportunities (env : Env) : M (list Opportunity.t) :=
  ((fun w => (Normal tt, set_scanning [] w)) ;;;
   scan_pairs env (tradingPairs (config env)) ;;;
   fun w =>
     let opportunities := array_sort compare (scanning w) in
     (Normal opportunities,
      set_ledger opportunities (set_scanning opportunities w)))%js.

(** [getArbitrageOpportunities()]. *)
Definition getArbitrageOpportunities : M (list Opportunity.t) :=
  fun w => (Normal (ledger w), w).

(** What a leg hands back. *)
Inductive LegResult : Type :=
  | DexResult (r : Uniswap.TradeResult)
  | CexResult (orderId : Z).

Definition binanceSymbol_of (o : Opportunity.t) : string :=
  Binance.getSymbolFromPair
    (String.append (baseToken o) (String.append "-" (render (quoteToken o)))).

(** The first venue call of [executeArbitrage], by direction. *)
Definition leg1 (env : Env) (o : Opportunity.t) : M LegResult :=
  if String.eqb (direction o) "dexToCex" then
    (buyResult <- Uniswap.executeTrade env (network o) "buy" (baseToken o)
                    (quoteToken o) (Opportunity.tradeAmount o)
                    (maxSlippagePercentage (config env)) ;;
     ret (DexResult buyResult))%js
  else
    (quantity <- lift (Binance.normalizeQuantity (symbolInfo env)
                         (binanceSymbol_of o) (Opportunity.tradeAmount o)) ;;
     buyResult <- Binance.executeBuy env (binanceSymbol_of o) quantity ;;
     ret (CexResult buyResult))%js.

(** The second venue call. *)
Definition leg2 (env : Env) (o : Opportunity.t) : M LegResult :=
  if String.eqb (direction o) "dexToCex" then
    (sellResult <- Binance.executeSell env (binanceSymbol_of o)
                     (Opportunity.tradeAmount o) ;;
     ret (CexResult sellResult))%js
  else
    (sellResult <- Uniswap.executeTrade env (network o) "sell" (baseToken o)
                     (quoteToken o) (Opportunity.tradeAmount o)
                     (maxSlippagePercentage (config env)) ;;
     ret (DexResult sellResult))%js.

(** [executeArbitrage(opportunity)]. *)
Definition executeArbitrage (env : Env) (o : Opportunity.t) : M bool :=
  try_catch
    (_ <- leg1 env o ;;
     _ <- leg2 env o ;;
     ret true)%js
    (fun _ => ret false).

(** The [for (const opp of opportunities)] loop of [runArbitrageLoop]. *)
Fixpoint execute_profitable (env : Env) (opportunities : list Opportunity.t)
    : M unit :=
  match opportunities with
  | [] => ret tt
  | opp :: rest =>
      ((if JS.gt (profitPercentage opp) (minimumProfitPercentage (config env))
        then (_ <- executeArbitrage env opp ;; ret tt)
        else ret tt) ;;;
       execute_profitable env rest)%js
  end.

(** One round of the [while (this.running)] loop. *)
Definition loop_iteration (env : Env) : M unit :=
  try_catch
    (opportunities <- findArbitrageOpportunities env ;;
     execute_profitable env opportunities ;;;
     emit (EvSleep 1000))%js
    (fun _ => emit (EvSleep 5000)).

(** [runArbitrageLoop()], for at most [rounds] rounds; [running] tells
    whether the flag is still set, given the calls made so far. *)
Fixpoint runArbitrageLoop (env : Env) (running : list Event -> bool)
    (rounds : nat) : M unit :=
  match rounds with
  | O => ret tt
  | S n =>
      (t <- get_trace ;;
       if running t
       then (loop_iteration env ;;; runArbitrageLoop env running n)
       else ret tt)%js
  end.

End Service.

(* ===================================================================== *)
(** ** The spread computation as the specification words it *)
(* ===================================================================== *)

Module Spec.
Local Open Scope Q_scope.

Section Formula.
Variables buyPrice sellPrice buyFeeRate sellFeeRate gasCost tradeSize : Q.

Definition buyCost : Q := buyPrice * tradeSize.
Definition buyFee : Q := buyCost * buyFeeRate.
Definition totalBuyCost : Q := buyCost + buyFee.
Definition sellProceeds : Q := sellPrice * tradeSize.
Definition sellFee : Q := sellProceeds * sellFeeRate.
Definition totalSellProceeds : Q := sellProceeds - sellFee.
Definition rawProfit : Q := totalSellProceeds - totalBuyCost.
Definition profitAfterGas : Q := rawProfit - gasCost.
Definition profitPercentage : Q := profitAfterGas / totalBuyCost * 100.
End Formula.

End Spec.






(** Options that set the three rates and leave the rest to the defaults. *)
Definition rates (buyFee sellFee gasCost : Q) : Strategy.SpreadOptions :=
  {| Strategy.opt_buyFee := Some buyFee;
     Strategy.opt_sellFee := Some sellFee;
     Strategy.opt_gasCost := Some (BN gasCost);
     Strategy.opt_baseToken := None;
     Strategy.opt_quoteToken := None;
     Strategy.opt_network := None;
     Strategy.opt_direction := None;
     Strategy.opt_tradeSize := None |}.

(** The rates [calculateSpread] works with once the defaults are in. *)
Definition buyFee_of (o : Strategy.SpreadOptions) : Q :=
  default_to (Strategy.opt_buyFee o) 0.001%Q.
Definition sellFee_of (o : Strategy.SpreadOptions) : Q :=
  default_to (Strategy.opt_sellFee o) 0.001%Q.
Definition gasCost_of (o : Strategy.SpreadOptions) : BigNumber :=
  default_to (Strategy.opt_gasCost o) (BN 0.1).
Definition tradeSize_of (o : Strategy.SpreadOptions) : Q :=
  default_to (Strategy.opt_tradeSize o) 1%Q.

(* ===================================================================== *)
(** ** Sample data *)
(* ===================================================================== *)

Definition info_with_step (step : BigNumber) : SymbolInfo :=
  {| baseAsset := "WBTC"; quoteAsset := "USDT"; stepSize := step;
     tickSize := BN 0.01; minNotional := BN 10 |}.

(** One trading pair, one network with a provider, and venues that would
    answer: the 0.3 percent pool quotes 100700000 units, every other pool
    reverts. *)
Definition sample_config : Config :=
  {| networks := [("ethereum", false); ("arbitrum", false);
                  ("optimism", true); ("polygon", false)];
     minimumProfitPercentage := Num 0.5;
     maxSlippagePercentage := Num 0.5;
     gasPriceMultiplier := Num 1.1;
     tradingPairs := ["WBTC-USDT"] |}.

Definition sample_prices : gmap string Ticker :=
  {[ "WBTCUSDT" := {| bid := Some (BN 99); ask := Some (BN 100);
                      last := Some (BN 100) |} ]}.

Definition sample_amounts (t : list Event) : completion Z :=
  match List.last (map Some t) None with
  | Some (EvQuote _ _ _ fee _) =>
      if (fee =? 3000)%Z then Normal 100700000%Z else Throw "execution reverted"
  | Some (EvGasPrice _) => Normal 1000%Z
  | _ => Throw "unexpected call"
  end.

(** The name and the length of the two methods of config/tokens.js are
    truthy. *)
Definition sample_engine (owner name : string) : completion bool :=
  Normal ((String.eqb owner "getTokenAddress" ||
           String.eqb owner "getTokenDecimals") &&
          (String.eqb name "name" || String.eqb name "length")).

(** The providers are built with [new ethers.JsonRpcProvider], which is
    release 6. *)
Definition sample_env (initialized : bool) (order : completion Z) : Env :=
  {| config := sample_config;
     fees := service_fees;
     prices := fun _ => sample_prices;
     symbolInfo := {[ "WBTCUSDT" := info_with_step (BN 0.001) ]};
     uniswap_initialized := initialized;
     ethers := Ethers6;
     engine := sample_engine;
     answer_amount := sample_amounts;
     answer_tx := fun _ => Normal "0xabc";
     answer_wait := fun _ => Normal tt;
     answer_order := fun _ => order |}.

(** A fresh process: empty cache, empty ledger, a clock that advances one
    second per reading. *)
Definition sample_world : World :=
  {| clock := fun n => (1000 * Z.of_nat n)%Z;
     reads := 0;
     trace := [];
     cacheData := ∅;
     ledger := [];
     scanning := [];
     computed := [] |}.

(** A world whose cache holds a price for WBTC-USDT on optimism. *)
Definition cached_world (value : BigNumber) (t : Z) : World :=
  set_cacheData {[ "dexPrice:optimism:WBTC-USDT" :=
                     {| ce_value := value; ce_t := t |} ]} sample_world.

(** An opportunity as [calculateProfit] shapes it. *)
Definition sample_opportunity (direction : string) (percentage : Q) (stamp : Z)
    : Opportunity.t :=
  {| Opportunity.direction := direction;
     Opportunity.network := "optimism";
     Opportunity.baseToken := "WBTC";
     Opportunity.quoteToken := Some "USDT";
     Opportunity.buyPrice := BN 100;
     Opportunity.sellPrice := BN 102;
     Opportunity.tradeAmount := BN 1;
     Opportunity.estimatedProfit := BN 1;
     Opportunity.profitPercentage := Num percentage;
     Opportunity.timestamp := stamp |}.

(** The price lookup finds a live entry for [key] holding [v]. *)
Definition cache_hit (w : World) (key : string) (v : BigNumber) : Prop :=
  exists e, cacheData w !! key = Some e /\ ce_value e = v /\
            (ce_t e = 0 \/ clock w (reads w) <= ce_t e)%Z.

(** No live entry for [key]: none at all, or one whose time is over. *)
Definition cache_miss (w : World) (key : string) : Prop :=
  cacheData w !! key = None \/
  exists e, cacheData w !! key = Some e /\
            ce_t e <> 0%Z /\ (ce_t e < clock w (reads w))%Z.

(* ===================================================================== *)
(** ** Vocabulary of the statements *)
(* ===================================================================== *)

Section SortOrder.
Context {A : Type} (key : A -> number).

(** The comparator both sorts use. *)
Definition descending (a b : A) : number := JS.sub (key b) (key a).

(** [x] stands no later than [y]: the key of [y] is not greater. *)
Definition not_below (x y : A) : Prop := JS.gt (key y) (key x) = false.

(** The entries whose key is [k]. *)
Definition same_key (k : number) (x : A) : bool := JS.eqb (key x) k.
End SortOrder.

(** Every run of [m] relates the world before to the world after. *)
Definition respects (R : World -> World -> Prop) {A} (m : M A) : Prop :=
  forall w, R w (snd (m w)).

(** Nothing of a scan is touched: its array, the ghost log, the ledger. *)
Definition frame (w w' : World) : Prop :=
  scanning w' = scanning w /\ computed w' = computed w /\ ledger w' = ledger w.

(** The trace only grows, and by events that satisfy [P]. *)
Definition extends_trace (P : Event -> Prop) (w w' : World) : Prop :=
  exists t, trace w' = trace w ++ t /\ Forall P t.

(** The calls [executeTrade] and [getPrice] make: quotes, the approval and
    the wait for it, the gas price, the swap. *)
Definition dex_event (e : Event) : Prop :=
  match e with
  | EvQuote _ _ _ _ _ | EvApprove _ _ _ | EvTxWait ApproveTx
  | EvGasPrice _ | EvSwap _ _ _ _ _ _ _ => True
  | _ => False
  end.

(** The calls to the centralized venue: market orders. *)
Definition cex_event (e : Event) : Prop :=
  match e with EvOrder _ _ _ => True | _ => False end.

(** The venue of the first leg of an opportunity, and of the second. *)
Definition leg1_event (o : Opportunity.t) (e : Event) : Prop :=
  if String.eqb (Opportunity.direction o) "dexToCex"
  then dex_event e else cex_event e.

Definition leg2_event (o : Opportunity.t) (e : Event) : Prop :=
  if String.eqb (Opportunity.direction o) "dexToCex"
  then cex_event e else dex_event e.

(** The retention test of the scan: [profitPercentage > 0]. *)
Definition profitable (o : Opportunity.t) : bool :=
  JS.gt (Opportunity.profitPercentage o) (Num 0).

(** The execution test of the loop. *)
Definition above_minimum (cfg : Config) (o : Opportunity.t) : bool :=
  JS.gt (Opportunity.profitPercentage o) (minimumProfitPercentage cfg).

(** A step of the scan: it ends normally, logs the results it computes and
    pushes those that are profitable, in the same order. *)
Definition scan_step (m : M unit) : Prop :=
  forall w, exists new,
    fst (m w) = Normal tt /\
    computed (snd (m w)) = computed w ++ new /\
    scanning (snd (m w)) = scanning w ++ List.filter profitable new /\
    ledger (snd (m w)) = ledger w.

(** Run [executeArbitrage] on every entry of a list, one after the other. *)
Fixpoint execute_each (env : Env) (l : list Opportunity.t) : M unit :=
  match l with
  | [] => ret tt
  | opp :: rest =>
      (_ <- Service.executeArbitrage env opp ;; execute_each env rest)%js
  end.

(** The result a scan of the sample retains when the cache holds the price
    100.7: buying at 100 on the centralized venue and selling at 100.7 on
    optimism earns 0.2969, about 0.2969 percent of the cost 100.001. *)
Definition sample_retained : Opportunity.t :=
  {| Opportunity.direction := "cexToDex";
     Opportunity.network := "optimism";
     Opportunity.baseToken := "WBTC";
     Opportunity.quoteToken := Some "USDT";
     Opportunity.buyPrice := BN 100;
     Opportunity.sellPrice := BN 100.7;
     Opportunity.tradeAmount := BN 1;
     Opportunity.estimatedProfit := BN 0.2969;
     Opportunity.profitPercentage := Num (5348421433250869 # 18014398509481984);
     Opportunity.timestamp := 2000 |}.

(** What [evaluateArbitrageOpportunities] found, in the order it found it. *)
Definition discovered (this : Strategy.t)
    (cexPrices : option (BigNumber * BigNumber))
    (dexPricesByNetwork : option (gmap string BigNumber))
    (baseToken quoteToken : option string) (w : World)
    : list Strategy.SpreadResult :=
  match cexPrices, dexPricesByNetwork with
  | Some (bid, ask), Some dexPrices =>
      match fst (Strategy.evaluate_networks this bid ask dexPrices baseToken
                   quoteToken (Strategy.networkPriority this) w) with
      | Normal found => found
      | Throw _ => []
      end
  | _, _ => []
  end.

(* ===================================================================== *)
(** ** ApiService: the routes that reach the engine *)
(* ===================================================================== *)

Module Api.

(** [req.body.opportunityId]: absent or falsy; truthy but not read as a
  number by [parseInt]; or read as the integer [n]. *)
Inductive BodyId : Type :=
| IdAbsent
| IdNotANumber
| IdInt (n : Z).

(** What [express.json()] makes of the body of a request before a route
  is reached: it fails (a body that is announced as JSON and is not, or is
  too large) and hands its error on; or it leaves [req.body] undefined
  (Express 5, a request without JSON body); or [req.body] is an object,
  of which the routes read [opportunityId] alone. *)
Inductive Body : Type :=
| BodyRejected
| BodyUndefined
| BodyParsed (opportunityId : BodyId).

(** What a route answers: a JSON body with status 200, or an error status
  (the error text is left out). *)
Inductive Response (A : Type) : Type :=
| Json (body : A)
| Failure (status : Z).
Arguments Json {A} body.
Arguments Failure {A} status.

(** [opportunities.find(o => o.timestamp === parseInt(opportunityId))]. *)
Definition find_opportunity (id : Z) (opportunities : list Opportunity.t)
  : option Opportunity.t :=
List.find (fun o => (Opportunity.timestamp o =? id)%Z) opportunities.

(** The handler of GET /api/prices/dex/:network/:baseToken/:quoteToken. *)
Definition get_dex_price (env : Env) (network baseToken quoteToken : string)
  : M (Response BigNumber) :=
try_catch
  (price <- Service.getDexPrice env network baseToken (Some quoteToken) ;;
   match price with
   | None => ret (Failure 404)
   | Some p => (_ <- date_now ;; ret (Json p))
   end)%js
  (fun _ => ret (Failure 500)).

(** The handler of POST /api/opportunities/find. *)
Definition post_find (env : Env) : M (Response (list Opportunity.t)) :=
try_catch
  (opportunities <- Service.findArbitrageOpportunities env ;;
   ret (Json opportunities))%js
  (fun _ => ret (Failure 500)).

(** The handler of POST /api/opportunities/execute once it has read
  [opportunityId] from the body. *)
Definition post_execute (env : Env) (opportunityId : BodyId)
  : M (Response (bool * Opportunity.t)) :=
match opportunityId with
| IdAbsent => ret (Failure 400)
| IdNotANumber =>
    (_ <- Service.getArbitrageOpportunities ;; ret (Failure 404))%js
| IdInt id =>
    (opportunities <- Service.getArbitrageOpportunities ;;
     match find_opportunity id opportunities with
     | None => ret (Failure 404)
     | Some opportunity =>
         try_catch
           (result <- Service.executeArbitrage env opportunity ;;
            ret (Json (result, opportunity)))
           (fun _ => ret (Failure 500))
     end)%js
end.

(** The error-handling middleware, the last of the application:
  [res.status(500).json({ error: err.message })]. *)
Definition error_handler {A} : M (Response A) := ret (Failure 500).

(** A request to a route that does not read the body: the route is reached
  unless the JSON middleware failed. *)
Definition through_json {A} (body : Body) (handler : M (Response A))
  : M (Response A) :=
match body with
| BodyRejected => error_handler
| _ => handler
end.

(** A request for a price, from the JSON middleware on. *)
Definition request_dex_price (env : Env) (body : Body)
  (network baseToken quoteToken : string) : M (Response BigNumber) :=
through_json body (get_dex_price env network baseToken quoteToken).

(** A request for a scan, from the JSON middleware on. *)
Definition request_find (env : Env) (body : Body)
  : M (Response (list Opportunity.t)) :=
through_json body (post_find env).

(** A request for an execution, from the JSON middleware on.  The handler
  destructures [req.body] before its try block: on an undefined body
  that throws, and the error goes to the error handler. *)
Definition request_execute (env : Env) (body : Body)
  : M (Response (bool * Opportunity.t)) :=
match body with
| BodyRejected => error_handler
| BodyUndefined => error_handler
| BodyParsed opportunityId => post_execute env opportunityId
end.

End Api.

(* ===================================================================== *)
(** ** ArbitrageService: initialize, start, stop *)
(* ===================================================================== *)

Module Lifecycle.

(** The two flags of the service and the number of loops launched. *)
Record t : Type := {
initialized : bool;
running : bool;
launched : nat;
}.

(** [new ArbitrageService()]. *)
Definition constructed : t :=
{| initialized := false; running := false; launched := 0 |}.

(** [initialize()]; [binanceInitialized] and [uniswapInitialized] are what
  the two adapters answer.  It returns whether it succeeded. *)
Definition initialize (binanceInitialized uniswapInitialized : bool) (s : t)
  : bool * t :=
if negb binanceInitialized || negb uniswapInitialized
then (false, s)
else (true, {| initialized := true; running := running s;
               launched := launched s |}).

(** [start()]. *)
Definition start (s : t) : completion unit * t :=
if negb (initialized s) then (Throw "Arbitrage Service not initialized", s)
else if running s then (Normal tt, s)
else (Normal tt, {| initialized := initialized s; running := true;
                    launched := S (launched s) |}).

(** [stop()]. *)
Definition stop (s : t) : t :=
{| initialized := initialized s; running := false; launched := launched s |}.

(** A call from outside. *)
Inductive Call : Type :=
| Initialize (binanceInitialized uniswapInitialized : bool)
| Start
| Stop.

Definition call (c : Call) (s : t) : t :=
match c with
| Initialize b u => snd (initialize b u s)
| Start => snd (start s)
| Stop => stop s
end.

Definition calls (cs : list Call) (s : t) : t := foldl (fun s c => call c s) s cs.

End Lifecycle.

(* ===================================================================== *)
(** ** Vocabulary of the further statements *)
(* ===================================================================== *)

(** A string without the character [sep]. *)
Fixpoint free_of (sep : ascii) (s : string) : Prop :=
  match s with
  | EmptyString => True
  | String c s' => c <> sep /\ free_of sep s'
  end.

(** What [initialize] stores for one symbol of the exchange information. *)
Definition info_of (s : ExchangeSymbol) : SymbolInfo :=
  {| baseAsset := es_baseAsset s;
     quoteAsset := es_quoteAsset s;
     stepSize := Binance.filter_value (es_filters s) "LOT_SIZE"
                   f_stepSize (BN 0.00000001);
     tickSize := Binance.filter_value (es_filters s) "PRICE_FILTER"
                   f_tickSize (BN 0.00000001);
     minNotional := Binance.filter_value (es_filters s) "MIN_NOTIONAL"
                   f_minNotional (BN 10) |}.

Definition is_quote (e : Event) : Prop :=
  match e with EvQuote _ _ _ _ _ => True | _ => False end.

(** What every result of a scan looks like: one base token traded, one of
    the two directions, on a configured network that has a provider. *)
Definition scan_shaped (cfg : Config) (o : Opportunity.t) : Prop :=
  Opportunity.tradeAmount o = BN 1 /\
  (Opportunity.direction o = "dexToCex" \/ Opportunity.direction o = "cexToDex") /\
  In (Opportunity.network o, true) (networks cfg) /\
  exists tradingPair,
    In tradingPair (tradingPairs cfg) /\
    split_pair tradingPair = (Opportunity.baseToken o, Opportunity.quoteToken o).

(** The ghost log grows by results that satisfy [P]. *)
Definition logs_only (P : Opportunity.t -> Prop) (w w' : World) : Prop :=
  exists new, computed w' = computed w ++ new /\ Forall P new.

(** The fee rates and gas costs of the service are not negative. *)
Definition fees_nonneg (f : Fees) : Prop :=
  (0 <= binance_taker f)%Q /\ (0 <= uniswap_fee f)%Q /\
  forall network g, gas f !! network = Some g -> (0 <= g)%Q.



(** A call to one of the two venues. *)
Definition venue_event (e : Event) : Prop := dex_event e \/ cex_event e.

(** Every price of the map is a finite decimal. *)
Definition finite_prices (m : gmap string BigNumber) : Prop :=
  forall network p, m !! network = Some p -> exists q, p = BN q.

(** [new BasicArbitrageStrategy()] with the configured minimum 0.5 and
    slippage 0.5. *)
Definition default_strategy : Strategy.t :=
  Strategy.construct
    {| Strategy.o_minProfitPercentage := None; Strategy.o_maxSlippage := None;
       Strategy.o_networkPriority := None; Strategy.o_cexFee := None;
       Strategy.o_dexFee := None; Strategy.o_gasCosts := None |}
    (Num 0.5) (Num 0.5).

(** What the strategy says of a result it returns: where it comes from, that
    it beats the minimum, and when [shouldExecute] accepts it. *)
Definition strategy_result (this : Strategy.t)
    (dexPrices : gmap string BigNumber) (r : Strategy.SpreadResult) : Prop :=
  In (Strategy.network r) (Strategy.networkPriority this) /\
  is_Some (dexPrices !! Strategy.network r) /\
  JS.gt (Strategy.profitPercentage r) (Strategy.minProfitPercentage this) = true /\
  exists pag g,
    Strategy.profitAfterGas r = BN pag /\
    Strategy.gasCost r = BN g /\
    ~ (g == 0)%Q /\
    (Strategy.shouldExecute this (Some r) = true <-> (3 * g <= pag)%Q).

(** What the execute route answers for the body [id] in the world [w]: an
    error status and an untouched world, or the result of executing the
    first ledger entry whose timestamp is the one asked for. *)
Definition execute_outcome (env : Env) (id : Api.BodyId) (w : World)
    (resp : Api.Response (bool * Opportunity.t)) (w' : World) : Prop :=
  match resp with
  | Api.Failure status =>
      w' = w /\
      ((status = 400%Z /\ id = Api.IdAbsent) \/
       (status = 404%Z /\ id <> Api.IdAbsent /\
        forall n, id = Api.IdInt n ->
                  Forall (fun x => Opportunity.timestamp x <> n) (ledger w)))
  | Api.Json (result, o) =>
      exists n before after,
        id = Api.IdInt n /\
        ledger w = before ++ o :: after /\
        Opportunity.timestamp o = n /\
        Forall (fun x => Opportunity.timestamp x <> n) before /\
        Service.executeArbitrage env o w = (Normal result, w')
  end.

(** A route answered, and not with status 500. *)
Definition answered {A} (r : completion (Api.Response A) * World) : Prop :=
  exists resp, fst r = Normal resp /\ resp <> Api.Failure 500%Z.

(** The one market order an execution of [o] can place: a sale of the
    trade amount as it is for dexToCex, a purchase of the normalized
    trade amount otherwise (none if the amount cannot be normalized). *)
Definition order_of (env : Env) (o : Opportunity.t) : completion Event :=
  if String.eqb (Opportunity.direction o) "dexToCex"
  then Normal (EvOrder (Service.binanceSymbol_of o) SELL
                 (Opportunity.tradeAmount o))
  else match Binance.normalizeQuantity (symbolInfo env)
               (Service.binanceSymbol_of o) (Opportunity.tradeAmount o) with
       | Normal quantity =>
           Normal (EvOrder (Service.binanceSymbol_of o) BUY quantity)
       | Throw e => Throw e
       end.

(** What the loop does between two looks at the flag: calls to the venues
    and the regular pause. *)
Definition loop_event (e : Event) : Prop :=
  venue_event e \/ e = EvSleep 1000.


(* ===================================================================== *)
(** ** Decimal arithmetic *)
(* ===================================================================== *)

Section DecimalFacts.
Local Open Scope Q_scope.

Lemma Qneg_true (q : Q) : JS.Qneg q = true -> q < 0.
Proof.
  unfold JS.Qneg. intros H. apply negb_true_iff in H.
  apply Qnot_le_lt. intros Hle. apply Qle_bool_iff in Hle. congruence.
Qed.

Lemma Qneg_false (q : Q) : JS.Qneg q = false -> 0 <= q.
Proof.
  unfold JS.Qneg. intros H. apply negb_false_iff in H.
  now apply Qle_bool_iff.
Qed.


Lemma is_zero_false (q : Q) : BigNumber.is_zero q = false <-> ~ q == 0.
Proof.
  unfold BigNumber.is_zero. split.
  - intros H Hq. apply Qeq_bool_iff in Hq. congruence.
  - intros H. destruct (Qeq_bool q 0) eqn:E; [|reflexivity].
    apply Qeq_bool_iff in E. contradiction.
Qed.

Lemma ten_power_pos (dp : Z) : 0 < 10 ^ dp.
Proof. apply Qpower_0_lt. reflexivity. Qed.

(** The integer nearest to a non-negative [x], found by the floor of
    [x + 1/2], is within one half of [x]. *)
Lemma floor_half_near (x : Q) :
  Qabs (inject_Z (Qfloor (x + (1 # 2))) - x) <= 1 # 2.
Proof.
  pose proof (Qfloor_le (x + (1 # 2))) as Hlo.
  pose proof (Qlt_floor (x + (1 # 2))) as Hhi.
  rewrite inject_Z_plus in Hhi. change (inject_Z 1) with 1 in Hhi.
  set (m := inject_Z (Qfloor (x + (1 # 2)))) in *.
  apply Qabs_Qle_condition. split; lra.
Qed.

(** ROUND_HALF_UP moves a value by at most half a unit of the last kept
    decimal place. *)
Lemma round_half_up_error (dp : Z) (q : Q) :
  Qabs (BigNumber.round_half_up dp q - q) <= (1 # 2) / 10 ^ dp.
Proof.
  unfold BigNumber.round_half_up.
  pose proof (ten_power_pos dp) as Hs.
  set (s := 10 ^ dp) in *.
  pose proof (floor_half_near (Qabs q * s)) as Hn.
  set (m := inject_Z (Qfloor (Qabs q * s + (1 # 2)))) in *.
  apply Qabs_Qle_condition in Hn. destruct Hn as [Hn1 Hn2].
  assert (Hms : m / s * s == m) by (field; lra).
  assert (Hlo : Qabs q - (1 # 2) / s <= m / s).
  { apply Qle_shift_div_l; [assumption|].
    assert (E : (Qabs q - (1 # 2) / s) * s == Qabs q * s - (1 # 2))
      by (field; lra).
    rewrite E. lra. }
  assert (Hhi : m / s <= Qabs q + (1 # 2) / s).
  { apply Qle_shift_div_r; [assumption|].
    assert (E : (Qabs q + (1 # 2) / s) * s == Qabs q * s + (1 # 2))
      by (field; lra).
    rewrite E. lra. }
  destruct (JS.Qneg q) eqn:E.
  - apply Qneg_true in E.
    assert (Ha : Qabs q == - q) by (apply Qabs_neg; lra).
    rewrite Ha in Hlo, Hhi.
    apply Qabs_Qle_condition. split; lra.
  - apply Qneg_false in E.
    assert (Ha : Qabs q == q) by (apply Qabs_pos; assumption).
    rewrite Ha in Hlo, Hhi.
    apply Qabs_Qle_condition. split; lra.
Qed.

(** ROUND_DOWN of a non-negative value is its floor. *)
Lemma round_down_nonneg (q : Q) :
  0 <= q ->
  BigNumber.round_down q = Qfloor q /\
  inject_Z (Qfloor q) <= q < inject_Z (Qfloor q) + 1.
Proof.
  intros Hq. unfold BigNumber.round_down.
  assert (E : JS.Qneg q = false).
  { unfold JS.Qneg. apply negb_false_iff. now apply Qle_bool_iff. }
  rewrite E. split; [reflexivity|]. split.
  - apply Qfloor_le.
  - pose proof (Qlt_floor q) as H. rewrite inject_Z_plus in H.
    change (inject_Z 1) with 1 in H. exact H.
Qed.

Lemma same_refl (x : BigNumber) : BigNumber.same x x.
Proof. destruct x; simpl; auto. reflexivity. Qed.

(** The three exact operations on finite values. *)
Lemma times_finite (a b : Q) : BN a *! BN b = BN (Qred (a * b)).
Proof. reflexivity. Qed.

Lemma plus_finite (a b : Q) : BN a +! BN b = BN (Qred (a + b)).
Proof. reflexivity. Qed.

Lemma minus_finite (a b : Q) : BN a -! BN b = BN (Qred (a + - b)).
Proof. reflexivity. Qed.

(** A finite quotient with a non-zero divisor, times one hundred. *)
Lemma percentage_finite (p c : Q) :
  ~ c == 0 ->
  exists d,
    Strategy.percentage (BN p) (BN c) = BN d /\
    d == BigNumber.round_half_up BigNumber.DECIMAL_PLACES (p / c) * 100 /\
    Qabs (d - p / c * 100) <= 5 / 10 ^ 19.
Proof.
  intros Hc. apply is_zero_false in Hc.
  unfold Strategy.percentage, BigNumber.dividedBy, BigNumber.div.
  rewrite Hc. rewrite times_finite.
  eexists. split; [reflexivity|].
  assert (Hd : Qred (Qred (BigNumber.round_half_up BigNumber.DECIMAL_PLACES (p / c)) * 100)
               == BigNumber.round_half_up BigNumber.DECIMAL_PLACES (p / c) * 100).
  { rewrite !Qred_correct. reflexivity. }
  split; [exact Hd|].
  rewrite Hd.
  pose proof (round_half_up_error BigNumber.DECIMAL_PLACES (p / c)) as He.
  apply Qabs_Qle_condition in He. destruct He as [He1 He2].
  set (r := BigNumber.round_half_up BigNumber.DECIMAL_PLACES (p / c)) in *.
  set (x := p / c) in *.
  assert (E1 : (1 # 2) / 10 ^ BigNumber.DECIMAL_PLACES * 100 == 5 / 10 ^ 19)
    by reflexivity.
  apply Qabs_Qle_condition. split; lra.
Qed.








End DecimalFacts.

(* ===================================================================== *)
(** ** The spread calculator *)
(* ===================================================================== *)

Section SpreadCalculator.
Local Open Scope Q_scope.

(** The cost and proceeds fields of a spread result are those of the
    formula, whatever the gas cost is read as. *)
Lemma calculateSpread_costs (now : Z) (buyPrice sellPrice : Q)
    (options : Strategy.SpreadOptions) :
  exists r tbc tsp raw,
    Strategy.calculateSpread now (BN buyPrice) (BN sellPrice) options = Normal r /\
    Strategy.totalBuyCost r = BN tbc /\
    Strategy.totalSellProceeds r = BN tsp /\
    Strategy.rawProfit r = BN raw /\
    Strategy.profitAfterGas r = BN raw -! gasCost_of options /\
    Strategy.gasCost r = gasCost_of options /\
    Strategy.profitPercentage r =
      BigNumber.toNumber
        (Strategy.percentage (Strategy.profitAfterGas r) (BN tbc)) /\
    Strategy.timestamp r = now /\
    tbc == Spec.totalBuyCost buyPrice (buyFee_of options) (tradeSize_of options) /\
    tsp == Spec.totalSellProceeds sellPrice (sellFee_of options) (tradeSize_of options) /\
    raw == Spec.rawProfit buyPrice sellPrice (buyFee_of options)
             (sellFee_of options) (tradeSize_of options).
Proof.
  cbv beta zeta delta [Strategy.calculateSpread].
  fold (buyFee_of options) (sellFee_of options) (gasCost_of options)
    (tradeSize_of options).
  repeat rewrite ?times_finite, ?plus_finite, ?minus_finite.
  do 4 eexists.
  split; [reflexivity|]. cbn [Strategy.totalBuyCost Strategy.totalSellProceeds
    Strategy.rawProfit Strategy.profitAfterGas Strategy.gasCost
    Strategy.profitPercentage Strategy.timestamp].
  repeat (split; [reflexivity|]).
  unfold Spec.rawProfit, Spec.totalSellProceeds,
    Spec.totalBuyCost, Spec.sellFee, Spec.sellProceeds, Spec.buyFee,
    Spec.buyCost, buyFee_of, sellFee_of, tradeSize_of.
  repeat split; rewrite !Qred_correct; ring.
Qed.

(** The decimal fields of a spread result are those of the formula, when
    the gas cost is a number. *)
Lemma calculateSpread_fields (now : Z) (buyPrice sellPrice : Q)
    (options : Strategy.SpreadOptions) (gas : Q) :
  gasCost_of options = BN gas ->
  exists r tbc tsp raw pag,
    Strategy.calculateSpread now (BN buyPrice) (BN sellPrice) options = Normal r /\
    Strategy.totalBuyCost r = BN tbc /\
    Strategy.totalSellProceeds r = BN tsp /\
    Strategy.rawProfit r = BN raw /\
    Strategy.profitAfterGas r = BN pag /\
    Strategy.gasCost r = BN gas /\
    Strategy.profitPercentage r =
      BigNumber.toNumber (Strategy.percentage (BN pag) (BN tbc)) /\
    Strategy.timestamp r = now /\
    tbc == Spec.totalBuyCost buyPrice (buyFee_of options) (tradeSize_of options) /\
    tsp == Spec.totalSellProceeds sellPrice (sellFee_of options) (tradeSize_of options) /\
    raw == Spec.rawProfit buyPrice sellPrice (buyFee_of options)
             (sellFee_of options) (tradeSize_of options) /\
    pag == Spec.profitAfterGas buyPrice sellPrice (buyFee_of options)
             (sellFee_of options) gas (tradeSize_of options).
Proof.
  intros Hgas.
  destruct (calculateSpread_costs now buyPrice sellPrice options)
    as (r & tbc & tsp & raw & Hr & Htbc & Htsp & Hraw & Hpag & Hg & Hpp & Hts
        & Etbc & Etsp & Eraw).
  rewrite Hgas in Hpag, Hg. rewrite minus_finite in Hpag.
  exists r, tbc, tsp, raw, (Qred (raw + - gas)).
  rewrite Hpag in Hpp.
  repeat (split; [assumption|]).
  unfold Spec.profitAfterGas. rewrite Qred_correct, Eraw. ring.
Qed.

(** The total buy cost of [calculateProfit] on finite prices. *)
Lemma costToBuy_finite (f : Fees) (direction : string) (buyPrice sellPrice : Q) :
  exists c,
    Service.costToBuy f direction (BN buyPrice) (BN sellPrice) = BN c /\
    c == buyPrice + (if String.eqb direction "dexToCex"
                     then uniswap_fee f else binance_taker f).
Proof.
  unfold Service.costToBuy, Service.dexFee, Service.binanceFee,
    Service.tradeAmount.
  destruct (String.eqb direction "dexToCex");
    repeat rewrite ?times_finite, ?plus_finite;
    eexists; (split; [reflexivity|]); rewrite !Qred_correct; ring.
Qed.

(** The locals of [calculateProfit] on finite prices, for a network whose
    gas cost is a number. *)
Lemma calculateProfit_fields (f : Fees) (now : Z)
    (direction network baseToken : string) (quoteToken : option string)
    (buyPrice sellPrice gas : Q) :
  Service.gasCost f network = BN gas ->
  exists o c p,
    Service.calculateProfit f now direction network baseToken quoteToken
      (BN buyPrice) (BN sellPrice) = Normal o /\
    Service.costToBuy f direction (BN buyPrice) (BN sellPrice) = BN c /\
    Opportunity.estimatedProfit o = BN p /\
    Opportunity.profitPercentage o =
      BigNumber.toNumber (Strategy.percentage (BN p) (BN c)) /\
    Opportunity.timestamp o = now /\
    c == buyPrice + (if String.eqb direction "dexToCex"
                     then uniswap_fee f else binance_taker f) /\
    p == sellPrice
         - (if String.eqb direction "dexToCex"
            then sellPrice * binance_taker f else sellPrice * uniswap_fee f)
         - c - gas.
Proof.
  intros Hgas.
  unfold Service.calculateProfit, Service.profit. rewrite Hgas.
  unfold Service.costToBuy, Service.revenueFromSell, Service.dexFee,
    Service.binanceFee, Service.tradeAmount.
  destruct (String.eqb direction "dexToCex");
    repeat rewrite ?times_finite, ?plus_finite, ?minus_finite;
    do 3 eexists;
    (split; [reflexivity|]); (split; [reflexivity|]);
    cbn [Opportunity.estimatedProfit Opportunity.profitPercentage
         Opportunity.timestamp];
    repeat (split; [reflexivity|]);
    split; rewrite !Qred_correct; ring.
Qed.

Lemma gas_or_default_cases (table : gmap string Q) (network : string) :
  gas_or_default table network = BN_NaN \/
  exists gas, gas_or_default table network = BN gas.
Proof.
  unfold gas_or_default, get_property.
  destruct (table !! network) as [g|]; [right; eauto|].
  destruct (is_prototype_name network); [now left | right; eauto].
Qed.


(** C5 (amended): on finite prices and a gas cost that is a number, the
    money-valued fields of a spread result are exact decimals, equal to
    the values of the formula.  When the total buy cost is not zero, the
    percentage is the quotient profitAfterGas / totalBuyCost rounded
    half-up to 20 decimal places and multiplied by 100, hence within
    5e-19 of the exact value, and the [profitPercentage] field is the
    double nearest to that decimal, converted inside the calculator,
    before any comparison reads it.  [calculateProfit] rounds and
    converts its percentage in the same way. *)
Theorem calculateSpread_decimal_fields_and_rounded_percentage
    (now : Z) (buyPrice sellPrice gas gas' : Q)
    (options : Strategy.SpreadOptions)
    (f : Fees) (direction network baseToken : string)
    (quoteToken : option string) :
  gasCost_of options = BN gas ->
  Service.gasCost f network = BN gas' ->
  (exists r tbc pag,
     Strategy.calculateSpread now (BN buyPrice) (BN sellPrice) options = Normal r /\
     Strategy.totalBuyCost r = BN tbc /\
     tbc == Spec.totalBuyCost buyPrice (buyFee_of options) (tradeSize_of options) /\
     BigNumber.same (Strategy.totalSellProceeds r)
       (BN (Spec.totalSellProceeds sellPrice (sellFee_of options)
              (tradeSize_of options))) /\
     BigNumber.same (Strategy.rawProfit r)
       (BN (Spec.rawProfit buyPrice sellPrice (buyFee_of options)
              (sellFee_of options) (tradeSize_of options))) /\
     Strategy.profitAfterGas r = BN pag /\
     pag == Spec.profitAfterGas buyPrice sellPrice (buyFee_of options)
              (sellFee_of options) gas (tradeSize_of options) /\
     Strategy.profitPercentage r
       = BigNumber.toNumber (Strategy.percentage (BN pag) (BN tbc)) /\
     (~ tbc == 0 ->
      exists d,
        Strategy.percentage (Strategy.profitAfterGas r) (Strategy.totalBuyCost r)
          = BN d /\
        d == BigNumber.round_half_up 20 (pag / tbc) * 100 /\
        Qabs (d - Spec.profitPercentage buyPrice sellPrice (buyFee_of options)
                    (sellFee_of options) gas (tradeSize_of options))
          <= 5 / 10 ^ 19 /\
        Strategy.profitPercentage r = JS.to_double d)) /\
  (exists o c p,
     Service.calculateProfit f now direction network baseToken quoteToken
       (BN buyPrice) (BN sellPrice) = Normal o /\
     Service.costToBuy f direction (BN buyPrice) (BN sellPrice) = BN c /\
     Opportunity.estimatedProfit o = BN p /\
     (~ c == 0 ->
      exists d,
        Strategy.percentage (BN p) (BN c) = BN d /\
        d == BigNumber.round_half_up 20 (p / c) * 100 /\
        Qabs (d - p / c * 100) <= 5 / 10 ^ 19 /\
        Opportunity.profitPercentage o = JS.to_double d)).
Proof.
  intros Hgas Hgas'. split.
  - destruct (calculateSpread_fields now buyPrice sellPrice options gas Hgas)
      as (r & tbc & tsp & raw & pag & Hr & Htbc & Htsp & Hraw & Hpag & _ & Hpp
          & _ & Etbc & Etsp & Eraw & Epag).
    exists r, tbc, pag.
    rewrite Htbc, Htsp, Hraw, Hpag, Hpp. cbn [BigNumber.same].
    repeat (split; [assumption || reflexivity|]).
    intros Hc.
    destruct (percentage_finite pag tbc Hc) as (d & Hd & Hround & Herr).
    exists d. rewrite Hd. cbn [BigNumber.toNumber].
    split; [reflexivity|]. split; [exact Hround|]. split; [|reflexivity].
    unfold Spec.profitPercentage. rewrite <- Epag, <- Etbc. exact Herr.
  - destruct (calculateProfit_fields f now direction network baseToken
                quoteToken buyPrice sellPrice gas' Hgas')
      as (o & c & p & Ho & Hc & Hp & Hpp & _).
    exists o, c, p. repeat (split; [assumption|]).
    intros Hnz.
    destruct (percentage_finite p c Hnz) as (d & Hd & Hround & Herr).
    exists d. rewrite Hpp, Hd. cbn [BigNumber.toNumber].
    repeat (split; [assumption || reflexivity|]). reflexivity.
Qed.

Lemma calculateSpread_decimal_fields_and_rounded_percentage_witness :
  exists r d,
    Strategy.calculateSpread 0 (BN 100) (BN 102) (rates 0.001 0.003 0.1) = Normal r /\
    Strategy.percentage (Strategy.profitAfterGas r) (Strategy.totalBuyCost r)
      = BN d /\
    Qabs (d - Spec.profitPercentage 100 102 0.001 0.003 0.1 1) <= 5 / 10 ^ 19 /\
    Strategy.profitPercentage r = JS.to_double d.
Proof.
  assert (G : Service.gasCost service_fees "optimism" = BN (1 # 10))
    by (vm_compute; reflexivity).
  destruct (calculateSpread_decimal_fields_and_rounded_percentage
              0 100 102 0.1 (1 # 10) (rates 0.001 0.003 0.1) service_fees
              "cexToDex" "optimism" "WBTC" (Some "USDT") eq_refl G)
    as ((r & tbc & pag & Hr & Htbc & Etbc & _ & _ & _ & _ & _ & Hd) & _).
  destruct Hd as (d & Hd & _ & Herr & Hpp).
  - rewrite Etbc. vm_compute. discriminate.
  - exists r, d. repeat split; assumption.
Defined.

(** C5, as claimed, fails: with buy price 1, sell price
    1.00500000000000000001 and no fees or gas, the exact percentage
    (rawProfit - gasCost) / totalBuyCost * 100 is 0.500000000000000001,
    yet the field [profitPercentage] is the double 0.5, so a comparison
    with the threshold 0.5 sees no excess. *)
Lemma profitPercentage_is_rounded_before_comparison :
  exists r,
    Strategy.calculateSpread 0 (BN 1) (BN 1.00500000000000000001)
      (rates 0 0 0) = Normal r /\
    Spec.profitPercentage 1 1.00500000000000000001 0 0 0 1
      == 0.500000000000000001 /\
    Strategy.profitPercentage r = Num (1 # 2) /\
    ~ 0.5 == Spec.profitPercentage 1 1.00500000000000000001 0 0 0 1 /\
    JS.gt (Num (Spec.profitPercentage 1 1.00500000000000000001 0 0 0 1))
          (Num 0.5) = true /\
    JS.gt (Strategy.profitPercentage r) (Num 0.5) = false.
Proof.
  eexists. split; [reflexivity|].
  split; [vm_compute; reflexivity|].
  split; [vm_compute; reflexivity|].
  split; [vm_compute; discriminate|].
  split; vm_compute; reflexivity.
Qed.












(** C1: [calculateSpread] follows the algorithm, with the buy fee taken on
    the buy cost; [calculateProfit] charges the buy fee on the trade amount
    alone, so that its total buy cost is the buy price plus the bare fee
    rate.  Buying at 100 and selling at 102 on optimism (taker fee 0.1
    percent, pool fee 0.3 percent, gas 0.1), the formula asks for a buy fee
    of 0.1, a total buy cost of 100.1 and a profit after gas of 1.494; the
    code takes a fee of 0.001, pays 100.001, reports 1.593, and its
    percentage is more than 0.1 above the formula's. *)
Theorem calculateProfit_buy_fee_ignores_the_buy_price :
  (forall (now : Z) (buyPrice sellPrice : Q) (options : Strategy.SpreadOptions),
     exists r tbc tsp,
       Strategy.calculateSpread now (BN buyPrice) (BN sellPrice) options
         = Normal r /\
       Strategy.totalBuyCost r = BN tbc /\
       Strategy.totalSellProceeds r = BN tsp /\
       tbc == Spec.buyCost buyPrice (tradeSize_of options)
              + Spec.buyCost buyPrice (tradeSize_of options) * buyFee_of options /\
       tsp == Spec.sellProceeds sellPrice (tradeSize_of options)
              - Spec.sellProceeds sellPrice (tradeSize_of options)
                * sellFee_of options) /\
  (forall (f : Fees) (direction : string) (buyPrice sellPrice : Q),
     exists c,
       Service.costToBuy f direction (BN buyPrice) (BN sellPrice) = BN c /\
       c == buyPrice + (if String.eqb direction "dexToCex"
                        then uniswap_fee f else binance_taker f)) /\
  Spec.buyFee 100 0.001 1 == 0.1 /\
  Spec.totalBuyCost 100 0.001 1 == 100.1 /\
  Spec.profitAfterGas 100 102 0.001 0.003 0.1 1 == 1.494 /\
  Service.binanceFee service_fees "cexToDex" (BN 102) = BN 0.001 /\
  Service.costToBuy service_fees "cexToDex" (BN 100) (BN 102) = BN 100.001 /\
  exists o p,
    Service.calculateProfit service_fees 0 "cexToDex" "optimism" "WBTC"
      (Some "USDT") (BN 100) (BN 102) = Normal o /\
    Opportunity.estimatedProfit o = BN 1.593 /\
    Opportunity.profitPercentage o = Num p /\
    Spec.profitPercentage 100 102 0.001 0.003 0.1 1 + 0.1 < p.
Proof.
  split.
  { intros now buyPrice sellPrice options.
    destruct (calculateSpread_costs now buyPrice sellPrice options)
      as (r & tbc & tsp & raw & Hr & Htbc & Htsp & _ & _ & _ & _ & _
          & Etbc & Etsp & _).
    exists r, tbc, tsp.
    split; [exact Hr|]. split; [exact Htbc|]. split; [exact Htsp|].
    split; [exact Etbc | exact Etsp]. }
  split.
  { intros f direction buyPrice sellPrice.
    exact (costToBuy_finite f direction buyPrice sellPrice). }
  split; [vm_compute; reflexivity|].
  split; [vm_compute; reflexivity|].
  split; [vm_compute; reflexivity|].
  split; [vm_compute; reflexivity|].
  split; [vm_compute; reflexivity|].
  do 2 eexists. split; [reflexivity|].
  split; [vm_compute; reflexivity|].
  split; [vm_compute; reflexivity|].
  vm_compute; reflexivity.
Qed.

End SpreadCalculator.

(* ===================================================================== *)
(** ** Quantity normalization *)
(* ===================================================================== *)

Section NormalizeQuantity.
Local Open Scope Q_scope.

Lemma normalizeQuantity_inherited (symbols : gmap string SymbolInfo)
    (symbol : string) (quantity : BigNumber) :
  Binance.symbol_property symbols symbol = Inherited ->
  Binance.normalizeQuantity symbols symbol quantity = Normal BN_NaN.
Proof.
  intros H. unfold Binance.normalizeQuantity. rewrite H.
  destruct quantity; reflexivity.
Qed.

Lemma normalizeQuantity_absent (symbols : gmap string SymbolInfo)
    (symbol : string) (quantity : BigNumber) :
  Binance.symbol_property symbols symbol = Absent ->
  Binance.normalizeQuantity symbols symbol quantity
    = Throw (String.append "Symbol info not found for " symbol).
Proof. intros H. unfold Binance.normalizeQuantity. now rewrite H. Qed.

Lemma normalizeQuantity_own (symbols : gmap string SymbolInfo)
    (symbol : string) (info : SymbolInfo) (quantity : BigNumber) :
  symbols !! symbol = Some info ->
  Binance.normalizeQuantity symbols symbol quantity
    = Normal (BigNumber.dividedToIntegerBy quantity (stepSize info)
              *! stepSize info).
Proof.
  intros H. unfold Binance.normalizeQuantity, Binance.symbol_property.
  now rewrite H.
Qed.

(** C10 (amended): for a loaded symbol whose step size is a positive
    decimal and a positive quantity, [normalizeQuantity] returns
    floor(quantity / stepSize) steps: an integer multiple of the step
    size, at most the quantity and less than one step below it.  It
    throws 'Symbol info not found for ...' exactly for the names under
    which [this.symbolInfo] finds nothing: a symbol that is not loaded
    and that the object does not inherit.  For a name that is not loaded
    but inherited ('constructor', 'toString', '__proto__', ...) it
    returns NaN. *)
Theorem normalizeQuantity_rounds_down_to_step
    (symbols : gmap string SymbolInfo) (symbol : string) (quantity : Q) :
  (forall info step,
     symbols !! symbol = Some info ->
     stepSize info = BN step ->
     0 < step -> 0 < quantity ->
     exists r,
       Binance.normalizeQuantity symbols symbol (BN quantity) = Normal (BN r) /\
       r == inject_Z (Qfloor (quantity / step)) * step /\
       (0 <= Qfloor (quantity / step))%Z /\
       r <= quantity /\
       quantity - r < step) /\
  (symbols !! symbol = None ->
   (is_prototype_name symbol = true ->
    Binance.normalizeQuantity symbols symbol (BN quantity) = Normal BN_NaN) /\
   (is_prototype_name symbol = false -> symbols !! "__proto__" = None ->
    Binance.normalizeQuantity symbols symbol (BN quantity)
      = Throw (String.append "Symbol info not found for " symbol))) /\
  (threw (Binance.normalizeQuantity symbols symbol (BN quantity)) = true <->
   Binance.symbol_property symbols symbol = Absent) /\
  (Binance.symbol_property symbols symbol = Inherited ->
   Binance.normalizeQuantity symbols symbol (BN quantity) = Normal BN_NaN).
Proof.
  split; [|split; [|split]].
  - intros info step Hinfo Hstep Hpos Hq.
    rewrite (normalizeQuantity_own _ _ _ _ Hinfo), Hstep.
    unfold BigNumber.dividedToIntegerBy, BigNumber.div.
    assert (Hnz : BigNumber.is_zero step = false)
      by (apply is_zero_false; lra).
    rewrite Hnz, times_finite.
    assert (Hdiv : 0 <= quantity / step).
    { apply Qle_shift_div_l; [assumption|]. lra. }
    destruct (round_down_nonneg _ Hdiv) as (Hrd & Hlo & Hhi).
    rewrite Hrd.
    set (n := inject_Z (Qfloor (quantity / step))) in *.
    assert (Hqs : quantity / step * step == quantity) by (field; lra).
    eexists. split; [reflexivity|].
    assert (Hr : Qred (Qred n * step) == n * step)
      by (rewrite !Qred_correct; reflexivity).
    split; [exact Hr|]. rewrite Hr.
    split; [|split].
    + change 0%Z with (Qfloor 0). apply Qfloor_resp_le. exact Hdiv.
    + rewrite <- Hqs. apply Qmult_le_compat_r; lra.
    + assert (H1 : quantity < (n + 1) * step).
      { rewrite <- Hqs at 1. apply Qmult_lt_compat_r; lra. }
      lra.
  - intros Hnone. split.
    + intros Hp. apply normalizeQuantity_inherited.
      unfold Binance.symbol_property. now rewrite Hnone, Hp.
    + intros Hp Hproto. apply normalizeQuantity_absent.
      unfold Binance.symbol_property. now rewrite Hnone, Hp, Hproto.
  - unfold Binance.normalizeQuantity.
    destruct (Binance.symbol_property symbols symbol) as [info | |];
      cbn [threw]; split; congruence.
  - apply normalizeQuantity_inherited.
Qed.

Lemma normalizeQuantity_rounds_down_to_step_witness :
  (exists r,
     Binance.normalizeQuantity {[ "WBTCUSDT" := info_with_step (BN 0.001) ]}
       "WBTCUSDT" (BN 1.2345) = Normal (BN r) /\
     r == inject_Z (Qfloor (1.2345 / 0.001)) * 0.001 /\
     (0 <= Qfloor (1.2345 / 0.001))%Z /\
     r <= 1.2345 /\ 1.2345 - r < 0.001) /\
  Binance.normalizeQuantity {[ "WBTCUSDT" := info_with_step (BN 0.001) ]}
    "LINKUSDT" (BN 1.2345) = Throw "Symbol info not found for LINKUSDT".
Proof.
  split.
  - apply (proj1 (normalizeQuantity_rounds_down_to_step
                    {[ "WBTCUSDT" := info_with_step (BN 0.001) ]}
                    "WBTCUSDT" 1.2345)
             (info_with_step (BN 0.001)) 0.001);
      [vm_compute; reflexivity | reflexivity | reflexivity | reflexivity].
  - pose proof (proj1 (proj2 (normalizeQuantity_rounds_down_to_step
                    {[ "WBTCUSDT" := info_with_step (BN 0.001) ]}
                    "LINKUSDT" 1.2345))) as H.
    destruct H as [_ H]; [vm_compute; reflexivity|].
    apply H; vm_compute; reflexivity.
Defined.

(** C10, as claimed, fails for a loaded symbol whose step size is zero:
    the quotient is infinite, its product with zero is NaN, and NaN is no
    multiple of the step size.  It also fails for a name the exchange
    never listed but every object inherits: for 'constructor' the call
    returns NaN where the claim has it throw. *)
Lemma normalizeQuantity_zero_step_gives_NaN :
  ({[ "WBTCUSDT" := info_with_step (BN 0) ]} : gmap string SymbolInfo)
    !! "WBTCUSDT" = Some (info_with_step (BN 0)) /\
  Binance.normalizeQuantity {[ "WBTCUSDT" := info_with_step (BN 0) ]}
    "WBTCUSDT" (BN 1) = Normal BN_NaN /\
  (~ exists r : Q,
      Binance.normalizeQuantity {[ "WBTCUSDT" := info_with_step (BN 0) ]}
        "WBTCUSDT" (BN 1) = Normal (BN r)) /\
  ({[ "WBTCUSDT" := info_with_step (BN 0.001) ]} : gmap string SymbolInfo)
    !! "constructor" = None /\
  Binance.normalizeQuantity {[ "WBTCUSDT" := info_with_step (BN 0.001) ]}
    "constructor" (BN 1) = Normal BN_NaN.
Proof.
  split; [vm_compute; reflexivity|].
  split; [vm_compute; reflexivity|].
  split; [intros [r Hr]; vm_compute in Hr; discriminate|].
  split; vm_compute; reflexivity.
Qed.

End NormalizeQuantity.

(* ===================================================================== *)
(** ** The adapter and the two releases of ethers *)
(* ===================================================================== *)

Section Adapter.

(** On either release the price query throws before anything is asked of
    the venue, and before the clock is read: release 5 has no
    [ethers.parseUnits], release 6 no [ethers.BigNumber]. *)
Lemma getPrice_throws (env : Env) (network baseToken : string)
    (quoteToken : option string) (w : World) :
  exists e,
    Uniswap.getPrice env network baseToken quoteToken w = (Throw e, w).
Proof.
  unfold Uniswap.getPrice, try_catch, bind, lift, ret, throw.
  destruct (uniswap_initialized env); [|eexists; reflexivity].
  destruct (Uniswap.getTokenAddress env network (Some baseToken));
    [|eexists; reflexivity].
  destruct (Uniswap.getTokenAddress env network quoteToken);
    [|eexists; reflexivity].
  unfold Uniswap.ethers_parseUnits, Uniswap.ethers_BigNumber_from.
  destruct (ethers env); [eexists; reflexivity|].
  destruct (Uniswap.parseUnits _ _); eexists; reflexivity.
Qed.

(** So does the trade, after at most one look at the clock. *)
Lemma executeTrade_throws (env : Env) (network action baseToken : string)
    (quoteToken : option string) (amount : BigNumber) (slippage : number)
    (w : World) :
  exists e w',
    Uniswap.executeTrade env network action baseToken quoteToken amount
      slippage w = (Throw e, w') /\
    (w' = w \/ w' = set_reads (S (reads w)) w).
Proof.
  unfold Uniswap.executeTrade, try_catch, bind, lift, ret, throw, date_now.
  destruct (uniswap_initialized env); [|do 2 eexists; split; [reflexivity | now left]].
  destruct (Uniswap.getTokenAddress env network (Some baseToken));
    [|do 2 eexists; split; [reflexivity | now left]].
  destruct (Uniswap.getTokenAddress env network quoteToken);
    [|do 2 eexists; split; [reflexivity | now left]].
  unfold Uniswap.ethers_BigNumber_from, Uniswap.swap_exact_input,
    Uniswap.ethers_parseUnits, bind, lift.
  destruct (ethers env);
    [|do 2 eexists; split; [reflexivity | now right]].
  destruct (String.eqb action "buy");
    [do 2 eexists; split; [reflexivity | now right]|].
  destruct (String.eqb action "sell");
    do 2 eexists; (split; [reflexivity | now right]).
Qed.

Lemma executeTrade_trace (env : Env) (network action baseToken : string)
    (quoteToken : option string) (amount : BigNumber) (slippage : number)
    (w : World) :
  exists e w',
    Uniswap.executeTrade env network action baseToken quoteToken amount
      slippage w = (Throw e, w') /\
    trace w' = trace w /\ cacheData w' = cacheData w /\
    ledger w' = ledger w /\ scanning w' = scanning w /\
    computed w' = computed w.
Proof.
  destruct (executeTrade_throws env network action baseToken quoteToken
              amount slippage w) as (e & w' & H & [-> | ->]);
    exists e; eexists; (split; [exact H|]); repeat split.
Qed.

End Adapter.

(* ===================================================================== *)
(** ** The decentralized price lookup *)
(* ===================================================================== *)

Section PriceLookup.

Lemma cache_get_hit (w : World) (key : string) (v : BigNumber) :
  cache_hit w key v ->
  Service.cache_get key w = (Normal (Some v), w) \/
  Service.cache_get key w = (Normal (Some v), set_reads (S (reads w)) w).
Proof.
  intros (e & He & Hv & Ht). unfold Service.cache_get. rewrite He, Hv.
  destruct (ce_t e =? 0)%Z eqn:E0; [now left|]. right.
  destruct Ht as [Ht | Ht]; [rewrite Ht in E0; discriminate|].
  apply Z.ltb_ge in Ht. now rewrite Ht.
Qed.

Lemma cache_get_miss (w : World) (key : string) :
  cache_miss w key ->
  fst (Service.cache_get key w) = Normal None /\
  trace (snd (Service.cache_get key w)) = trace w /\
  cacheData (snd (Service.cache_get key w)) = delete key (cacheData w).
Proof.
  intros [Hnone | (e & He & Hnz & Hlt)]; unfold Service.cache_get.
  - rewrite Hnone. cbn. now rewrite (delete_id _ _ Hnone).
  - rewrite He. apply Z.eqb_neq in Hnz. apply Z.ltb_lt in Hlt.
    rewrite Hnz, Hlt. cbn. auto.
Qed.

(** A lookup that finds no live entry answers null and stores nothing. *)
Lemma getDexPrice_miss (env : Env) (network baseToken : string)
    (quoteToken : option string) (w : World) :
  cache_miss w (Service.cacheKey network baseToken quoteToken) ->
  Service.getDexPrice env network baseToken quoteToken w
    = (Normal None,
       snd (Service.cache_get (Service.cacheKey network baseToken quoteToken) w)).
Proof.
  intros Hmiss. destruct (cache_get_miss _ _ Hmiss) as (Hget & _).
  unfold Service.getDexPrice, try_catch, bind.
  destruct (Service.cache_get _ w) as [c w1] eqn:Ec.
  cbn in Hget. subst c.
  destruct (getPrice_throws env network baseToken quoteToken w1) as (e & He).
  rewrite He. reflexivity.
Qed.



End PriceLookup.

(* ===================================================================== *)
(** ** Order on numbers and the stable sort *)
(* ===================================================================== *)

Section NumberOrder.
Local Open Scope Q_scope.

Lemma gt_Num_true (x y : Q) : JS.gt (Num x) (Num y) = true <-> y < x.
Proof.
  cbn. rewrite negb_true_iff. split.
  - intros H. apply Qnot_le_lt. intros Hle.
    apply Qle_bool_iff in Hle. congruence.
  - intros H. destruct (Qle_bool x y) eqn:E; [|reflexivity].
    apply Qle_bool_iff in E. lra.
Qed.

Lemma gt_Num_false (x y : Q) : JS.gt (Num x) (Num y) = false <-> x <= y.
Proof.
  cbn. rewrite negb_false_iff. apply Qle_bool_iff.
Qed.

(** Settle the cases where an operand is NaN or an infinity. *)
Ltac by_cases :=
  try (repeat match goal with n : bool |- _ => destruct n end;
       cbn; intros; congruence).

(** The comparator's sign test is the comparison of the two keys. *)
Lemma sub_gt_zero (a b : number) :
  JS.gt (JS.sub b a) (Num 0) = JS.gt b a.
Proof.
  destruct a as [| na | x], b as [| nb | y]; by_cases.
  cbn [JS.sub]. apply eq_true_iff_eq.
  rewrite !gt_Num_true. split; intros; lra.
Qed.

Lemma gt_asym (a b : number) : JS.gt a b = true -> JS.gt b a = false.
Proof.
  destruct a as [| na | x], b as [| nb | y]; by_cases.
  rewrite gt_Num_true, gt_Num_false. intros; lra.
Qed.

(** On numbers other than NaN, "not greater" is transitive. *)
Lemma not_gt_trans (a b c : number) :
  b <> NaN -> JS.gt b a = false -> JS.gt c b = false -> JS.gt c a = false.
Proof.
  destruct a as [| na | x], b as [| nb | y], c as [| nc | z]; by_cases.
  rewrite !gt_Num_false. intros; lra.
Qed.

(** Two keys equal to a third are not ordered. *)
Lemma eqb_not_gt (a b k : number) :
  JS.eqb a k = true -> JS.eqb b k = true -> JS.gt b a = false.
Proof.
  destruct a as [| na | x], b as [| nb | y], k as [| nk | z]; by_cases.
  rewrite gt_Num_false. cbn [JS.eqb].
  intros Hx Hy. apply Qeq_bool_iff in Hx, Hy. lra.
Qed.

Lemma gt_not_nan (a b : number) : JS.gt a b = true -> a <> NaN.
Proof. destruct a; cbn; congruence. Qed.

End NumberOrder.

Section StableSort.
Context {A : Type} (key : A -> number).

Lemma sort_insert_cons (x y : A) (l : list A) :
  sort_insert (descending key) x (y :: l) =
    if JS.gt (key y) (key x) then y :: sort_insert (descending key) x l
    else x :: y :: l.
Proof. cbn [sort_insert]. unfold descending. now rewrite sub_gt_zero. Qed.

Lemma sort_insert_perm (x : A) (l : list A) :
  Permutation (sort_insert (descending key) x l) (x :: l).
Proof.
  induction l as [| y l IH]; [reflexivity|].
  rewrite sort_insert_cons. destruct (JS.gt (key y) (key x)); [|reflexivity].
  rewrite IH. apply perm_swap.
Qed.

Lemma array_sort_perm (l : list A) :
  Permutation (array_sort (descending key) l) l.
Proof.
  induction l as [| x l IH]; [reflexivity|].
  cbn [array_sort foldr]. fold (array_sort (descending key) l).
  rewrite sort_insert_perm. now apply perm_skip.
Qed.

Lemma sort_insert_sorted (x : A) (l : list A) :
  Forall (fun y => key y <> NaN) l ->
  StronglySorted (not_below key) l ->
  StronglySorted (not_below key) (sort_insert (descending key) x l).
Proof.
  intros Hnan Hs. induction Hs as [| y l Hs IH Hy].
  - repeat constructor.
  - rewrite sort_insert_cons.
    apply Forall_cons_iff in Hnan. destruct Hnan as [Hyn Hnan].
    destruct (JS.gt (key y) (key x)) eqn:E.
    + constructor; [now apply IH|].
      rewrite (sort_insert_perm x l). constructor; [|exact Hy].
      unfold not_below. now apply gt_asym.
    + constructor; [now constructor|].
      constructor; [exact E|].
      apply Forall_forall. intros z Hz.
      rewrite Forall_forall in Hy. specialize (Hy z Hz).
      unfold not_below in *. now apply (not_gt_trans _ (key y)).
Qed.

Lemma array_sort_sorted (l : list A) :
  Forall (fun y => key y <> NaN) l ->
  StronglySorted (not_below key) (array_sort (descending key) l).
Proof.
  induction l as [| x l IH]; intros Hnan; [constructor|].
  apply Forall_cons_iff in Hnan. destruct Hnan as [_ Hnan].
  cbn [array_sort foldr]. fold (array_sort (descending key) l).
  apply sort_insert_sorted; [|now apply IH].
  rewrite (array_sort_perm l). exact Hnan.
Qed.

Lemma sort_insert_stable (k : number) (x : A) (l : list A) :
  List.filter (same_key key k) (sort_insert (descending key) x l)
    = List.filter (same_key key k) (x :: l).
Proof.
  induction l as [| y l IH]; [reflexivity|].
  rewrite sort_insert_cons. destruct (JS.gt (key y) (key x)) eqn:E;
    [|reflexivity].
  cbn [List.filter] in *. rewrite IH.
  destruct (same_key key k y) eqn:Ey, (same_key key k x) eqn:Ex;
    try reflexivity.
  unfold same_key in *. rewrite (eqb_not_gt _ _ _ Ex Ey) in E. discriminate.
Qed.

(** Entries with the same key leave the sort in the order they entered. *)
Lemma array_sort_stable (k : number) (l : list A) :
  List.filter (same_key key k) (array_sort (descending key) l)
    = List.filter (same_key key k) l.
Proof.
  induction l as [| x l IH]; [reflexivity|].
  cbn [array_sort foldr]. fold (array_sort (descending key) l).
  rewrite sort_insert_stable. cbn [List.filter]. now rewrite IH.
Qed.

End StableSort.

(* ===================================================================== *)
(** ** Relations every run preserves *)
(* ===================================================================== *)

Section MonadFacts.
Context {A B : Type}.

Lemma bind_normal (m : M A) (k : A -> M B) (w w1 : World) (a : A) :
  m w = (Normal a, w1) -> bind m k w = k a w1.
Proof. intros H. unfold bind. now rewrite H. Qed.

Lemma bind_throw (m : M A) (k : A -> M B) (w w1 : World) (e : string) :
  m w = (Throw e, w1) -> bind m k w = (Throw e, w1).
Proof. intros H. unfold bind. now rewrite H. Qed.

Lemma try_catch_normal (m : M A) (h : string -> M A) (w w1 : World) (a : A) :
  m w = (Normal a, w1) -> try_catch m h w = (Normal a, w1).
Proof. intros H. unfold try_catch. now rewrite H. Qed.

Lemma try_catch_throw (m : M A) (h : string -> M A) (w w1 : World) (e : string) :
  m w = (Throw e, w1) -> try_catch m h w = h e w1.
Proof. intros H. unfold try_catch. now rewrite H. Qed.
End MonadFacts.

Section WorldRelation.
Variable R : World -> World -> Prop.
Hypothesis R_refl : forall w, R w w.
Hypothesis R_trans : forall a b c, R a b -> R b c -> R a c.

Lemma respects_ret {A} (a : A) : respects R (ret a).
Proof. intros w. apply R_refl. Qed.

Lemma respects_throw {A} (e : string) : respects R (@throw A e).
Proof. intros w. apply R_refl. Qed.

Lemma respects_lift {A} (c : completion A) : respects R (lift c).
Proof. intros w. apply R_refl. Qed.

Lemma respects_get_trace : respects R get_trace.
Proof. intros w. apply R_refl. Qed.

Lemma respects_bind {A B} (m : M A) (k : A -> M B) :
  respects R m -> (forall a, respects R (k a)) -> respects R (bind m k).
Proof.
  intros Hm Hk w. unfold bind. specialize (Hm w).
  destruct (m w) as [[a | e] w1]; cbn in *; [|exact Hm].
  eapply R_trans; [exact Hm | apply Hk].
Qed.

Lemma respects_try_catch {A} (m : M A) (h : string -> M A) :
  respects R m -> (forall e, respects R (h e)) -> respects R (try_catch m h).
Proof.
  intros Hm Hh w. unfold try_catch. specialize (Hm w).
  destruct (m w) as [[a | e] w1]; cbn in *; [exact Hm|].
  eapply R_trans; [exact Hm | apply Hh].
Qed.

Variable allowed : Event -> Prop.
Hypothesis R_date_now : respects R date_now.
Hypothesis R_emit : forall e, allowed e -> respects R (emit e).

Ltac respects_step :=
  match goal with
  | |- respects _ (ret _) => apply respects_ret
  | |- respects _ (throw _) => apply respects_throw
  | |- respects _ (lift _) => apply respects_lift
  | |- respects _ get_trace => apply respects_get_trace
  | |- respects _ date_now => apply R_date_now
  | |- respects _ (bind _ _) => apply respects_bind; [| intros ?]
  | |- respects _ (try_catch _ _) => apply respects_try_catch; [| intros ?]
  | |- respects _ (if ?b then _ else _) => destruct b
  | |- respects _ (match ?x with _ => _ end) => destruct x
  end.

Lemma respects_perform {A} (e : Event) (answer : list Event -> completion A) :
  allowed e -> respects R (perform e answer).
Proof.
  intros He. unfold perform.
  apply respects_bind; [now apply R_emit|]. intros _. repeat respects_step.
Qed.

Section Dex.
Hypothesis allow_dex : forall e, dex_event e -> allowed e.

Ltac respects_dex :=
  repeat first
    [ respects_step
    | apply respects_perform; apply allow_dex; exact I ].

Lemma respects_quote_pools (env : Env) (network tokenIn tokenOut : string)
    (amountIn : Z) (pool_fees : list Z) (best : Z * Z) :
  respects R (Uniswap.quote_pools env network tokenIn tokenOut amountIn
                best pool_fees).
Proof.
  revert best. induction pool_fees as [| fee rest IH]; intros best; cbn.
  - respects_dex.
  - apply respects_bind; [|intros b; apply IH].
    unfold Uniswap.try_fee. respects_dex.
Qed.

Lemma respects_getPrice (env : Env) (network baseToken : string)
    (quoteToken : option string) :
  respects R (Uniswap.getPrice env network baseToken quoteToken).
Proof.
  unfold Uniswap.getPrice, Uniswap.quote_tokens.
  repeat first [ apply respects_quote_pools | respects_step ].
Qed.

Lemma respects_executeTrade (env : Env) (network action baseToken : string)
    (quoteToken : option string) (amount : BigNumber) (slippage : number) :
  respects R (Uniswap.executeTrade env network action baseToken quoteToken
                amount slippage).
Proof.
  unfold Uniswap.executeTrade, Uniswap.swap_exact_input,
    Uniswap.approve_and_swap, Uniswap.getGasPrice.
  repeat first
    [ apply respects_quote_pools
    | respects_step
    | apply respects_perform; apply allow_dex; exact I ].
Qed.
End Dex.

Section Cex.
Hypothesis allow_cex : forall e, cex_event e -> allowed e.

Lemma respects_executeBuy (env : Env) (symbol : string) (quantity : BigNumber) :
  respects R (Binance.executeBuy env symbol quantity).
Proof.
  unfold Binance.executeBuy.
  repeat first
    [ respects_step | apply respects_perform; apply allow_cex; exact I ].
Qed.

Lemma respects_executeSell (env : Env) (symbol : string) (quantity : BigNumber) :
  respects R (Binance.executeSell env symbol quantity).
Proof.
  unfold Binance.executeSell.
  repeat first
    [ respects_step | apply respects_perform; apply allow_cex; exact I ].
Qed.
End Cex.

Lemma respects_executeArbitrage (env : Env) (o : Opportunity.t) :
  (forall e, dex_event e -> allowed e) ->
  (forall e, cex_event e -> allowed e) ->
  respects R (Service.executeArbitrage env o).
Proof.
  intros Hdex Hcex.
  unfold Service.executeArbitrage, Service.leg1, Service.leg2.
  repeat first
    [ apply respects_executeTrade; exact Hdex
    | apply respects_executeBuy; exact Hcex
    | apply respects_executeSell; exact Hcex
    | respects_step ].
Qed.

Hypothesis R_cache_get : forall key, respects R (Service.cache_get key).
Hypothesis R_cache_data :
  forall c w, R w (set_cacheData c w).

Lemma respects_getDexPrice (env : Env) (network baseToken : string)
    (quoteToken : option string) :
  (forall e, dex_event e -> allowed e) ->
  respects R (Service.getDexPrice env network baseToken quoteToken).
Proof.
  intros Hdex. unfold Service.getDexPrice, Service.cache_set.
  repeat first
    [ apply respects_getPrice; exact Hdex
    | apply R_cache_get
    | respects_step
    | (intros w; apply R_cache_data) ].
Qed.

End WorldRelation.

(* ===================================================================== *)
(** ** The scan *)
(* ===================================================================== *)

Section Scan.

Lemma frame_refl (w : World) : frame w w.
Proof. repeat split. Qed.

Lemma frame_trans (a b c : World) : frame a b -> frame b c -> frame a c.
Proof.
  intros (H1 & H2 & H3) (H4 & H5 & H6). repeat split; congruence.
Qed.

Lemma frame_cache_get (key : string) : respects frame (Service.cache_get key).
Proof.
  intros w. unfold Service.cache_get.
  destruct (cacheData w !! key) as [e|]; [|apply frame_refl].
  destruct (ce_t e =? 0)%Z; [apply frame_refl|].
  destruct (ce_t e <? clock w (reads w))%Z; repeat split.
Qed.

(** The price lookup leaves the scan's array, the log and the ledger. *)
Lemma getDexPrice_frame (env : Env) (network baseToken : string)
    (quoteToken : option string) :
  respects frame (Service.getDexPrice env network baseToken quoteToken).
Proof.
  apply (respects_getDexPrice frame frame_refl frame_trans (fun _ => True)).
  - intros w. repeat split.
  - intros e _ w. repeat split.
  - exact frame_cache_get.
  - intros c w. repeat split.
  - trivial.
Qed.

Lemma getDexPrice_returns (env : Env) (network baseToken : string)
    (quoteToken : option string) (w : World) :
  exists p, fst (Service.getDexPrice env network baseToken quoteToken w)
            = Normal p.
Proof.
  unfold Service.getDexPrice, try_catch.
  match goal with |- context [match ?m w with _ => _ end] =>
    destruct (m w) as [[a | e] w'] end; eexists; reflexivity.
Qed.

Lemma getBestBid_eq (env : Env) (symbol : string) (w : World) :
  exists p, Binance.getBestBid env symbol w = (Normal p, w).
Proof. eexists. reflexivity. Qed.

Lemma getBestAsk_eq (env : Env) (symbol : string) (w : World) :
  exists p, Binance.getBestAsk env symbol w = (Normal p, w).
Proof. eexists. reflexivity. Qed.

Lemma compute_both_eq (env : Env) (network baseToken : string)
    (quoteToken : option string) (cexBid cexAsk dexPrice : BigNumber)
    (w : World) :
  exists d c w',
    Service.compute_both env network baseToken quoteToken cexBid cexAsk
      dexPrice w = (Normal (d, c), w') /\
    computed w' = computed w ++ [d; c] /\
    scanning w' = scanning w /\
    ledger w' = ledger w.
Proof.
  do 3 eexists. split; [reflexivity|]. cbn.
  rewrite <- app_assoc. repeat split.
Qed.

Lemma scan_step_skip : scan_step (ret tt).
Proof.
  intros w. exists []. cbn. rewrite !app_nil_r. repeat split.
Qed.

Lemma scan_step_bind (m k : M unit) :
  scan_step m -> scan_step k -> scan_step (bind m (fun _ => k)).
Proof.
  intros Hm Hk w. destruct (Hm w) as (n1 & Hr & Hc & Hs & Hl).
  destruct (m w) as [c w1] eqn:Em. cbn in Hr, Hc, Hs, Hl. subst c.
  destruct (Hk w1) as (n2 & Hr2 & Hc2 & Hs2 & Hl2).
  exists (n1 ++ n2). rewrite (bind_normal _ _ _ _ _ Em).
  rewrite Hr2, Hc2, Hs2, Hl2, Hc, Hs, Hl, List.filter_app, !app_assoc.
  repeat split.
Qed.

Lemma scan_step_try_catch (m : M unit) (h : string -> M unit) :
  scan_step m -> scan_step (try_catch m h).
Proof.
  intros Hm w. destruct (Hm w) as (n1 & Hr & Hc & Hs & Hl).
  destruct (m w) as [c w1] eqn:Em. cbn in Hr, Hc, Hs, Hl. subst c.
  exists n1. rewrite (try_catch_normal _ _ _ _ _ Em). repeat split; assumption.
Qed.

Lemma scan_network_step (env : Env) (baseToken : string)
    (quoteToken : option string) (binanceSymbol : string)
    (network : string * bool) :
  scan_step (Service.scan_network env baseToken quoteToken binanceSymbol
               network).
Proof.
  unfold Service.scan_network.
  destruct (negb (snd network)); [apply scan_step_skip|].
  intros w.
  destruct (getBestBid_eq env binanceSymbol w) as (bid & Hbid).
  rewrite (bind_normal _ _ _ _ _ Hbid).
  destruct (getBestAsk_eq env binanceSymbol w) as (ask & Hask).
  rewrite (bind_normal _ _ _ _ _ Hask).
  destruct bid as [cexBid|]; [|apply scan_step_skip].
  destruct ask as [cexAsk|]; [|apply scan_step_skip].
  pose proof (getDexPrice_frame env (fst network) baseToken quoteToken w)
    as (Fs & Fc & Fl).
  destruct (getDexPrice_returns env (fst network) baseToken quoteToken w)
    as (p & Hp).
  destruct (Service.getDexPrice env (fst network) baseToken quoteToken w)
    as [r w1] eqn:Edex.
  cbn in Hp, Fs, Fc, Fl. subst r.
  rewrite (bind_normal _ _ _ _ _ Edex).
  destruct p as [dexPrice|].
  - destruct (compute_both_eq env (fst network) baseToken quoteToken
                cexBid cexAsk dexPrice w1) as (d & c & w2 & Hboth & Hc & Hs & Hl).
    rewrite (bind_normal _ _ _ _ _ Hboth).
    exists [d; c]. cbn [fst snd].
    unfold Service.push_if, Service.push, bind, ret.
    fold (profitable d). fold (profitable c).
    cbn [List.filter].
    destruct (profitable d), (profitable c); cbn;
      rewrite ?Hc, ?Hs, ?Hl, ?Fs, ?Fc, ?Fl, <- ?app_assoc;
      repeat split; rewrite ?app_nil_r; reflexivity.
  - exists []. cbn. rewrite !app_nil_r. repeat split; assumption.
Qed.

Lemma scan_networks_step (env : Env) (baseToken : string)
    (quoteToken : option string) (binanceSymbol : string)
    (nets : list (string * bool)) :
  scan_step (Service.scan_networks env baseToken quoteToken binanceSymbol nets).
Proof.
  induction nets as [| n rest IH]; cbn.
  - apply scan_step_skip.
  - apply scan_step_bind; [apply scan_network_step | exact IH].
Qed.

Lemma scan_pairs_step (env : Env) (pairs : list string) :
  scan_step (Service.scan_pairs env pairs).
Proof.
  induction pairs as [| p rest IH]; cbn.
  - apply scan_step_skip.
  - apply scan_step_bind; [|exact IH].
    unfold Service.scan_pair. apply scan_step_try_catch.
    destruct (split_pair p). apply scan_networks_step.
Qed.

(** What a whole scan does: with [new] the results it computed, in the
    order of computation, it returns the profitable ones, sorted, and
    makes them the ledger. *)
Lemma findArbitrageOpportunities_eq (env : Env) (w : World) :
  exists new w',
    Service.findArbitrageOpportunities env w
      = (Normal (array_sort Service.compare (List.filter profitable new)), w') /\
    computed w' = computed w ++ new /\
    ledger w' = array_sort Service.compare (List.filter profitable new).
Proof.
  unfold Service.findArbitrageOpportunities.
  set (w0 := set_scanning [] w).
  destruct (scan_pairs_step env (tradingPairs (config env)) w0)
    as (new & Hr & Hc & Hs & _).
  destruct (Service.scan_pairs env (tradingPairs (config env)) w0)
    as [c w1] eqn:Escan.
  cbn in Hr, Hc, Hs. subst c.
  exists new. eexists. unfold bind at 1. cbn beta iota. fold w0.
  rewrite (bind_normal _ _ _ _ _ Escan). rewrite Hs. cbn [app].
  split; [reflexivity|]. cbn. split; [exact Hc|reflexivity].
Qed.

End Scan.

(* ===================================================================== *)
(** ** Retention, execution threshold and ranking *)
(* ===================================================================== *)

Section Ranking.

Lemma eqb_not_above (a b : number) : JS.eqb a b = true -> JS.gt a b = false.
Proof.
  destruct a as [| na | x], b as [| nb | y]; cbn; try congruence.
  - destruct na, nb; cbn; congruence.
  - intros H. apply Qeq_bool_iff in H. apply negb_false_iff.
    apply Qle_bool_iff. rewrite H. apply Qle_refl.
Qed.

Lemma execute_profitable_eq (env : Env) (l : list Opportunity.t) (w : World) :
  Service.execute_profitable env l w
    = execute_each env (List.filter (above_minimum (config env)) l) w.
Proof.
  revert w. induction l as [| opp rest IH]; intros w; [reflexivity|].
  cbn [Service.execute_profitable List.filter].
  unfold above_minimum at 1.
  destruct (JS.gt (Opportunity.profitPercentage opp)
              (minimumProfitPercentage (config env))).
  - cbn [execute_each]. unfold bind.
    destruct (Service.executeArbitrage env opp w) as [[b | e] w1];
      cbn; [apply IH | reflexivity].
  - unfold bind, ret. apply IH.
Qed.

(** C2 (amended): a scan returns, and stores in the ledger, exactly the
    computed results whose profitPercentage is strictly greater than 0;
    the minimum profit percentage is applied afterwards, by the loop, which
    executes exactly the returned entries whose profitPercentage is
    strictly greater than it, so an entry equal to the minimum is not
    executed. *)
Theorem scan_keeps_positive_loop_executes_above_minimum
    (env : Env) (w : World) :
  (exists new l w',
     Service.findArbitrageOpportunities env w = (Normal l, w') /\
     computed w' = computed w ++ new /\
     ledger w' = l /\
     forall o, In o l <->
               In o new /\ JS.gt (Opportunity.profitPercentage o) (Num 0) = true) /\
  (forall l w0,
     Service.execute_profitable env l w0
       = execute_each env (List.filter (above_minimum (config env)) l) w0) /\
  (forall o,
     JS.eqb (Opportunity.profitPercentage o)
            (minimumProfitPercentage (config env)) = true ->
     above_minimum (config env) o = false).
Proof.
  split; [|split].
  - destruct (findArbitrageOpportunities_eq env w) as (new & w' & Hr & Hc & Hl).
    exists new, (array_sort Service.compare (List.filter profitable new)), w'.
    repeat (split; [assumption|]).
    intros o.
    change Service.compare with (descending Opportunity.profitPercentage).
    rewrite (Permutation_in' (eq_refl o) (array_sort_perm _ _)).
    apply List.filter_In.
  - apply execute_profitable_eq.
  - intros o. apply eqb_not_above.
Qed.

Lemma scan_keeps_positive_loop_executes_above_minimum_witness :
  above_minimum (config (sample_env true (Normal 42%Z)))
    (sample_opportunity "cexToDex" 0.5 0) = false.
Proof.
  apply (proj2 (proj2 (scan_keeps_positive_loop_executes_above_minimum
                         (sample_env true (Normal 42%Z)) sample_world))).
  vm_compute. reflexivity.
Defined.

(** C2, as claimed, fails: with a minimum of 0.5 percent, a scan that
    finds the price 100.7 for WBTC-USDT on optimism in the service's
    cache (the one place a scan can have a decentralized price from)
    returns and stores a result of about 0.2969 percent. *)
Lemma scan_retains_result_below_minimum :
  fst (Service.findArbitrageOpportunities (sample_env true (Normal 42%Z))
         (cached_world (BN 100.7) 61000)) = Normal [sample_retained] /\
  ledger (snd (Service.findArbitrageOpportunities
                 (sample_env true (Normal 42%Z))
                 (cached_world (BN 100.7) 61000)))
    = [sample_retained] /\
  minimumProfitPercentage (config (sample_env true (Normal 42%Z))) = Num 0.5 /\
  JS.gt (Opportunity.profitPercentage sample_retained) (Num 0) = true /\
  JS.gt (Opportunity.profitPercentage sample_retained)
        (minimumProfitPercentage (config (sample_env true (Normal 42%Z))))
    = false.
Proof. repeat split; vm_compute; reflexivity. Qed.

Lemma profitable_not_nan (l : list Opportunity.t) :
  Forall (fun o => Opportunity.profitPercentage o <> NaN)
         (List.filter profitable l).
Proof.
  apply List.Forall_forall. intros o Ho. apply List.filter_In in Ho.
  destruct Ho as [_ Ho]. exact (gt_not_nan _ _ Ho).
Qed.

(** One price adds only results above the strategy's minimum. *)
Lemma evaluate_price_returns (this : Strategy.t) (bid ask dexPrice : BigNumber)
    (baseToken quoteToken : option string) (network : string) (w : World) :
  exists found w',
    Strategy.evaluate_price this bid ask dexPrice baseToken quoteToken
      network w = (Normal found, w') /\
    Forall (fun r => Strategy.profitPercentage r <> NaN) found.
Proof.
  do 2 eexists. split; [reflexivity|].
  apply Forall_app. split.
  - match goal with |- context [if ?b then _ else _] =>
      destruct b eqn:E end; repeat constructor.
    exact (gt_not_nan _ _ E).
  - match goal with |- context [if ?b then _ else _] =>
      destruct b eqn:E end; repeat constructor.
    exact (gt_not_nan _ _ E).
Qed.

(** So does one network. *)
Lemma evaluate_network_returns (this : Strategy.t) (bid ask : BigNumber)
    (dexPrices : gmap string BigNumber) (baseToken quoteToken : option string)
    (network : string) (w : World) :
  exists found w',
    Strategy.evaluate_network this bid ask dexPrices baseToken quoteToken
      network w = (Normal found, w') /\
    Forall (fun r => Strategy.profitPercentage r <> NaN) found.
Proof.
  unfold Strategy.evaluate_network.
  destruct (get_property dexPrices network) as [dexPrice | |].
  - apply evaluate_price_returns.
  - apply evaluate_price_returns.
  - do 2 eexists. split; [reflexivity|constructor].
Qed.

Lemma evaluate_networks_returns (this : Strategy.t) (bid ask : BigNumber)
    (dexPrices : gmap string BigNumber) (baseToken quoteToken : option string)
    (nets : list string) (w : World) :
  exists found w',
    Strategy.evaluate_networks this bid ask dexPrices baseToken quoteToken
      nets w = (Normal found, w') /\
    Forall (fun r => Strategy.profitPercentage r <> NaN) found.
Proof.
  revert w. induction nets as [| n rest IH]; intros w.
  - do 2 eexists. split; [reflexivity|constructor].
  - destruct (evaluate_network_returns this bid ask dexPrices baseToken
                quoteToken n w) as (f1 & w1 & H1 & F1).
    destruct (IH w1) as (f2 & w2 & H2 & F2).
    exists (f1 ++ f2), w2. split.
    + cbn [Strategy.evaluate_networks].
      rewrite (bind_normal _ _ _ _ _ H1), (bind_normal _ _ _ _ _ H2).
      reflexivity.
    + apply Forall_app. now split.
Qed.

(** C8: the list a scan returns is the list of retained results sorted by
    profitPercentage in descending order, and the sort is stable: the
    entries with any one profitPercentage appear in the order in which
    they were found.  The same holds for the strategy's
    [evaluateArbitrageOpportunities].  For the percentages 1.2, 3.4, 3.4,
    0.9 the two 3.4 entries come first, in their original order, then 1.2
    and 0.9. *)
Theorem opportunities_sorted_descending_and_stable
    (env : Env) (w : World) (this : Strategy.t)
    (cexPrices : option (BigNumber * BigNumber))
    (dexPricesByNetwork : option (gmap string BigNumber))
    (baseToken quoteToken : option string) :
  (exists new l w',
     Service.findArbitrageOpportunities env w = (Normal l, w') /\
     computed w' = computed w ++ new /\
     Permutation l (List.filter profitable new) /\
     StronglySorted (not_below Opportunity.profitPercentage) l /\
     forall k,
       List.filter (same_key Opportunity.profitPercentage k) l
       = List.filter (same_key Opportunity.profitPercentage k)
           (List.filter profitable new)) /\
  (exists l w',
     Strategy.evaluateArbitrageOpportunities this cexPrices
       dexPricesByNetwork baseToken quoteToken w = (Normal l, w') /\
     Permutation l
       (discovered this cexPrices dexPricesByNetwork baseToken quoteToken w) /\
     StronglySorted (not_below Strategy.profitPercentage) l /\
     forall k,
       List.filter (same_key Strategy.profitPercentage k) l
       = List.filter (same_key Strategy.profitPercentage k)
           (discovered this cexPrices dexPricesByNetwork baseToken
              quoteToken w)) /\
  array_sort Service.compare
    [sample_opportunity "cexToDex" 1.2 1; sample_opportunity "cexToDex" 3.4 2;
     sample_opportunity "cexToDex" 3.4 3; sample_opportunity "cexToDex" 0.9 4]
  = [sample_opportunity "cexToDex" 3.4 2; sample_opportunity "cexToDex" 3.4 3;
     sample_opportunity "cexToDex" 1.2 1; sample_opportunity "cexToDex" 0.9 4].
Proof.
  split; [|split].
  - destruct (findArbitrageOpportunities_eq env w) as (new & w' & Hr & Hc & _).
    exists new, (array_sort Service.compare (List.filter profitable new)), w'.
    change Service.compare with (descending Opportunity.profitPercentage).
    split; [exact Hr|]. split; [exact Hc|].
    split; [apply array_sort_perm|].
    split; [apply array_sort_sorted, profitable_not_nan|].
    intros k. apply array_sort_stable.
  - unfold Strategy.evaluateArbitrageOpportunities, discovered.
    change Strategy.compare with (descending Strategy.profitPercentage).
    destruct cexPrices as [[bid ask]|], dexPricesByNetwork as [dexPrices|];
      try (exists [], w; repeat split; constructor).
    destruct (evaluate_networks_returns this bid ask dexPrices baseToken
                quoteToken (Strategy.networkPriority this) w)
      as (found & w' & Hf & Hnan).
    rewrite (bind_normal _ _ _ _ _ Hf), Hf. cbn [fst].
    do 2 eexists. split; [reflexivity|].
    split; [apply array_sort_perm|].
    split; [now apply array_sort_sorted|].
    intros k. apply array_sort_stable.
  - vm_compute. reflexivity.
Qed.

End Ranking.

(* ===================================================================== *)
(** ** Execution of the two legs *)
(* ===================================================================== *)

Section Execution.

Lemma extends_refl (P : Event -> Prop) (w : World) : extends_trace P w w.
Proof. exists []. split; [now rewrite app_nil_r | constructor]. Qed.

Lemma extends_trans (P : Event -> Prop) (a b c : World) :
  extends_trace P a b -> extends_trace P b c -> extends_trace P a c.
Proof.
  intros (t1 & H1 & F1) (t2 & H2 & F2). exists (t1 ++ t2). split.
  - rewrite H2, H1. now rewrite app_assoc.
  - apply Forall_app. now split.
Qed.

Lemma extends_date_now (P : Event -> Prop) : respects (extends_trace P) date_now.
Proof. intros w. exists []. split; [cbn; now rewrite app_nil_r | constructor]. Qed.

Lemma extends_emit (P : Event -> Prop) (e : Event) :
  P e -> respects (extends_trace P) (emit e).
Proof. intros He w. exists [e]. split; [reflexivity | now repeat constructor]. Qed.

(** The second leg calls its own venue only. *)
Lemma leg2_calls_its_venue (env : Env) (o : Opportunity.t) :
  respects (extends_trace (leg2_event o)) (Service.leg2 env o).
Proof.
  unfold Service.leg2, leg2_event.
  destruct (String.eqb (Opportunity.direction o) "dexToCex").
  - apply respects_bind;
      [exact (extends_trans _) | | intros a w; apply extends_refl].
    apply (respects_executeSell _ (extends_refl _) (extends_trans _) cex_event
             (extends_emit _)). trivial.
  - apply respects_bind;
      [exact (extends_trans _) | | intros a w; apply extends_refl].
    apply (respects_executeTrade _ (extends_refl _) (extends_trans _) dex_event
             (extends_date_now _) (extends_emit _)). trivial.
Qed.

Lemma executeArbitrage_leg1_throws (env : Env) (o : Opportunity.t)
    (w w1 : World) (e : string) :
  Service.leg1 env o w = (Throw e, w1) ->
  Service.executeArbitrage env o w = (Normal false, w1).
Proof.
  intros H1. unfold Service.executeArbitrage.
  rewrite (try_catch_throw _ _ w w1 e); [reflexivity|].
  now apply bind_throw.
Qed.

Lemma executeArbitrage_leg2_throws (env : Env) (o : Opportunity.t)
    (w w1 w2 : World) (r1 : Service.LegResult) (e : string) :
  Service.leg1 env o w = (Normal r1, w1) ->
  Service.leg2 env o w1 = (Throw e, w2) ->
  Service.executeArbitrage env o w = (Normal false, w2).
Proof.
  intros H1 H2. unfold Service.executeArbitrage.
  rewrite (try_catch_throw _ _ w w2 e); [reflexivity|].
  rewrite (bind_normal _ _ _ _ _ H1). now apply bind_throw.
Qed.

Lemma executeArbitrage_both_legs (env : Env) (o : Opportunity.t)
    (w w1 w2 : World) (r1 r2 : Service.LegResult) :
  Service.leg1 env o w = (Normal r1, w1) ->
  Service.leg2 env o w1 = (Normal r2, w2) ->
  Service.executeArbitrage env o w = (Normal true, w2).
Proof.
  intros H1 H2. unfold Service.executeArbitrage.
  apply try_catch_normal.
  rewrite (bind_normal _ _ _ _ _ H1). now rewrite (bind_normal _ _ _ _ _ H2).
Qed.

(** C3 (amended): [executeArbitrage] never throws; it returns a boolean,
    true exactly when both legs succeed.  When the first leg succeeds and
    the second raises an error, it returns false and stops there: the
    world is the one the failed second leg left, and everything called
    after the first leg returned is a call of the second leg to its own
    venue, so the first leg is neither repeated nor undone.  The value
    returned names no failure stage and holds no result of the first
    leg. *)
Theorem executeArbitrage_returns_false_after_leg2_failure
    (env : Env) (o : Opportunity.t) (w : World) :
  (exists b w', Service.executeArbitrage env o w = (Normal b, w')) /\
  (forall r1 w1 e w2,
     Service.leg1 env o w = (Normal r1, w1) ->
     Service.leg2 env o w1 = (Throw e, w2) ->
     Service.executeArbitrage env o w = (Normal false, w2) /\
     exists t2, trace w2 = trace w1 ++ t2 /\ Forall (leg2_event o) t2) /\
  (forall e w1,
     Service.leg1 env o w = (Throw e, w1) ->
     Service.executeArbitrage env o w = (Normal false, w1)) /\
  (forall r1 w1 r2 w2,
     Service.leg1 env o w = (Normal r1, w1) ->
     Service.leg2 env o w1 = (Normal r2, w2) ->
     Service.executeArbitrage env o w = (Normal true, w2)).
Proof.
  split; [|split; [|split]].
  - unfold Service.executeArbitrage, try_catch.
    match goal with |- context [match ?m w with _ => _ end] =>
      destruct (m w) as [[a | e] w'] end; do 2 eexists; reflexivity.
  - intros r1 w1 e w2 H1 H2. split.
    + exact (executeArbitrage_leg2_throws _ _ _ _ _ _ _ H1 H2).
    + pose proof (leg2_calls_its_venue env o w1) as H. rewrite H2 in H.
      exact H.
  - intros e w1. apply executeArbitrage_leg1_throws.
  - intros r1 w1 r2 w2. apply executeArbitrage_both_legs.
Qed.

Lemma executeArbitrage_returns_false_after_leg2_failure_witness :
  fst (Service.executeArbitrage (sample_env false (Normal 42%Z))
         (sample_opportunity "cexToDex" 1 0) sample_world) = Normal false.
Proof.
  destruct (Service.leg1 (sample_env false (Normal 42%Z))
              (sample_opportunity "cexToDex" 1 0) sample_world)
    as [c w1] eqn:E1.
  assert (Hc : c = Normal (Service.CexResult 42)).
  { apply (f_equal fst) in E1. vm_compute in E1. symmetry. exact E1. }
  subst c.
  assert (E2 : Service.leg2 (sample_env false (Normal 42%Z))
                 (sample_opportunity "cexToDex" 1 0) w1
               = (Throw Uniswap.not_initialized, w1)) by reflexivity.
  destruct (proj1 (proj2 (executeArbitrage_returns_false_after_leg2_failure
              (sample_env false (Normal 42%Z))
              (sample_opportunity "cexToDex" 1 0) sample_world))
              _ _ _ _ E1 E2) as [H _].
  now rewrite H.
Defined.

(** C3, as claimed, fails: no failure stage and no first-leg result can be
    read off what [executeArbitrage] returns.  A failure of the first leg
    and a failure of the second both return false, and two runs whose
    first legs produced the orders 1 and 2 return the same value. *)
Lemma returned_value_has_no_stage_and_no_leg1_result :
  fst (Service.executeArbitrage (sample_env true (Throw "rejected"))
         (sample_opportunity "cexToDex" 1 0) sample_world) = Normal false /\
  fst (Service.executeArbitrage (sample_env false (Normal 42%Z))
         (sample_opportunity "cexToDex" 1 0) sample_world) = Normal false /\
  ~ exists leg1Result : bool -> option Service.LegResult,
      forall env o w r1 w1 e w2 b w',
        Service.leg1 env o w = (Normal r1, w1) ->
        Service.leg2 env o w1 = (Throw e, w2) ->
        Service.executeArbitrage env o w = (Normal b, w') ->
        leg1Result b = Some r1.
Proof.
  split; [vm_compute; reflexivity|].
  split; [vm_compute; reflexivity|].
  intros [f Hf].
  assert (Hrun : forall id,
    f false = Some (Service.CexResult id)).
  { intros id.
    destruct (Service.leg1 (sample_env false (Normal id))
                (sample_opportunity "cexToDex" 1 0) sample_world)
      as [c w1] eqn:E1.
    assert (Hc : c = Normal (Service.CexResult id)).
    { apply (f_equal fst) in E1. cbn in E1. symmetry. exact E1. }
    subst c.
    assert (E2 : Service.leg2 (sample_env false (Normal id))
                   (sample_opportunity "cexToDex" 1 0) w1
                 = (Throw Uniswap.not_initialized, w1)) by reflexivity.
    exact (Hf _ _ _ _ _ _ _ _ _ E1 E2
             (executeArbitrage_leg2_throws _ _ _ _ _ _ _ E1 E2)). }
  pose proof (Hrun 1%Z) as H1. pose proof (Hrun 2%Z) as H2.
  rewrite H1 in H2. discriminate.
Qed.

(** What an execution comes to: false, after no call or after the one
    purchase on the centralized venue. *)
Lemma executeArbitrage_calls (env : Env) (o : Opportunity.t) (w : World) :
  exists w',
    Service.executeArbitrage env o w = (Normal false, w') /\
    (trace w' = trace w \/
     exists quantity,
       String.eqb (Opportunity.direction o) "dexToCex" = false /\
       Binance.normalizeQuantity (symbolInfo env) (Service.binanceSymbol_of o)
         (Opportunity.tradeAmount o) = Normal quantity /\
       trace w' = trace w ++ [EvOrder (Service.binanceSymbol_of o) BUY quantity]).
Proof.
  destruct (String.eqb (Opportunity.direction o) "dexToCex") eqn:Edir.
  - destruct (executeTrade_trace env (Opportunity.network o) "buy"
                (Opportunity.baseToken o) (Opportunity.quoteToken o)
                (Opportunity.tradeAmount o)
                (maxSlippagePercentage (config env)) w)
      as (e & w' & H & Ht & _).
    exists w'. split; [|now left].
    apply (executeArbitrage_leg1_throws _ _ _ _ e).
    unfold Service.leg1. rewrite Edir. now apply bind_throw.
  - destruct (Binance.normalizeQuantity (symbolInfo env)
                (Service.binanceSymbol_of o) (Opportunity.tradeAmount o))
      as [quantity | e] eqn:En.
    + set (w1 := set_trace (trace w ++ [EvOrder (Service.binanceSymbol_of o)
                                           BUY quantity]) w).
      destruct (answer_order env (trace w1)) as [id | e] eqn:Ea.
      * destruct (executeTrade_trace env (Opportunity.network o) "sell"
                    (Opportunity.baseToken o) (Opportunity.quoteToken o)
                    (Opportunity.tradeAmount o)
                    (maxSlippagePercentage (config env)) w1)
          as (e & w' & H & Ht & _).
        exists w'. split.
        -- apply (executeArbitrage_leg2_throws _ _ _ w1 _
                    (Service.CexResult id) e).
           ++ unfold Service.leg1. rewrite Edir, En.
              unfold Binance.executeBuy, perform, try_catch, bind, lift,
                emit, get_trace, ret. cbn.
              unfold w1 in Ea. cbn in Ea. now rewrite Ea.
           ++ unfold Service.leg2. rewrite Edir. now apply bind_throw.
        -- right. exists quantity. repeat split. now rewrite Ht.
      * exists w1. split.
        -- apply (executeArbitrage_leg1_throws _ _ _ _ e).
           unfold Service.leg1. rewrite Edir, En.
           unfold Binance.executeBuy, perform, try_catch, bind, lift,
             emit, get_trace, ret, throw. cbn.
           unfold w1 in Ea. cbn in Ea. now rewrite Ea.
        -- right. exists quantity. repeat split.
    + exists w. split; [|now left].
      apply (executeArbitrage_leg1_throws _ _ _ _ e).
      unfold Service.leg1. rewrite Edir, En. reflexivity.
Qed.


End Execution.


(* ===================================================================== *)
(** ** Symbols of trading pairs *)
(* ===================================================================== *)

Section PairSymbols.

Lemma split_on_free (sep : ascii) (a : string) :
  free_of sep a -> split_on sep a = [a].
Proof.
  induction a as [| c a IH]; [reflexivity|].
  intros [Hc Ha]. cbn [split_on].
  rewrite (proj2 (Ascii.eqb_neq c sep) Hc), (IH Ha). reflexivity.
Qed.

Lemma split_on_app (sep : ascii) (a s : string) :
  free_of sep a ->
  split_on sep (String.append a (String sep s)) = a :: split_on sep s.
Proof.
  induction a as [| c a IH]; intros Ha.
  - change (String.append EmptyString (String sep s)) with (String sep s).
    cbn [split_on]. now rewrite Ascii.eqb_refl.
  - destruct Ha as [Hc Ha].
    change (String.append (String c a) (String sep s))
      with (String c (String.append a (String sep s))).
    cbn [split_on].
    rewrite (proj2 (Ascii.eqb_neq c sep) Hc), (IH Ha). reflexivity.
Qed.

Lemma split_on_components (sep : ascii) (s : string) :
  split_on sep s <> [] /\ Forall (free_of sep) (split_on sep s).
Proof.
  induction s as [| c s [IHne IH]].
  - split; [discriminate | repeat constructor].
  - cbn [split_on]. destruct (Ascii.eqb c sep) eqn:E.
    + split; [discriminate|]. constructor; [exact I | exact IH].
    + apply Ascii.eqb_neq in E.
      destruct (split_on sep s) as [| h t]; [contradiction|].
      split; [discriminate|].
      apply Forall_cons_iff in IH. destruct IH as [Hh Ht].
      constructor; [split; assumption | exact Ht].
Qed.

(** The tokens [split_pair] yields contain no dash, and neither does the
    text printed for a missing quote token. *)
Lemma split_pair_free (tradingPair base : string) (quote : option string) :
  split_pair tradingPair = (base, quote) ->
  free_of "-" base /\ free_of "-" (render quote).
Proof.
  unfold split_pair.
  destruct (split_on_components "-" tradingPair) as [Hne HF].
  destruct (split_on "-" tradingPair) as [| b [| q rest]];
    [contradiction | |]; intros H; inversion H; subst.
  - apply Forall_cons_iff in HF. destruct HF as [Hb _].
    split; [exact Hb|]. cbn. repeat split; discriminate.
  - apply Forall_cons_iff in HF. destruct HF as [Hb HF].
    apply Forall_cons_iff in HF. destruct HF as [Hq _]. now split.
Qed.

(** X1: the executor derives the Binance symbol from the tokens stored in
    the opportunity, the scanner from the configured pair; for tokens that
    came from splitting a configured pair, both obtain the same symbol,
    whatever the pair looks like (several dashes, or none). *)
Theorem executor_symbol_is_scanner_symbol
    (tradingPair : string) (o : Opportunity.t) :
  split_pair tradingPair = (Opportunity.baseToken o, Opportunity.quoteToken o) ->
  Service.binanceSymbol_of o = Binance.getSymbolFromPair tradingPair.
Proof.
  intros Hsplit.
  destruct (split_pair_free _ _ _ Hsplit) as [Hb Hq].
  unfold Service.binanceSymbol_of, Binance.getSymbolFromPair.
  rewrite Hsplit.
  change (String.append "-" (render (Opportunity.quoteToken o)))
    with (String "-" (render (Opportunity.quoteToken o))).
  unfold split_pair at 1.
  rewrite (split_on_app _ _ _ Hb), (split_on_free _ _ Hq). reflexivity.
Qed.

Lemma executor_symbol_is_scanner_symbol_witness :
  Service.binanceSymbol_of sample_retained
    = Binance.getSymbolFromPair "WBTC-USDT-perp".
Proof.
  apply (executor_symbol_is_scanner_symbol "WBTC-USDT-perp" sample_retained).
  reflexivity.
Defined.

End PairSymbols.

(* ===================================================================== *)
(** ** Exchange information and quantities *)
(* ===================================================================== *)

Section ExchangeInfo.
Local Open Scope Q_scope.

Lemma load_other (l : list ExchangeSymbol) (m : gmap string SymbolInfo)
    (symbol : string) :
  ~ In symbol (map es_symbol l) ->
  foldl (fun m s => <[ es_symbol s := info_of s ]> m) m l !! symbol
    = m !! symbol.
Proof.
  revert m. induction l as [| e l IH]; intros m Hn; [reflexivity|].
  cbn [foldl]. rewrite IH.
  - apply lookup_insert_ne. intros E. apply Hn. left. exact E.
  - intros Hin. apply Hn. right. exact Hin.
Qed.

Lemma load_present (l : list ExchangeSymbol) (m : gmap string SymbolInfo)
    (symbol : string) :
  In symbol (map es_symbol l) ->
  is_Some (foldl (fun m s => <[ es_symbol s := info_of s ]> m) m l !! symbol).
Proof.
  revert m. induction l as [| e l IH]; intros m Hin; [contradiction|].
  cbn [foldl].
  destruct (in_dec string_dec symbol (map es_symbol l)) as [Hl | Hl].
  - now apply IH.
  - rewrite (load_other _ _ _ Hl).
    destruct Hin as [E | Hin]; [|contradiction].
    cbn in E. rewrite E. rewrite lookup_insert_eq. eauto.
Qed.

Lemma load_unique (l : list ExchangeSymbol) (m : gmap string SymbolInfo)
    (e : ExchangeSymbol) :
  NoDup (map es_symbol l) -> In e l ->
  foldl (fun m s => <[ es_symbol s := info_of s ]> m) m l !! es_symbol e
    = Some (info_of e).
Proof.
  revert m. induction l as [| e0 l IH]; intros m Hnd Hin; [contradiction|].
  cbn [map] in Hnd. apply NoDup_cons in Hnd. destruct Hnd as [Hfresh Hnd].
  cbn [foldl]. destruct Hin as [-> | Hin].
  - rewrite load_other; [apply lookup_insert_eq|].
    intros Hin. apply Hfresh. now apply list_elem_of_In.
  - now apply IH.
Qed.

(** X2: after [initialize] has gone through the exchange information, a
    symbol has an entry exactly when the exchange listed it; with distinct
    symbol names the entry is the one built from its filters (the step
    size of its LOT_SIZE filter, or 0.00000001 without one).  For a
    symbol the exchange did not list, [normalizeQuantity] returns NaN
    when the name is one every object inherits, and throws otherwise
    (provided the exchange listed no symbol '__proto__'). *)
Theorem symbolInfo_holds_the_listed_symbols
    (symbols : list ExchangeSymbol) (symbol : string) (quantity : BigNumber) :
  (Binance.load_symbolInfo symbols !! symbol = None
     <-> ~ In symbol (map es_symbol symbols)) /\
  (NoDup (map es_symbol symbols) ->
   forall e, In e symbols ->
     Binance.load_symbolInfo symbols !! es_symbol e = Some (info_of e)) /\
  (~ In symbol (map es_symbol symbols) ->
   (is_prototype_name symbol = true ->
    Binance.normalizeQuantity (Binance.load_symbolInfo symbols) symbol quantity
      = Normal BN_NaN) /\
   (is_prototype_name symbol = false ->
    ~ In "__proto__" (map es_symbol symbols) ->
    Binance.normalizeQuantity (Binance.load_symbolInfo symbols) symbol quantity
      = Throw (String.append "Symbol info not found for " symbol))).
Proof.
  change (Binance.load_symbolInfo symbols)
    with (foldl (fun (m : gmap string SymbolInfo) s =>
                   <[ es_symbol s := info_of s ]> m) ∅ symbols).
  assert (Hnone : forall name, ~ In name (map es_symbol symbols) ->
            foldl (fun (m : gmap string SymbolInfo) s =>
                     <[ es_symbol s := info_of s ]> m) ∅ symbols
              !! name = None).
  { intros name Hn. rewrite (load_other _ _ _ Hn). apply lookup_empty. }
  split; [|split].
  - split; [|apply Hnone].
    intros Hl Hin. apply (load_present _ ∅) in Hin.
    rewrite Hl in Hin. destruct Hin as [x Hx]. discriminate.
  - intros Hnd e He. now apply load_unique.
  - intros Hn. split.
    + intros Hp. unfold Binance.normalizeQuantity, Binance.symbol_property.
      rewrite (Hnone _ Hn), Hp. destruct quantity; reflexivity.
    + intros Hp Hproto.
      unfold Binance.normalizeQuantity, Binance.symbol_property.
      now rewrite (Hnone _ Hn), Hp, (Hnone _ Hproto).
Qed.

Lemma symbolInfo_holds_the_listed_symbols_witness :
  Binance.load_symbolInfo
    [ {| es_symbol := "WBTCUSDT"; es_baseAsset := "WBTC";
         es_quoteAsset := "USDT";
         es_filters := [ {| filterType := "LOT_SIZE";
                            f_stepSize := Some (BN 0.001);
                            f_tickSize := None; f_minNotional := None |} ] |};
      {| es_symbol := "LINKUSDT"; es_baseAsset := "LINK";
         es_quoteAsset := "USDT"; es_filters := [] |} ] !! "LINKUSDT"
  = Some {| baseAsset := "LINK"; quoteAsset := "USDT";
            stepSize := BN 0.00000001; tickSize := BN 0.00000001;
            minNotional := BN 10 |}.
Proof.
  apply (proj1 (proj2 (symbolInfo_holds_the_listed_symbols
           [ {| es_symbol := "WBTCUSDT"; es_baseAsset := "WBTC";
                es_quoteAsset := "USDT";
                es_filters := [ {| filterType := "LOT_SIZE";
                                   f_stepSize := Some (BN 0.001);
                                   f_tickSize := None;
                                   f_minNotional := None |} ] |};
             {| es_symbol := "LINKUSDT"; es_baseAsset := "LINK";
                es_quoteAsset := "USDT"; es_filters := [] |} ]
           "LINKUSDT" (BN 1)))
         ltac:(repeat constructor; cbn; intros H;
               repeat (apply elem_of_cons in H as [H | H]; [discriminate|]);
               inversion H)
         {| es_symbol := "LINKUSDT"; es_baseAsset := "LINK";
            es_quoteAsset := "USDT"; es_filters := [] |}).
  right. left. reflexivity.
Defined.

(** X3: normalizing is idempotent: a quantity that came out of
    [normalizeQuantity] passes through it unchanged (positive step size,
    quantity not negative). *)
Theorem normalizeQuantity_idempotent
    (symbols : gmap string SymbolInfo) (symbol : string) (info : SymbolInfo)
    (step quantity : Q) :
  symbols !! symbol = Some info ->
  stepSize info = BN step ->
  0 < step -> 0 <= quantity ->
  exists r,
    Binance.normalizeQuantity symbols symbol (BN quantity) = Normal (BN r) /\
    Binance.normalizeQuantity symbols symbol (BN r) = Normal (BN r).
Proof.
  intros Hinfo Hstep Hpos Hq.
  unfold Binance.normalizeQuantity, Binance.symbol_property.
  rewrite Hinfo, Hstep.
  unfold BigNumber.dividedToIntegerBy, BigNumber.div.
  assert (Hnz : BigNumber.is_zero step = false) by (apply is_zero_false; lra).
  rewrite Hnz, !times_finite.
  assert (Hdiv : 0 <= quantity / step).
  { apply Qle_shift_div_l; [assumption|]. lra. }
  destruct (round_down_nonneg _ Hdiv) as (Hrd & _).
  rewrite Hrd.
  set (n := Qfloor (quantity / step)).
  assert (Hn : (0 <= n)%Z).
  { change 0%Z with (Qfloor 0). now apply Qfloor_resp_le. }
  eexists. split; [reflexivity|].
  set (r := Qred (Qred (inject_Z n) * step)).
  assert (Hr : r / step == inject_Z n).
  { unfold r. rewrite !Qred_correct. field. lra. }
  assert (Hdiv2 : 0 <= r / step).
  { rewrite Hr. change 0 with (inject_Z 0). now rewrite <- Zle_Qle. }
  destruct (round_down_nonneg _ Hdiv2) as (Hrd2 & _).
  rewrite Hrd2, (Qfloor_comp _ _ Hr), Qfloor_Z. reflexivity.
Qed.

Lemma normalizeQuantity_idempotent_witness :
  exists r,
    Binance.normalizeQuantity {[ "WBTCUSDT" := info_with_step (BN 0.001) ]}
      "WBTCUSDT" (BN 1.2345) = Normal (BN r) /\
    Binance.normalizeQuantity {[ "WBTCUSDT" := info_with_step (BN 0.001) ]}
      "WBTCUSDT" (BN r) = Normal (BN r).
Proof.
  apply (normalizeQuantity_idempotent
           {[ "WBTCUSDT" := info_with_step (BN 0.001) ]} "WBTCUSDT"
           (info_with_step (BN 0.001)) 0.001 1.2345);
    [vm_compute; reflexivity | reflexivity | reflexivity | discriminate].
Defined.

End ExchangeInfo.

(* ===================================================================== *)
(** ** The decentralized venue adapter *)
(* ===================================================================== *)

Section DexAdapter.
Local Open Scope Q_scope.

(** X5: with a slippage of k tenths of a percent, 0 <= k <= 1000, the
    minimum amount out is the quoted amount scaled by (1000 - k) / 1000 and
    truncated: never negative, never above the quote, and the quote itself
    when k is 0.  A slippage that is NaN or infinite makes the computation
    throw. *)
Theorem minimum_out_bounds (bestAmountOut : Z) (slippagePercentage : number) :
  (forall k,
     JS.floor (JS.mul slippagePercentage (Num 10)) = Some k ->
     (0 <= k <= 1000)%Z -> (0 <= bestAmountOut)%Z ->
     exists m,
       Uniswap.minimum_out bestAmountOut slippagePercentage = Normal m /\
       (0 <= m <= bestAmountOut)%Z /\
       (1000 * m <= bestAmountOut * (1000 - k) < 1000 * m + 1000)%Z /\
       (k = 0%Z -> m = bestAmountOut)) /\
  (JS.is_finite slippagePercentage = false ->
   threw (Uniswap.minimum_out bestAmountOut slippagePercentage) = true).
Proof.
  split.
  - intros k Hk Hrange Hbest. unfold Uniswap.minimum_out. rewrite Hk.
    assert (Hsafe : Uniswap.from_number (1000 - k) = Normal (1000 - k)%Z).
    { unfold Uniswap.from_number.
      destruct (2 ^ 53 - 1 <=? Z.abs (1000 - k))%Z eqn:E; [|reflexivity].
      apply Z.leb_le in E.
      change (2 ^ 53 - 1)%Z with 9007199254740991%Z in E. lia. }
    rewrite Hsafe.
    set (x := (bestAmountOut * (1000 - k))%Z).
    assert (Hx : (0 <= x)%Z) by (unfold x; nia).
    assert (Hq : (x = 1000 * Z.quot x 1000 + Z.rem x 1000)%Z)
      by (apply Z.quot_rem'; lia).
    assert (Hr : (0 <= Z.rem x 1000 < 1000)%Z)
      by (apply Z.rem_bound_pos; lia).
    exists (Z.quot x 1000). split; [reflexivity|].
    assert (Hx2 : (x <= bestAmountOut * 1000)%Z) by (unfold x; nia).
    split; [lia|]. split; [lia|].
    intros ->. unfold x. replace (bestAmountOut * (1000 - 0))%Z
      with (bestAmountOut * 1000)%Z by lia.
    apply Z.quot_mul. lia.
  - intros Hf. unfold Uniswap.minimum_out.
    destruct slippagePercentage as [| n | q]; [reflexivity | reflexivity |].
    discriminate.
Qed.

Lemma minimum_out_bounds_witness :
  exists m,
    Uniswap.minimum_out 100700000%Z (Num 0.5) = Normal m /\
    (0 <= m <= 100700000)%Z /\
    (1000 * m <= 100700000 * (1000 - 5) < 1000 * m + 1000)%Z /\
    (5%Z = 0%Z -> m = 100700000%Z).
Proof.
  apply (proj1 (minimum_out_bounds 100700000%Z (Num 0.5)) 5%Z);
    [vm_compute; reflexivity | lia | lia].
Defined.

Lemma perform_eq {A} (e : Event) (answer : list Event -> completion A)
    (w : World) :
  perform e answer w
    = (answer (trace w ++ [e]), set_trace (trace w ++ [e]) w).
Proof. reflexivity. Qed.

(** One fee tier: never an error, never a smaller best amount, at most
    one call, and that a quote. *)
Lemma try_fee_returns (env : Env) (network tokenIn tokenOut : string)
    (amountIn : Z) (best : Z * Z) (fee : Z) (w : World) :
  exists best' t,
    Uniswap.try_fee env network tokenIn tokenOut amountIn best fee w
      = (Normal best', set_trace (trace w ++ t) w) /\
    (fst best <= fst best')%Z /\
    (best' = best \/ (fst best < fst best')%Z /\ snd best' = fee) /\
    (t = [] \/ t = [EvQuote network tokenIn tokenOut fee amountIn]).
Proof.
  unfold Uniswap.try_fee, try_catch.
  destruct (has_provider (config env) network).
  - unfold bind at 1. rewrite perform_eq.
    destruct (answer_amount env _) as [amountOut | e].
    + cbn. destruct (amountOut >? fst best)%Z eqn:E.
      * exists (amountOut, fee). eexists. split; [reflexivity|].
        apply Z.gtb_lt in E. cbn. split; [lia|]. split; [right; split; [lia|reflexivity]|].
        right; reflexivity.
      * exists best. eexists. split; [reflexivity|].
        split; [lia|]. split; [now left | right; reflexivity].
    + cbn. exists best. eexists. split; [reflexivity|].
      split; [lia|]. split; [now left | right; reflexivity].
  - cbn. exists best, []. rewrite app_nil_r.
    split; [destruct w; reflexivity|]. split; [lia|]. split; now left.
Qed.

Lemma quote_pools_returns (env : Env) (network tokenIn tokenOut : string)
    (amountIn : Z) (pool_fees : list Z) (best : Z * Z) (w : World) :
  exists best' t,
    Uniswap.quote_pools env network tokenIn tokenOut amountIn best pool_fees w
      = (Normal best', set_trace (trace w ++ t) w) /\
    (fst best <= fst best')%Z /\
    (best' = best \/ (fst best < fst best')%Z /\ In (snd best') pool_fees) /\
    Forall is_quote t /\
    (List.length t <= List.length pool_fees)%nat.
Proof.
  revert best w. induction pool_fees as [| fee rest IH]; intros best w.
  - exists best, []. rewrite app_nil_r. cbn.
    split; [destruct w; reflexivity|]. split; [lia|].
    split; [now left|]. split; [constructor | lia].
  - destruct (try_fee_returns env network tokenIn tokenOut amountIn best fee w)
      as (b1 & t1 & H1 & Hle1 & Hor1 & Ht1).
    destruct (IH b1 (set_trace (trace w ++ t1) w))
      as (b2 & t2 & H2 & Hle2 & Hor2 & Hq2 & Hlen2).
    exists b2, (t1 ++ t2). cbn [Uniswap.quote_pools].
    rewrite (bind_normal _ _ _ _ _ H1), H2. cbn [trace set_trace].
    split; [rewrite app_assoc; reflexivity|].
    split; [lia|]. split.
    + destruct Hor2 as [-> | [Hlt Hin]].
      * destruct Hor1 as [-> | [Hlt Hfee]]; [now left|].
        right. split; [exact Hlt|]. left. now symmetry.
      * right. split; [lia | now right].
    + split.
      * apply Forall_app. split; [|exact Hq2].
        destruct Ht1 as [-> | ->]; repeat constructor.
      * rewrite length_app. destruct Ht1 as [-> | ->]; cbn; lia.
Qed.

(** X6: going through the fee tiers never fails and never lowers the best
    amount; a better amount comes with the fee of one of the tiers; the
    only calls made are quotes, at most one per tier. *)
Theorem quote_pools_keeps_the_best_quote
    (env : Env) (network tokenIn tokenOut : string) (amountIn : Z)
    (pool_fees : list Z) (best : Z * Z) (w : World) :
  exists best' w',
    Uniswap.quote_pools env network tokenIn tokenOut amountIn best pool_fees w
      = (Normal best', w') /\
    (fst best <= fst best')%Z /\
    (best' = best \/ (fst best < fst best')%Z /\ In (snd best') pool_fees) /\
    exists t, trace w' = trace w ++ t /\ Forall is_quote t /\
              (List.length t <= List.length pool_fees)%nat.
Proof.
  destruct (quote_pools_returns env network tokenIn tokenOut amountIn
              pool_fees best w) as (b & t & H & Hle & Hor & Hq & Hlen).
  exists b. eexists. split; [exact H|]. split; [exact Hle|].
  split; [exact Hor|]. exists t. cbn. auto.
Qed.


(** X8: an adapter that is not initialized, or a token that the table of
    the network does not list, makes [getPrice] throw before any call to
    the venue.  ETH is listed on no network (the table has WETH), so for
    the configured default pair ETH-USDT a price lookup that misses the
    cache answers null, calls no venue and stores nothing. *)
Theorem unknown_token_fails_without_a_call
    (env : Env) (network baseToken : string) (quoteToken : option string)
    (w : World) :
  (uniswap_initialized env = false \/
   threw (Uniswap.getTokenAddress env network (Some baseToken)) = true \/
   threw (Uniswap.getTokenAddress env network quoteToken) = true ->
   exists e,
     Uniswap.getPrice env network baseToken quoteToken w = (Throw e, w)) /\
  (cache_miss w (Service.cacheKey network "ETH" quoteToken) ->
   exists w',
     Service.getDexPrice env network "ETH" quoteToken w = (Normal None, w') /\
     trace w' = trace w /\
     cacheData w' !! Service.cacheKey network "ETH" quoteToken = None).
Proof.
  split; [intros _; apply getPrice_throws|].
  intros Hmiss.
  destruct (cache_get_miss _ _ Hmiss) as (_ & Htrace & Hcache).
  eexists. split; [exact (getDexPrice_miss _ _ _ _ _ Hmiss)|].
  split; [exact Htrace|]. rewrite Hcache. apply lookup_delete_eq.
Qed.

Lemma unknown_token_fails_without_a_call_witness :
  exists e,
    Uniswap.getPrice (sample_env false (Normal 42%Z)) "optimism" "WBTC"
      (Some "USDT") sample_world = (Throw e, sample_world).
Proof.
  apply (proj1 (unknown_token_fails_without_a_call
                  (sample_env false (Normal 42%Z)) "optimism" "WBTC"
                  (Some "USDT") sample_world)).
  left. reflexivity.
Defined.

End DexAdapter.

(* ===================================================================== *)
(** ** The price cache *)
(* ===================================================================== *)

Section PriceCache.

(** X9: a value stored in the cache lives for 60 seconds.  Read again
    while the clock has not passed that time it is returned as stored;
    read later (the clock being at or after the epoch, since node-cache
    reads an expiry time of 0 as "never") it is a miss and the entry is
    removed; entries under other keys are not touched by the store. *)
Theorem cache_entry_lives_sixty_seconds
    (key : string) (value : BigNumber) (w w2 : World) :
  cacheData w2 = cacheData (snd (Service.cache_set key value w)) ->
  ((clock w2 (reads w2) <= clock w (reads w) + 60000)%Z ->
   fst (Service.cache_get key w2) = Normal (Some value)) /\
  ((0 <= clock w (reads w))%Z ->
   (clock w (reads w) + 60000 < clock w2 (reads w2))%Z ->
   fst (Service.cache_get key w2) = Normal None /\
   cacheData (snd (Service.cache_get key w2)) !! key = None) /\
  (forall other, other <> key ->
     cacheData (snd (Service.cache_set key value w)) !! other
       = cacheData w !! other).
Proof.
  intros Hsame.
  assert (Hentry : cacheData w2 !! key
                   = Some {| ce_value := value;
                             ce_t := (clock w (reads w) + 60000)%Z |}).
  { rewrite Hsame. unfold Service.cache_set, bind. cbn.
    apply lookup_insert_eq. }
  split; [|split].
  - intros Hlive.
    destruct (cache_get_hit w2 key value) as [-> | ->]; try reflexivity.
    eexists. split; [exact Hentry|]. split; [reflexivity | now right].
  - intros Hepoch Hdead.
    destruct (cache_get_miss w2 key) as (H1 & _ & H3).
    { right. eexists. split; [exact Hentry|]. cbn. split; [lia | exact Hdead]. }
    split; [exact H1|]. rewrite H3. apply lookup_delete_eq.
  - intros other Hne. unfold Service.cache_set, bind. cbn.
    now apply lookup_insert_ne.
Qed.

Lemma cache_entry_lives_sixty_seconds_witness :
  fst (Service.cache_get "k" (snd (Service.cache_set "k" (BN 5) sample_world)))
    = Normal (Some (BN 5)).
Proof.
  apply (proj1 (cache_entry_lives_sixty_seconds "k" (BN 5) sample_world
                  (snd (Service.cache_set "k" (BN 5) sample_world))
                  eq_refl)).
  vm_compute. discriminate.
Defined.

(** Reading the cache adds no entry and calls nothing. *)
Lemma cache_get_shrinks (key : string) (w : World) :
  cacheData (snd (Service.cache_get key w)) ⊆ cacheData w /\
  trace (snd (Service.cache_get key w)) = trace w.
Proof.
  unfold Service.cache_get.
  destruct (cacheData w !! key) as [entry|]; [|now split].
  destruct (ce_t entry =? 0)%Z; [now split|].
  destruct (ce_t entry <? clock w (reads w))%Z; cbn; split;
    try reflexivity.
  apply delete_subseteq.
Qed.

Lemma getDexPrice_shrinks (env : Env) (network baseToken : string)
    (quoteToken : option string) (w : World) :
  cacheData (snd (Service.getDexPrice env network baseToken quoteToken w))
    ⊆ cacheData w /\
  trace (snd (Service.getDexPrice env network baseToken quoteToken w))
    = trace w.
Proof.
  pose proof (cache_get_shrinks
                (Service.cacheKey network baseToken quoteToken) w) as Hget.
  unfold Service.getDexPrice, try_catch, bind.
  destruct (Service.cache_get _ w) as [[[v |] | e] w1]; cbn in Hget |- *;
    try exact Hget.
  destruct (getPrice_throws env network baseToken quoteToken w1) as (e & He).
  rewrite He. exact Hget.
Qed.

(** With an empty cache a lookup answers null and changes nothing. *)
Lemma getDexPrice_empty (env : Env) (network baseToken : string)
    (quoteToken : option string) (w : World) :
  cacheData w = ∅ ->
  Service.getDexPrice env network baseToken quoteToken w = (Normal None, w).
Proof.
  intros Hempty.
  assert (Hmiss : cache_miss w (Service.cacheKey network baseToken quoteToken))
    by (left; rewrite Hempty; apply lookup_empty).
  rewrite (getDexPrice_miss _ _ _ _ _ Hmiss).
  unfold Service.cache_get. rewrite Hempty, lookup_empty. reflexivity.
Qed.

Lemma scan_networks_empty (env : Env) (baseToken : string)
    (quoteToken : option string) (binanceSymbol : string)
    (nets : list (string * bool)) (w : World) :
  cacheData w = ∅ ->
  Service.scan_networks env baseToken quoteToken binanceSymbol nets w
    = (Normal tt, w).
Proof.
  intros Hempty. induction nets as [| n rest IH]; [reflexivity|].
  cbn [Service.scan_networks].
  assert (Hn : Service.scan_network env baseToken quoteToken binanceSymbol
                 n w = (Normal tt, w)).
  { unfold Service.scan_network.
    destruct (negb (snd n)); [reflexivity|].
    unfold Binance.getBestBid, Binance.getBestAsk, bind, get_trace, ret.
    destruct (prices env (trace w) !! binanceSymbol) as [tk|];
      [|reflexivity].
    destruct (bid tk); [|reflexivity].
    destruct (ask tk); [|reflexivity].
    now rewrite (getDexPrice_empty env (fst n) baseToken quoteToken w Hempty). }
  now rewrite (bind_normal _ _ _ _ _ Hn).
Qed.

Lemma scan_pairs_empty (env : Env) (pairs : list string) (w : World) :
  cacheData w = ∅ ->
  Service.scan_pairs env pairs w = (Normal tt, w).
Proof.
  intros Hempty. induction pairs as [| p rest IH]; [reflexivity|].
  cbn [Service.scan_pairs].
  assert (Hp : Service.scan_pair env p w = (Normal tt, w)).
  { unfold Service.scan_pair. apply try_catch_normal.
    destruct (split_pair p). now apply scan_networks_empty. }
  now rewrite (bind_normal _ _ _ _ _ Hp).
Qed.

Lemma findArbitrageOpportunities_empty (env : Env) (w : World) :
  cacheData w = ∅ ->
  Service.findArbitrageOpportunities env w
    = (Normal [], set_ledger [] (set_scanning [] w)).
Proof.
  intros Hempty. unfold Service.findArbitrageOpportunities.
  unfold bind at 1. cbn beta iota.
  rewrite (bind_normal _ _ _ _ _
             (scan_pairs_empty env _ (set_scanning [] w) Hempty)).
  reflexivity.
Qed.

Lemma runArbitrageLoop_empty (env : Env) (running : list Event -> bool)
    (rounds : nat) (w : World) :
  cacheData w = ∅ ->
  exists w' n,
    Service.runArbitrageLoop env running rounds w = (Normal tt, w') /\
    trace w' = trace w ++ repeat (EvSleep 1000) n /\
    (n <= rounds)%nat /\
    cacheData w' = ∅.
Proof.
  revert w. induction rounds as [| k IH]; intros w Hempty.
  - exists w, 0%nat. cbn. rewrite app_nil_r. repeat split; [lia | exact Hempty].
  - cbn [Service.runArbitrageLoop]. unfold bind at 1, get_trace.
    destruct (running (trace w)).
    + set (w1 := set_trace (trace w ++ [EvSleep 1000])
                   (set_ledger [] (set_scanning [] w))).
      assert (H1 : Service.loop_iteration env w = (Normal tt, w1)).
      { unfold Service.loop_iteration. apply try_catch_normal.
        rewrite (bind_normal _ _ _ _ _
                   (findArbitrageOpportunities_empty env w Hempty)).
        reflexivity. }
      destruct (IH w1 Hempty) as (w' & n & Hrun & Ht & Hn & Hc).
      exists w', (S n). rewrite (bind_normal _ _ _ _ _ H1).
      split; [exact Hrun|]. split; [|split; [lia | exact Hc]].
      rewrite Ht. unfold w1. cbn. now rewrite <- app_assoc.
    + exists w, 0%nat. cbn. rewrite app_nil_r.
      repeat split; [lia | exact Hempty].
Qed.

(** X10: the cache is never filled.  A lookup adds no entry to the cache
    and calls no venue, whatever it finds.  So a service whose cache is
    empty, as it is when the service is constructed, finds nothing: a
    scan returns the empty list without a call, and however many rounds
    the loop runs, it executes nothing and only pauses, the cache still
    empty at the end. *)
Theorem cache_is_never_filled (env : Env) (w : World) :
  (forall network baseToken quoteToken,
     cacheData (snd (Service.getDexPrice env network baseToken quoteToken w))
       ⊆ cacheData w /\
     trace (snd (Service.getDexPrice env network baseToken quoteToken w))
       = trace w) /\
  (cacheData w = ∅ ->
   Service.findArbitrageOpportunities env w
     = (Normal [], set_ledger [] (set_scanning [] w))) /\
  (cacheData w = ∅ ->
   forall running rounds,
     exists w' n,
       Service.runArbitrageLoop env running rounds w = (Normal tt, w') /\
       trace w' = trace w ++ repeat (EvSleep 1000) n /\
       (n <= rounds)%nat /\
       cacheData w' = ∅).
Proof.
  split; [|split].
  - intros network baseToken quoteToken. apply getDexPrice_shrinks.
  - apply findArbitrageOpportunities_empty.
  - intros Hempty running rounds. now apply runArbitrageLoop_empty.
Qed.

End PriceCache.

(* ===================================================================== *)
(** ** Relations the scan and the loop preserve *)
(* ===================================================================== *)

Section ServiceRelation.
Variable R : World -> World -> Prop.
Hypothesis R_refl : forall w, R w w.
Hypothesis R_trans : forall a b c, R a b -> R b c -> R a c.
Variable allowed : Event -> Prop.
Hypothesis R_date_now : respects R date_now.
Hypothesis R_emit : forall e, allowed e -> respects R (emit e).
Hypothesis R_getDexPrice :
  forall env network baseToken quoteToken,
    respects R (Service.getDexPrice env network baseToken quoteToken).
Hypothesis R_scanning : forall l w, R w (set_scanning l w).
Hypothesis R_computed : forall l w, R w (set_computed l w).
Hypothesis R_ledger : forall l w, R w (set_ledger l w).

Ltac service_step :=
  match goal with
  | |- respects _ (ret _) => apply (respects_ret R R_refl)
  | |- respects _ (throw _) => apply (respects_throw R R_refl)
  | |- respects _ (lift _) => apply (respects_lift R R_refl)
  | |- respects _ get_trace => apply (respects_get_trace R R_refl)
  | |- respects _ date_now => apply R_date_now
  | |- respects _ (bind _ _) =>
      apply (respects_bind R R_trans); [| intros ?]
  | |- respects _ (try_catch _ _) =>
      apply (respects_try_catch R R_trans); [| intros ?]
  | |- respects _ (Service.getDexPrice _ _ _ _) => apply R_getDexPrice
  | |- respects _ (Service.note_computed _) => intros ?; apply R_computed
  | |- respects _ (Service.push _) => intros ?; apply R_scanning
  | |- respects _ (if ?b then _ else _) => destruct b
  | |- respects _ (match ?x with _ => _ end) => destruct x
  end.

Lemma respects_scan_network (env : Env) (baseToken : string)
    (quoteToken : option string) (binanceSymbol : string)
    (network : string * bool) :
  respects R (Service.scan_network env baseToken quoteToken binanceSymbol
                network).
Proof.
  unfold Service.scan_network, Service.compute_both, Service.push_if,
    Binance.getBestBid, Binance.getBestAsk.
  repeat service_step.
Qed.

Lemma respects_scan_pairs (env : Env) (pairs : list string) :
  respects R (Service.scan_pairs env pairs).
Proof.
  induction pairs as [| p rest IH]; cbn [Service.scan_pairs].
  - apply (respects_ret R R_refl).
  - apply (respects_bind R R_trans); [|intros _; exact IH].
    unfold Service.scan_pair.
    apply (respects_try_catch R R_trans);
      [|intros e; apply (respects_ret R R_refl)].
    destruct (split_pair p) as [b q].
    induction (networks (config env)) as [| n nets IHn];
      cbn [Service.scan_networks].
    + apply (respects_ret R R_refl).
    + apply (respects_bind R R_trans);
        [apply respects_scan_network | intros _; exact IHn].
Qed.

Lemma respects_findArbitrageOpportunities (env : Env) :
  respects R (Service.findArbitrageOpportunities env).
Proof.
  unfold Service.findArbitrageOpportunities.
  apply (respects_bind R R_trans); [intros w; apply R_scanning|]. intros _.
  apply (respects_bind R R_trans); [apply respects_scan_pairs|]. intros _.
  intros w. cbn. eapply R_trans; [apply R_scanning | apply R_ledger].
Qed.

Hypothesis allow_dex : forall e, dex_event e -> allowed e.
Hypothesis allow_cex : forall e, cex_event e -> allowed e.

Lemma respects_execute_profitable (env : Env) (l : list Opportunity.t) :
  respects R (Service.execute_profitable env l).
Proof.
  induction l as [| o rest IH]; cbn [Service.execute_profitable].
  - apply (respects_ret R R_refl).
  - apply (respects_bind R R_trans); [|intros _; exact IH].
    destruct (JS.gt _ _); [|apply (respects_ret R R_refl)].
    apply (respects_bind R R_trans);
      [|intros b; apply (respects_ret R R_refl)].
    apply (respects_executeArbitrage R R_refl R_trans allowed R_date_now
             R_emit env o allow_dex allow_cex).
Qed.

End ServiceRelation.

(* ===================================================================== *)
(** ** What a scan and a round of the loop do *)
(* ===================================================================== *)

Section ScanAndLoop.
Local Open Scope Q_scope.

Lemma extends_set_scanning (P : Event -> Prop) (l : list Opportunity.t)
    (w : World) : extends_trace P w (set_scanning l w).
Proof. exists []. split; [cbn; now rewrite app_nil_r | constructor]. Qed.

Lemma extends_set_computed (P : Event -> Prop) (l : list Opportunity.t)
    (w : World) : extends_trace P w (set_computed l w).
Proof. exists []. split; [cbn; now rewrite app_nil_r | constructor]. Qed.

Lemma extends_set_ledger (P : Event -> Prop) (l : list Opportunity.t)
    (w : World) : extends_trace P w (set_ledger l w).
Proof. exists []. split; [cbn; now rewrite app_nil_r | constructor]. Qed.

(** The price lookup calls the venue for quotes only. *)
Lemma getDexPrice_only_quotes (env : Env) (network baseToken : string)
    (quoteToken : option string) :
  respects (extends_trace is_quote)
           (Service.getDexPrice env network baseToken quoteToken).
Proof.
  intros w. exists []. split; [|constructor].
  rewrite app_nil_r. apply getDexPrice_shrinks.
Qed.

(** X11: a scan only asks for quotes: it places no order, approves
    nothing, swaps nothing and does not sleep. *)
Theorem scan_only_asks_for_quotes (env : Env) (w : World) :
  exists t,
    trace (snd (Service.findArbitrageOpportunities env w)) = trace w ++ t /\
    Forall is_quote t.
Proof.
  apply (respects_findArbitrageOpportunities (extends_trace is_quote)
           (extends_refl _) (extends_trans _) (extends_date_now _)
           (getDexPrice_only_quotes) (extends_set_scanning _)
           (extends_set_computed _) (extends_set_ledger _)).
Qed.

Lemma executeArbitrage_returns (env : Env) (o : Opportunity.t) (w : World) :
  exists b w', Service.executeArbitrage env o w = (Normal b, w').
Proof.
  unfold Service.executeArbitrage, try_catch.
  match goal with |- context [match ?m w with _ => _ end] =>
    destruct (m w) as [[a | e] w'] end; do 2 eexists; reflexivity.
Qed.

Lemma execute_profitable_returns (env : Env) (l : list Opportunity.t)
    (w : World) :
  exists w', Service.execute_profitable env l w = (Normal tt, w').
Proof.
  revert w. induction l as [| o rest IH]; intros w; [eexists; reflexivity|].
  cbn [Service.execute_profitable].
  destruct (JS.gt _ _).
  - destruct (executeArbitrage_returns env o w) as (b & w1 & H1).
    destruct (IH w1) as (w2 & H2). exists w2.
    unfold bind at 1. unfold bind at 1. rewrite H1. exact H2.
  - destruct (IH w) as (w2 & H2). exists w2. exact H2.
Qed.

Lemma execute_profitable_venues (env : Env) (l : list Opportunity.t) :
  respects (extends_trace venue_event) (Service.execute_profitable env l).
Proof.
  apply (respects_execute_profitable (extends_trace venue_event)
           (extends_refl _) (extends_trans _) venue_event
           (extends_date_now _) (extends_emit _)).
  - intros e He. now left.
  - intros e He. now right.
Qed.

(** X12: a round of the loop never fails, whatever the venues answer:
    every error is caught on the way, so the round is a scan, the
    executions, and the regular pause of 1000 ms; the pause of 5000 ms
    after an error is never taken.  Before the pause come quotes of the
    scan, then venue calls of the executions. *)
Theorem loop_round_ends_with_the_regular_pause (env : Env) (w : World) :
  exists w' quotes calls,
    Service.loop_iteration env w = (Normal tt, w') /\
    trace w' = trace w ++ quotes ++ calls ++ [EvSleep 1000] /\
    Forall is_quote quotes /\
    Forall venue_event calls.
Proof.
  destruct (findArbitrageOpportunities_eq env w) as (new & w1 & Hfind & _).
  destruct (respects_findArbitrageOpportunities (extends_trace is_quote)
              (extends_refl _) (extends_trans _) (extends_date_now _)
              (getDexPrice_only_quotes) (extends_set_scanning _)
              (extends_set_computed _) (extends_set_ledger _) env w)
    as (quotes & Hq & HFq).
  rewrite Hfind in Hq. cbn [snd] in Hq.
  set (l := array_sort Service.compare (List.filter profitable new)) in *.
  destruct (execute_profitable_returns env l w1) as (w2 & Hexec).
  destruct (execute_profitable_venues env l w1) as (calls & Hc & HFc).
  rewrite Hexec in Hc. cbn [snd] in Hc.
  exists (set_trace (trace w2 ++ [EvSleep 1000]) w2), quotes, calls.
  split.
  - unfold Service.loop_iteration. apply try_catch_normal.
    rewrite (bind_normal _ _ _ _ _ Hfind), (bind_normal _ _ _ _ _ Hexec).
    reflexivity.
  - cbn [trace set_trace]. rewrite Hc, Hq, <- !app_assoc.
    repeat split; assumption.
Qed.

Lemma scan_networks_idle (env : Env) (baseToken : string)
    (quoteToken : option string) (binanceSymbol : string)
    (nets : list (string * bool)) (w : World) :
  (forall n, In n nets -> snd n = true ->
             prices env (trace w) !! binanceSymbol = None) ->
  Service.scan_networks env baseToken quoteToken binanceSymbol nets w
    = (Normal tt, w).
Proof.
  induction nets as [| n nets IH]; intros H; [reflexivity|].
  cbn [Service.scan_networks].
  assert (Hn : Service.scan_network env baseToken quoteToken binanceSymbol n w
               = (Normal tt, w)).
  { unfold Service.scan_network. destruct (snd n) eqn:E; [|reflexivity].
    cbn [negb]. unfold Binance.getBestBid, Binance.getBestAsk, bind, get_trace, ret.
    rewrite (H n (or_introl eq_refl) E). reflexivity. }
  rewrite (bind_normal _ _ _ _ _ Hn). apply IH.
  intros m Hm. apply H. now right.
Qed.

(** X13: when, for every configured pair, no network has a provider or the
    centralized venue has no ticker for the pair's symbol, a scan calls no
    venue and does not read the clock; it returns the empty list and the
    ledger, whatever it held, becomes empty. *)
Theorem scan_without_prices_empties_the_ledger (env : Env) (w : World) :
  (forall tradingPair n,
     In tradingPair (tradingPairs (config env)) ->
     In n (networks (config env)) -> snd n = true ->
     prices env (trace w) !! Binance.getSymbolFromPair tradingPair = None) ->
  Service.findArbitrageOpportunities env w
    = (Normal [], set_ledger [] (set_scanning [] w)).
Proof.
  intros H. unfold Service.findArbitrageOpportunities.
  set (w0 := set_scanning [] w).
  assert (Hscan : forall pairs,
            (forall p, In p pairs -> In p (tradingPairs (config env))) ->
            Service.scan_pairs env pairs w0 = (Normal tt, w0)).
  { induction pairs as [| p rest IH]; intros Hin; [reflexivity|].
    cbn [Service.scan_pairs].
    assert (Hp : Service.scan_pair env p w0 = (Normal tt, w0)).
    { unfold Service.scan_pair. apply try_catch_normal.
      destruct (split_pair p) as [b q]. apply scan_networks_idle.
      intros n Hn Hprov.
      apply (H p n); [apply Hin; now left | exact Hn | exact Hprov]. }
    rewrite (bind_normal _ _ _ _ _ Hp). apply IH.
    intros q Hq. apply Hin. now right. }
  unfold bind at 1. cbn beta iota. fold w0.
  rewrite (bind_normal _ _ _ _ _ (Hscan _ (fun p Hp => Hp))).
  reflexivity.
Qed.

Lemma scan_without_prices_empties_the_ledger_witness :
  Service.findArbitrageOpportunities
    {| config := sample_config; fees := service_fees;
       prices := fun _ => ∅;
       symbolInfo := ∅; uniswap_initialized := true;
       ethers := Ethers6; engine := sample_engine;
       answer_amount := sample_amounts;
       answer_tx := fun _ => Normal "0xabc";
       answer_wait := fun _ => Normal tt;
       answer_order := fun _ => Normal 42%Z |}
    (set_ledger [sample_retained] sample_world)
  = (Normal [], set_ledger [] (set_scanning []
                                 (set_ledger [sample_retained] sample_world))).
Proof.
  apply scan_without_prices_empties_the_ledger.
  intros tradingPair n _ _ _. apply lookup_empty.
Defined.

Lemma round_half_even_nonneg (x : Q) : 0 <= x -> (0 <= JS.round_half_even x)%Z.
Proof.
  intros Hx. unfold JS.round_half_even.
  assert (Hf : (0 <= Qfloor x)%Z)
    by (change 0%Z with (Qfloor 0); now apply Qfloor_resp_le).
  destruct (Qle_bool _ _); [destruct (Qeq_bool _ _);
                             [destruct (Z.even _)|]|]; lia.
Qed.

(** A double above zero comes from a decimal above zero. *)
Lemma to_double_positive (q : Q) :
  JS.gt (JS.to_double q) (Num 0) = true -> 0 < q.
Proof.
  unfold JS.to_double.
  destruct (Qeq_bool q 0) eqn:Ez; [discriminate|].
  assert (Hnz : ~ q == 0).
  { intros H. apply Qeq_bool_iff in H. congruence. }
  set (e := Z.max (JS.floor_log2 (Qabs q)) (-1022)).
  set (r := inject_Z (JS.round_half_even (Qabs q / 2 ^ (e - 52))) * 2 ^ (e - 52)).
  assert (Hulp : 0 < 2 ^ (e - 52)) by (apply Qpower_0_lt; reflexivity).
  assert (Hr : 0 <= r).
  { unfold r. apply Qmult_le_0_compat; [|lra].
    change 0 with (inject_Z 0). rewrite <- Zle_Qle.
    apply round_half_even_nonneg.
    apply Qle_shift_div_l; [exact Hulp|]. rewrite Qmult_0_l. apply Qabs_nonneg. }
  destruct (JS.Qneg q) eqn:En.
  - apply Qneg_true in En.
    destruct (Qle_bool (2 ^ 1024) r); [discriminate|].
    rewrite gt_Num_true, Qred_correct. intros H. lra.
  - apply Qneg_false in En. intros _. lra.
Qed.

(** ROUND_HALF_UP gives a positive value only for a positive one. *)
Lemma round_half_up_positive (dp : Z) (x : Q) :
  0 < BigNumber.round_half_up dp x -> 0 < x.
Proof.
  unfold BigNumber.round_half_up.
  pose proof (ten_power_pos dp) as Hs. set (s := 10 ^ dp) in *.
  set (m := Qfloor (Qabs x * s + (1 # 2))).
  assert (Hm : (0 <= m)%Z).
  { change 0%Z with (Qfloor 0). apply Qfloor_resp_le.
    pose proof (Qabs_nonneg x) as Ha.
    pose proof (Qmult_le_0_compat _ _ Ha (Qlt_le_weak _ _ Hs)). lra. }
  assert (Hms : 0 <= inject_Z m / s).
  { apply Qle_shift_div_l; [exact Hs|]. rewrite Qmult_0_l.
    change 0 with (inject_Z 0). now rewrite <- Zle_Qle. }
  destruct (JS.Qneg x) eqn:En.
  - intros H. lra.
  - apply Qneg_false in En. intros H.
    destruct (Qeq_dec x 0) as [E | E]; [|lra].
    exfalso. unfold m in H.
    assert (Hz : Qabs x * s + (1 # 2) == 1 # 2) by (rewrite E; reflexivity).
    rewrite (Qfloor_comp _ _ Hz) in H. cbn in H.
    unfold Qdiv in H. rewrite Qmult_0_l in H. lra.
Qed.

(** X14: [calculateProfit] reports a positive percentage only for a
    positive estimated profit, and a positive profit only when the sell
    price is above the buy price (buy price positive, sell price and the
    fee rates and gas costs not negative): the scan retains no result
    computed from a sell price at or below the buy price.  For a network
    name the gas table only inherits, the estimated profit is NaN and the
    result is not retained either. *)
Theorem retained_result_has_positive_profit
    (f : Fees) (now : Z) (direction network baseToken : string)
    (quoteToken : option string) (buyPrice sellPrice : Q) :
  fees_nonneg f -> 0 < buyPrice -> 0 <= sellPrice ->
  exists o,
    Service.calculateProfit f now direction network baseToken quoteToken
      (BN buyPrice) (BN sellPrice) = Normal o /\
    ((exists p,
        Opportunity.estimatedProfit o = BN p /\
        (profitable o = true -> 0 < p /\ buyPrice < sellPrice)) \/
     (Service.gasCost f network = BN_NaN /\
      Opportunity.estimatedProfit o = BN_NaN /\
      profitable o = false)).
Proof.
  intros (Htaker & Hpool & Hgas) Hbuy Hsell.
  destruct (gas_or_default_cases (gas f) network) as [Hnan | [g Hg]].
  { eexists. split; [reflexivity|]. right. split; [exact Hnan|].
    unfold profitable.
    cbn [Opportunity.estimatedProfit Opportunity.profitPercentage].
    unfold Service.profit, Service.gasCost. rewrite Hnan.
    unfold Service.revenueFromSell, Service.costToBuy, Service.dexFee,
      Service.binanceFee, Service.tradeAmount.
    destruct (String.eqb direction "dexToCex");
      repeat rewrite ?times_finite, ?plus_finite, ?minus_finite;
      split; reflexivity. }
  destruct (calculateProfit_fields f now direction network baseToken
              quoteToken buyPrice sellPrice g Hg)
    as (o & c & p & Ho & Hc & Hp & Hpp & _ & Ec & Ep).
  exists o. split; [exact Ho|]. left. exists p. split; [exact Hp|].
  assert (Hgpos : 0 <= g).
  { unfold gas_or_default, get_property in Hg.
    destruct (gas f !! network) as [g0|] eqn:Eg.
    - injection Hg as <-. unfold or_default.
      destruct (Qeq_bool g0 0); [lra | exact (Hgas _ _ Eg)].
    - destruct (is_prototype_name network); [discriminate|].
      injection Hg as <-. lra. }
  assert (Hcpos : 0 < c /\ buyPrice <= c).
  { rewrite Ec. destruct (String.eqb direction "dexToCex"); split; lra. }
  assert (Hp_le : p <= sellPrice - c).
  { rewrite Ep. destruct (String.eqb direction "dexToCex"); nra. }
  intros Hprof. unfold profitable in Hprof. rewrite Hpp in Hprof.
  destruct Hcpos as [Hcpos Hcb].
  destruct (percentage_finite p c) as (d & Hd & Ed & _); [lra|].
  rewrite Hd in Hprof. cbn [BigNumber.toNumber] in Hprof.
  apply to_double_positive in Hprof. rewrite Ed in Hprof.
  assert (Hround : 0 < BigNumber.round_half_up BigNumber.DECIMAL_PLACES (p / c))
    by lra.
  apply round_half_up_positive in Hround.
  assert (Hppos : 0 < p).
  { assert (E : p == p / c * c) by (field; lra).
    rewrite E. apply Qmult_lt_0_compat; assumption. }
  split; [exact Hppos | lra].
Qed.

Lemma retained_result_has_positive_profit_witness :
  exists o,
    Service.calculateProfit service_fees 0 "cexToDex" "optimism" "WBTC"
      (Some "USDT") (BN 100) (BN 100.7) = Normal o /\
    ((exists p,
        Opportunity.estimatedProfit o = BN p /\
        (profitable o = true -> 0 < p /\ 100 < 100.7)) \/
     (Service.gasCost service_fees "optimism" = BN_NaN /\
      Opportunity.estimatedProfit o = BN_NaN /\
      profitable o = false)).
Proof.
  apply (retained_result_has_positive_profit service_fees 0 "cexToDex"
           "optimism" "WBTC" (Some "USDT") 100 100.7);
    [|reflexivity | discriminate].
  split; [discriminate|]. split; [discriminate|].
  intros network g Hg. apply elem_of_list_to_map_2 in Hg.
  repeat (apply elem_of_cons in Hg as [Hg | Hg];
          [inversion Hg; subst; discriminate|]).
  inversion Hg.
Defined.

End ScanAndLoop.

(* ===================================================================== *)
(** ** What a scan result looks like *)
(* ===================================================================== *)

Section ScanShape.

Lemma logs_only_refl (P : Opportunity.t -> Prop) (w : World) : logs_only P w w.
Proof. exists []. split; [now rewrite app_nil_r | constructor]. Qed.

Lemma logs_only_trans (P : Opportunity.t -> Prop) (a b c : World) :
  logs_only P a b -> logs_only P b c -> logs_only P a c.
Proof.
  intros (n1 & H1 & F1) (n2 & H2 & F2). exists (n1 ++ n2).
  split; [now rewrite H2, H1, app_assoc | apply Forall_app; now split].
Qed.

Lemma logs_only_weaken (P Q : Opportunity.t -> Prop) (w w' : World) :
  (forall o, P o -> Q o) -> logs_only P w w' -> logs_only Q w w'.
Proof.
  intros HPQ (n & H & F). exists n. split; [exact H|].
  eapply List.Forall_impl; [|exact F]. exact HPQ.
Qed.

(** The two results computed for one pair on one network. *)
Lemma compute_both_shape (env : Env) (network baseToken : string)
    (quoteToken : option string) (cexBid cexAsk dexPrice : BigNumber)
    (w : World) :
  exists d c w',
    Service.compute_both env network baseToken quoteToken cexBid cexAsk
      dexPrice w = (Normal (d, c), w') /\
    computed w' = computed w ++ [d; c] /\
    Forall (fun o => Opportunity.tradeAmount o = BN 1 /\
                     (Opportunity.direction o = "dexToCex" \/
                      Opportunity.direction o = "cexToDex") /\
                     Opportunity.network o = network /\
                     Opportunity.baseToken o = baseToken /\
                     Opportunity.quoteToken o = quoteToken) [d; c].
Proof.
  do 3 eexists. split; [reflexivity|]. cbn.
  rewrite <- app_assoc. split; [reflexivity|].
  constructor; [|constructor; [|constructor]];
    (split; [reflexivity|]);
    (split; [first [left; reflexivity | right; reflexivity]|]);
    repeat split.
Qed.

Lemma scan_network_logs (env : Env) (baseToken : string)
    (quoteToken : option string) (binanceSymbol : string)
    (n : string * bool) (w : World) :
  logs_only (fun o => Opportunity.tradeAmount o = BN 1 /\
                      (Opportunity.direction o = "dexToCex" \/
                       Opportunity.direction o = "cexToDex") /\
                      (Opportunity.network o, true) = n /\
                      Opportunity.baseToken o = baseToken /\
                      Opportunity.quoteToken o = quoteToken)
    w (snd (Service.scan_network env baseToken quoteToken binanceSymbol n w)).
Proof.
  unfold Service.scan_network. destruct n as [network provider].
  cbn [fst snd]. destruct provider; cbn [negb]; [|apply logs_only_refl].
  destruct (getBestBid_eq env binanceSymbol w) as (bid & Hbid).
  rewrite (bind_normal _ _ _ _ _ Hbid).
  destruct (getBestAsk_eq env binanceSymbol w) as (ask & Hask).
  rewrite (bind_normal _ _ _ _ _ Hask).
  destruct bid as [cexBid|]; [|apply logs_only_refl].
  destruct ask as [cexAsk|]; [|apply logs_only_refl].
  pose proof (getDexPrice_frame env network baseToken quoteToken w)
    as (_ & Fc & _).
  destruct (getDexPrice_returns env network baseToken quoteToken w)
    as (p & Hp).
  destruct (Service.getDexPrice env network baseToken quoteToken w)
    as [r w1] eqn:Edex.
  cbn in Hp, Fc. subst r.
  rewrite (bind_normal _ _ _ _ _ Edex).
  destruct p as [dexPrice|].
  - destruct (compute_both_shape env network baseToken quoteToken
                cexBid cexAsk dexPrice w1) as (d & c & w2 & Hboth & Hc & HF).
    rewrite (bind_normal _ _ _ _ _ Hboth).
    exists [d; c]. cbn [fst snd]. split.
    + unfold Service.push_if, Service.push, bind, ret.
      destruct (JS.gt _ _), (JS.gt _ _); cbn; now rewrite Hc, Fc.
    + eapply List.Forall_impl; [|exact HF]. cbn beta.
      intros o (Ha & Hd & Hn & Hb & Hq). subst network.
      repeat split; assumption.
  - exists []. cbn. split; [now rewrite app_nil_r | constructor].
Qed.

Lemma scan_networks_logs (env : Env) (baseToken : string)
    (quoteToken : option string) (binanceSymbol : string)
    (nets : list (string * bool)) (w : World) :
  logs_only (fun o => Opportunity.tradeAmount o = BN 1 /\
                      (Opportunity.direction o = "dexToCex" \/
                       Opportunity.direction o = "cexToDex") /\
                      In (Opportunity.network o, true) nets /\
                      Opportunity.baseToken o = baseToken /\
                      Opportunity.quoteToken o = quoteToken)
    w (snd (Service.scan_networks env baseToken quoteToken binanceSymbol
              nets w)).
Proof.
  revert w. induction nets as [| n rest IH]; intros w;
    [apply logs_only_refl|].
  cbn [Service.scan_networks].
  destruct (scan_network_step env baseToken quoteToken binanceSymbol n w)
    as (new & Hr & _).
  pose proof (scan_network_logs env baseToken quoteToken binanceSymbol n w)
    as Hn.
  destruct (Service.scan_network env baseToken quoteToken binanceSymbol n w)
    as [r w1] eqn:En.
  cbn in Hr, Hn. subst r. rewrite (bind_normal _ _ _ _ _ En).
  eapply logs_only_trans.
  - eapply logs_only_weaken; [|exact Hn]. cbn beta.
    intros o (Ha & Hd & Hin & Hb & Hq).
    repeat split; try assumption. now left.
  - eapply logs_only_weaken; [|apply IH]. cbn beta.
    intros o (Ha & Hd & Hin & Hb & Hq).
    repeat split; try assumption. now right.
Qed.

Lemma scan_pairs_logs (env : Env) (pairs : list string) (w : World) :
  (forall p, In p pairs -> In p (tradingPairs (config env))) ->
  logs_only (scan_shaped (config env)) w
    (snd (Service.scan_pairs env pairs w)).
Proof.
  revert w. induction pairs as [| p rest IH]; intros w Hin;
    [apply logs_only_refl|].
  cbn [Service.scan_pairs].
  assert (Hp : exists w1,
             Service.scan_pair env p w = (Normal tt, w1) /\
             logs_only (scan_shaped (config env)) w w1).
  { unfold Service.scan_pair.
    destruct (split_pair p) as [b q] eqn:Esplit.
    destruct (scan_networks_step env b q (Binance.getSymbolFromPair p)
                (networks (config env)) w) as (new & Hr & _).
    pose proof (scan_networks_logs env b q (Binance.getSymbolFromPair p)
                  (networks (config env)) w) as Hl.
    destruct (Service.scan_networks env b q (Binance.getSymbolFromPair p)
                (networks (config env)) w) as [r w1] eqn:En.
    cbn in Hr, Hl. subst r. exists w1.
    split; [now apply try_catch_normal|].
    eapply logs_only_weaken; [|exact Hl]. cbn beta.
    intros o (Ha & Hd & Hnet & Hb & Hq). subst b q.
    repeat split; try assumption.
    exists p. split; [apply Hin; now left | exact Esplit]. }
  destruct Hp as (w1 & Hp & Hl).
  rewrite (bind_normal _ _ _ _ _ Hp).
  eapply logs_only_trans; [exact Hl|].
  apply IH. intros q Hq. apply Hin. now right.
Qed.

(** X15: every opportunity a scan returns (and stores in the ledger) is a
    trade of exactly one unit of the base token, in one of the two
    directions, on a configured network that has a provider, for the two
    tokens of a configured trading pair. *)
Theorem scan_results_trade_one_unit_on_configured_routes
    (env : Env) (w : World) :
  exists l w',
    Service.findArbitrageOpportunities env w = (Normal l, w') /\
    ledger w' = l /\
    Forall (scan_shaped (config env)) l.
Proof.
  destruct (findArbitrageOpportunities_eq env w)
    as (new & w' & Hfind & Hc & Hl).
  exists (array_sort Service.compare (List.filter profitable new)), w'.
  split; [exact Hfind|]. split; [exact Hl|].
  assert (Hnew : Forall (scan_shaped (config env)) new).
  { pose proof (scan_pairs_logs env (tradingPairs (config env))
                  (set_scanning [] w) (fun p Hp => Hp)) as (new' & Hc' & HF).
    unfold Service.findArbitrageOpportunities in Hfind.
    unfold bind at 1 in Hfind. cbn beta iota in Hfind.
    destruct (scan_pairs_step env (tradingPairs (config env))
                (set_scanning [] w)) as (n0 & Hr & _).
    destruct (Service.scan_pairs env (tradingPairs (config env))
                (set_scanning [] w)) as [r w1] eqn:Escan.
    cbn in Hr, Hc'. subst r.
    rewrite (bind_normal _ _ _ _ _ Escan) in Hfind.
    apply (f_equal snd) in Hfind. cbn [snd] in Hfind.
    rewrite <- Hfind in Hc. cbn in Hc.
    rewrite Hc' in Hc. apply app_inv_head in Hc. now subst new'. }
  apply List.Forall_forall. intros o Ho.
  rewrite List.Forall_forall in Hnew. apply Hnew.
  apply (proj1 (List.filter_In profitable o new)).
  eapply Permutation_in; [apply array_sort_perm | exact Ho].
Qed.

End ScanShape.

(* ===================================================================== *)
(** ** The strategy: what it returns and what it would execute *)
(* ===================================================================== *)

Section StrategyResults.
Local Open Scope Q_scope.

Lemma gas_or_default_nonzero (table : gmap string Q) (network : string)
    (g : Q) :
  gas_or_default table network = BN g -> ~ g == 0.
Proof.
  unfold gas_or_default, get_property.
  destruct (table !! network) as [g0|].
  - intros H. injection H as <-.
    destruct (Qeq_bool g0 0) eqn:E; [discriminate|].
    intros Hz. apply Qeq_bool_iff in Hz. congruence.
  - destruct (is_prototype_name network); [discriminate|].
    intros H. injection H as <-. discriminate.
Qed.

(** One call of [calculateSpread] the way the strategy makes it. *)
Lemma strategy_spread (this : Strategy.t) (dexPrices : gmap string BigNumber)
    (now : Z) (buyPrice sellPrice buyFee sellFee : Q) (network : string)
    (baseToken quoteToken : option string) (direction : string) :
  In network (Strategy.networkPriority this) ->
  is_Some (dexPrices !! network) ->
  exists r,
    Strategy.calculateSpread now (BN buyPrice) (BN sellPrice)
      (Strategy.spread_options buyFee sellFee
         (gas_or_default (Strategy.gasCosts this) network) network
         baseToken quoteToken direction) = Normal r /\
    (JS.gt (Strategy.profitPercentage r) (Strategy.minProfitPercentage this)
       = true -> strategy_result this dexPrices r).
Proof.
  intros Hin Hsome.
  set (options := Strategy.spread_options buyFee sellFee
                    (gas_or_default (Strategy.gasCosts this) network) network
                    baseToken quoteToken direction).
  assert (Hopt : gasCost_of options
                 = gas_or_default (Strategy.gasCosts this) network)
    by reflexivity.
  destruct (gas_or_default_cases (Strategy.gasCosts this) network)
    as [Hnan | [g Hg]].
  { destruct (calculateSpread_costs now buyPrice sellPrice options)
      as (r & tbc & tsp & raw & Hr & _ & _ & _ & Hpag & _ & Hpp & _).
    exists r. split; [exact Hr|].
    rewrite Hopt, Hnan in Hpag. rewrite Hpp, Hpag. discriminate. }
  rewrite Hg in Hopt.
  destruct (calculateSpread_fields now buyPrice sellPrice options g Hopt)
    as (r & tbc & tsp & raw & pag & Hr & _ & _ & _ & Hpag & Hgas & _).
  exists r. split; [exact Hr|]. intros Hgt.
  assert (Hn : Strategy.network r = network).
  { unfold Strategy.calculateSpread in Hr. inversion Hr. reflexivity. }
  unfold strategy_result. rewrite Hn.
  split; [exact Hin|]. split; [exact Hsome|]. split; [exact Hgt|].
  exists pag, g.
  split; [exact Hpag|]. split; [exact Hgas|].
  split; [exact (gas_or_default_nonzero _ _ _ Hg)|].
  unfold Strategy.shouldExecute, JS.lt. rewrite (gt_asym _ _ Hgt).
  rewrite Hpag, Hgas, times_finite. cbn [BigNumber.isLessThan].
  destruct (Qle_bool (Qred (g * 3)) pag) eqn:E; cbn [negb].
  - apply Qle_bool_iff in E. rewrite Qred_correct in E.
    split; [intros _; lra | reflexivity].
  - split; [discriminate|]. intros H.
    assert (E' : Qle_bool (Qred (g * 3)) pag = true).
    { apply Qle_bool_iff. rewrite Qred_correct. lra. }
    congruence.
Qed.

(** A price that reads as NaN yields nothing. *)
Lemma evaluate_price_nan (this : Strategy.t) (bid ask : BigNumber)
    (baseToken quoteToken : option string) (network : string) (w : World) :
  exists w',
    Strategy.evaluate_price this bid ask BN_NaN baseToken quoteToken
      network w = (Normal [], w').
Proof.
  eexists. unfold Strategy.evaluate_price, bind, date_now, lift, ret.
  cbn [Strategy.calculateSpread]. unfold Strategy.calculateSpread.
  cbn [Strategy.profitPercentage].
  assert (H1 : forall x y z : BigNumber,
            BigNumber.toNumber
              (Strategy.percentage (BN_NaN -! y -! z) x) = NaN)
    by reflexivity.
  assert (H2 : forall x y z : BigNumber,
            BigNumber.toNumber
              (Strategy.percentage (x -! BN_NaN -! z) y) = NaN).
  { intros x y z. destruct x; reflexivity. }
  cbn [Strategy.spread_options Strategy.opt_buyFee Strategy.opt_sellFee
       Strategy.opt_gasCost Strategy.opt_tradeSize default_to].
  change (BN_NaN *! BN 1) with BN_NaN.
  change (BN_NaN *! BN (Strategy.dexFee this)) with BN_NaN.
  change (BN_NaN *! BN (Strategy.cexFee this)) with BN_NaN.
  change (BN_NaN -! BN_NaN) with BN_NaN.
  change (BN_NaN +! BN_NaN) with BN_NaN.
  rewrite H1, H2. reflexivity.
Qed.

Lemma evaluate_network_results (this : Strategy.t) (bid ask : Q)
    (dexPrices : gmap string BigNumber) (baseToken quoteToken : option string)
    (network : string) (w : World) :
  finite_prices dexPrices ->
  In network (Strategy.networkPriority this) ->
  exists found w',
    Strategy.evaluate_network this (BN bid) (BN ask) dexPrices baseToken
      quoteToken network w = (Normal found, w') /\
    Forall (strategy_result this dexPrices) found.
Proof.
  intros Hfin Hin. unfold Strategy.evaluate_network, get_property.
  destruct (dexPrices !! network) as [dexPrice|] eqn:Edex.
  2:{ destruct (is_prototype_name network).
      - destruct (evaluate_price_nan this (BN bid) (BN ask) baseToken
                    quoteToken network w) as (w' & H).
        exists [], w'. split; [exact H | constructor].
      - do 2 eexists; split; [reflexivity | constructor]. }
  destruct (Hfin _ _ Edex) as (dq & ->).
  assert (Hsome : is_Some (dexPrices !! network)) by (rewrite Edex; eauto).
  unfold Strategy.evaluate_price.
  set (w1 := set_reads (S (reads w)) w).
  destruct (strategy_spread this dexPrices (clock w (reads w)) ask dq
              (Strategy.cexFee this) (Strategy.dexFee this) network
              baseToken quoteToken "cexToDex" Hin Hsome) as (r1 & Hr1 & P1).
  set (w2 := set_reads (S (reads w1)) w1).
  destruct (strategy_spread this dexPrices (clock w1 (reads w1)) dq bid
              (Strategy.dexFee this) (Strategy.cexFee this) network
              baseToken quoteToken "dexToCex" Hin Hsome) as (r2 & Hr2 & P2).
  assert (H1 : date_now w = (Normal (clock w (reads w)), w1)) by reflexivity.
  rewrite (bind_normal _ _ _ _ _ H1).
  assert (L1 : lift (Strategy.calculateSpread (clock w (reads w)) (BN ask)
                       (BN dq)
                       (Strategy.spread_options (Strategy.cexFee this)
                          (Strategy.dexFee this)
                          (gas_or_default (Strategy.gasCosts this) network)
                          network baseToken quoteToken "cexToDex")) w1
               = (Normal r1, w1)) by (unfold lift; now rewrite Hr1).
  rewrite (bind_normal _ _ _ _ _ L1).
  assert (H2 : date_now w1 = (Normal (clock w1 (reads w1)), w2))
    by reflexivity.
  rewrite (bind_normal _ _ _ _ _ H2).
  assert (L2 : lift (Strategy.calculateSpread (clock w1 (reads w1)) (BN dq)
                       (BN bid)
                       (Strategy.spread_options (Strategy.dexFee this)
                          (Strategy.cexFee this)
                          (gas_or_default (Strategy.gasCosts this) network)
                          network baseToken quoteToken "dexToCex")) w2
               = (Normal r2, w2)) by (unfold lift; now rewrite Hr2).
  rewrite (bind_normal _ _ _ _ _ L2).
  do 2 eexists. split; [reflexivity|].
  apply Forall_app. split.
  - destruct (JS.gt (Strategy.profitPercentage r1) _) eqn:E;
      [constructor; [now apply P1 | constructor] | constructor].
  - destruct (JS.gt (Strategy.profitPercentage r2) _) eqn:E;
      [constructor; [now apply P2 | constructor] | constructor].
Qed.

Lemma evaluate_networks_results (this : Strategy.t) (bid ask : Q)
    (dexPrices : gmap string BigNumber) (baseToken quoteToken : option string)
    (nets : list string) (w : World) :
  finite_prices dexPrices ->
  (forall n, In n nets -> In n (Strategy.networkPriority this)) ->
  exists found w',
    Strategy.evaluate_networks this (BN bid) (BN ask) dexPrices baseToken
      quoteToken nets w = (Normal found, w') /\
    Forall (strategy_result this dexPrices) found.
Proof.
  intros Hfin. revert w. induction nets as [| n rest IH]; intros w Hin.
  - do 2 eexists. split; [reflexivity | constructor].
  - destruct (evaluate_network_results this bid ask dexPrices baseToken
                quoteToken n w Hfin (Hin n (or_introl eq_refl)))
      as (f1 & w1 & H1 & F1).
    destruct (IH w1 (fun m Hm => Hin m (or_intror Hm)))
      as (f2 & w2 & H2 & F2).
    exists (f1 ++ f2), w2. split.
    + cbn [Strategy.evaluate_networks].
      rewrite (bind_normal _ _ _ _ _ H1), (bind_normal _ _ _ _ _ H2).
      reflexivity.
    + apply Forall_app. now split.
Qed.

(** X16: on finite prices, every result [evaluateArbitrageOpportunities]
    returns is for a network of the priority list that has a DEX price,
    has a percentage above the strategy's minimum and a gas cost that is
    never zero, and [shouldExecute] accepts it exactly when its profit
    after gas is at least three times its gas cost. *)
Theorem evaluated_result_executes_iff_profit_covers_three_times_gas
    (this : Strategy.t) (bid ask : Q) (dexPrices : gmap string BigNumber)
    (baseToken quoteToken : option string) (w : World) :
  finite_prices dexPrices ->
  exists l w',
    Strategy.evaluateArbitrageOpportunities this (Some (BN bid, BN ask))
      (Some dexPrices) baseToken quoteToken w = (Normal l, w') /\
    Forall (strategy_result this dexPrices) l.
Proof.
  intros Hfin. unfold Strategy.evaluateArbitrageOpportunities.
  destruct (evaluate_networks_results this bid ask dexPrices baseToken
              quoteToken (Strategy.networkPriority this) w Hfin
              (fun n Hn => Hn)) as (found & w' & Hev & HF).
  rewrite (bind_normal _ _ _ _ _ Hev).
  do 2 eexists. split; [reflexivity|].
  apply List.Forall_forall. intros r Hr.
  rewrite List.Forall_forall in HF. apply HF.
  eapply Permutation_in; [apply array_sort_perm | exact Hr].
Qed.

Lemma evaluated_result_executes_iff_profit_covers_three_times_gas_witness :
  exists l w',
    Strategy.evaluateArbitrageOpportunities default_strategy
      (Some (BN 100, BN 101)) (Some {[ "optimism" := BN 103 ]})
      (Some "WBTC") (Some "USDT") sample_world = (Normal l, w') /\
    Forall (strategy_result default_strategy {[ "optimism" := BN 103 ]}) l.
Proof.
  apply (evaluated_result_executes_iff_profit_covers_three_times_gas
           default_strategy 100 101 {[ "optimism" := BN 103 ]}
           (Some "WBTC") (Some "USDT") sample_world).
  intros network p Hp. apply lookup_singleton_Some in Hp as [_ <-].
  now exists 103.
Defined.

End StrategyResults.

(* ===================================================================== *)
(** ** The API routes that reach the engine *)
(* ===================================================================== *)

Section ApiRoutes.

Lemma find_first {A} (f : A -> bool) (l : list A) :
  match List.find f l with
  | Some x => exists before after,
                l = before ++ x :: after /\ f x = true /\
                Forall (fun y => f y = false) before
  | None => Forall (fun y => f y = false) l
  end.
Proof.
  induction l as [| a l IH]; cbn [List.find]; [constructor|].
  destruct (f a) eqn:Ea.
  - exists [], l. repeat split; [exact Ea | constructor].
  - destruct (List.find f l) as [x|].
    + destruct IH as (before & after & -> & Hx & HF).
      exists (a :: before), after. repeat split; [exact Hx|].
      constructor; assumption.
    + constructor; assumption.
Qed.

Lemma post_execute_outcome (env : Env) (id : Api.BodyId) (w : World) :
  exists resp w',
    Api.post_execute env id w = (Normal resp, w') /\
    execute_outcome env id w resp w'.
Proof.
  destruct id as [| | n]; cbn [Api.post_execute].
  - exists (Api.Failure 400), w. split; [reflexivity|].
    split; [reflexivity | left; now split].
  - exists (Api.Failure 404), w. split; [reflexivity|].
    split; [reflexivity | right].
    split; [reflexivity|]. split; [discriminate | discriminate].
  - unfold bind, Service.getArbitrageOpportunities. unfold Api.find_opportunity.
    pose proof (find_first (fun o => (Opportunity.timestamp o =? n)%Z)
                  (ledger w)) as Hfind.
    destruct (List.find _ (ledger w)) as [o|].
    + destruct Hfind as (before & after & Hl & Ho & HF).
      destruct (executeArbitrage_returns env o w) as (b & w' & Hex).
      exists (Api.Json (b, o)), w'. split.
      * unfold try_catch, bind. rewrite Hex. reflexivity.
      * exists n, before, after. split; [reflexivity|].
        split; [exact Hl|]. split; [now apply Z.eqb_eq|].
        split; [|exact Hex].
        eapply List.Forall_impl; [|exact HF]. cbn beta.
        intros x Hx. now apply Z.eqb_neq.
    + exists (Api.Failure 404), w. split; [reflexivity|].
      split; [reflexivity | right].
      split; [reflexivity|]. split; [discriminate|].
      intros m Hm. injection Hm as <-.
      eapply List.Forall_impl; [|exact Hfind]. cbn beta.
      intros x Hx. now apply Z.eqb_neq.
Qed.

Lemma execute_outcome_not_500 (env : Env) (id : Api.BodyId) (w w' : World)
    (resp : Api.Response (bool * Opportunity.t)) :
  execute_outcome env id w resp w' -> resp <> Api.Failure 500%Z.
Proof.
  intros H E. subst resp. cbn in H.
  destruct H as (_ & [(H & _) | (H & _)]); discriminate.
Qed.

(** X17: a request to the execute route never throws.  It is answered
    with status 500 exactly when the body cannot be read: the JSON
    middleware rejects it, or leaves [req.body] undefined, so that the
    destructuring before the try block throws; nothing is touched then.
    With a body that was read: without an id it answers 400, with an id
    that no ledger entry carries 404, in both cases without touching
    anything; otherwise it executes the first ledger entry whose
    timestamp is the id, and answers with that entry and the boolean
    [executeArbitrage] returned, which is always false. *)
Theorem execute_route_runs_the_first_entry_with_that_timestamp
    (env : Env) (body : Api.Body) (w : World) :
  exists resp w',
    Api.request_execute env body w = (Normal resp, w') /\
    (resp = Api.Failure 500%Z <->
     body = Api.BodyRejected \/ body = Api.BodyUndefined) /\
    match body with
    | Api.BodyParsed id => execute_outcome env id w resp w'
    | _ => w' = w
    end /\
    (forall result o, resp = Api.Json (result, o) -> result = false).
Proof.
  destruct body as [| | id]; cbn [Api.request_execute].
  - exists (Api.Failure 500), w. split; [reflexivity|].
    split; [split; auto|]. split; [reflexivity | discriminate].
  - exists (Api.Failure 500), w. split; [reflexivity|].
    split; [split; auto|]. split; [reflexivity | discriminate].
  - destruct (post_execute_outcome env id w) as (resp & w' & H & Hout).
    exists resp, w'. split; [exact H|]. split; [|split; [exact Hout|]].
    + split.
      * intros E. exfalso. exact (execute_outcome_not_500 _ _ _ _ _ Hout E).
      * intros [E | E]; discriminate.
    + intros result o ->. cbn in Hout.
      destruct Hout as (n & before & after & _ & _ & _ & _ & Hex).
      destruct (executeArbitrage_calls env o w) as (w2 & Hfalse & _).
      rewrite Hfalse in Hex. now injection Hex as <-.
Qed.

Lemma handlers_answer (env : Env) (w : World) :
  (forall network baseToken quoteToken,
     answered (Api.get_dex_price env network baseToken quoteToken w)) /\
  answered (Api.post_find env w) /\
  (forall id, answered (Api.post_execute env id w)).
Proof.
  split; [|split].
  - intros network baseToken quoteToken.
    unfold answered, Api.get_dex_price, try_catch, bind.
    destruct (getDexPrice_returns env network baseToken (Some quoteToken) w)
      as (p & Hp).
    destruct (Service.getDexPrice env network baseToken (Some quoteToken) w)
      as [r w1]. cbn in Hp. subst r.
    destruct p as [price|]; cbn; eexists; (split; [reflexivity | discriminate]).
  - unfold answered, Api.post_find, try_catch, bind.
    destruct (findArbitrageOpportunities_eq env w) as (new & w' & Hfind & _).
    rewrite Hfind. cbn. eexists. split; [reflexivity | discriminate].
  - intros id. unfold answered.
    destruct (post_execute_outcome env id w) as (resp & w' & H & Hout).
    exists resp. rewrite H. split; [reflexivity|].
    exact (execute_outcome_not_500 _ _ _ _ _ Hout).
Qed.

(** X18: the three routes that wrap the engine in try/catch never reach
    their catch block: once a handler runs on a body that was read, it
    answers, and never with status 500, because the engine functions it
    calls turn every error into a value.  A request is answered with
    status 500 all the same, by the error handler of the application,
    exactly when the JSON middleware rejects its body (for the execute
    route also when it leaves the body undefined). *)
Theorem routes_answer_500_only_for_an_unreadable_body
    (env : Env) (body : Api.Body) (w : World) :
  (forall network baseToken quoteToken,
     answered (Api.get_dex_price env network baseToken quoteToken w) /\
     exists resp,
       fst (Api.request_dex_price env body network baseToken quoteToken w)
         = Normal resp /\
       (resp = Api.Failure 500%Z <-> body = Api.BodyRejected)) /\
  (answered (Api.post_find env w) /\
   exists resp,
     fst (Api.request_find env body w) = Normal resp /\
     (resp = Api.Failure 500%Z <-> body = Api.BodyRejected)) /\
  ((forall id, answered (Api.post_execute env id w)) /\
   exists resp,
     fst (Api.request_execute env body w) = Normal resp /\
     (resp = Api.Failure 500%Z <->
      body = Api.BodyRejected \/ body = Api.BodyUndefined)).
Proof.
  destruct (handlers_answer env w) as (Hprice & Hfind & Hexec).
  split; [|split].
  - intros network baseToken quoteToken. split; [apply Hprice|].
    destruct (Hprice network baseToken quoteToken) as (resp & Hr & Hne).
    destruct body; cbn [Api.request_dex_price Api.through_json];
      try (exists resp; split; [exact Hr|];
           split; [intros E; contradiction | discriminate]).
    eexists. split; [reflexivity|]. split; reflexivity.
  - split; [exact Hfind|].
    destruct Hfind as (resp & Hr & Hne).
    destruct body; cbn [Api.request_find Api.through_json];
      try (exists resp; split; [exact Hr|];
           split; [intros E; contradiction | discriminate]).
    eexists. split; [reflexivity|]. split; reflexivity.
  - split; [exact Hexec|].
    destruct body as [| | id]; cbn [Api.request_execute].
    + eexists. split; [reflexivity|]. split; auto.
    + eexists. split; [reflexivity|]. split; auto.
    + destruct (Hexec id) as (resp & Hr & Hne).
      exists resp. split; [exact Hr|].
      split; [intros E; contradiction | intros [E | E]; discriminate].
Qed.

End ApiRoutes.

(* ===================================================================== *)
(** ** initialize, start and stop *)
(* ===================================================================== *)

Section ServiceLifecycle.

Lemma lifecycle_step (c : Lifecycle.Call) (s : Lifecycle.t) :
  (Lifecycle.running s = true ->
   Lifecycle.initialized s = true /\ (1 <= Lifecycle.launched s)%nat) ->
  (Lifecycle.running (Lifecycle.call c s) = true ->
   Lifecycle.initialized (Lifecycle.call c s) = true /\
   (1 <= Lifecycle.launched (Lifecycle.call c s))%nat) /\
  (Lifecycle.initialized s = true ->
   Lifecycle.initialized (Lifecycle.call c s) = true) /\
  (Lifecycle.launched s <= Lifecycle.launched (Lifecycle.call c s))%nat.
Proof.
  intros Inv. destruct s as [i r l]. cbn in Inv.
  destruct c as [b u | |]; [destruct b, u | destruct i, r |]; cbn;
    intuition (try congruence; try lia).
Qed.

Lemma lifecycle_running (cs : list Lifecycle.Call) :
  Lifecycle.running (Lifecycle.calls cs Lifecycle.constructed) = true ->
  Lifecycle.initialized (Lifecycle.calls cs Lifecycle.constructed) = true /\
  (1 <= Lifecycle.launched (Lifecycle.calls cs Lifecycle.constructed))%nat.
Proof.
  unfold Lifecycle.calls.
  induction cs as [| c cs IH] using rev_ind; [discriminate|].
  rewrite foldl_app. cbn [foldl]. apply (lifecycle_step c _ IH).
Qed.

(** X19: whatever sequence of [initialize], [start] and [stop] calls is
    made on a new service, it is running only if it is initialized and a
    loop was launched; once initialized it stays initialized whatever is
    called later (a failed [initialize] does not clear the flag), the
    number of loops launched never decreases, and [start] on a service
    that is not initialized throws and changes nothing. *)
Theorem service_runs_only_when_initialized (cs more : list Lifecycle.Call) :
  let s := Lifecycle.calls cs Lifecycle.constructed in
  let s' := Lifecycle.calls (cs ++ more) Lifecycle.constructed in
  (Lifecycle.running s = true ->
   Lifecycle.initialized s = true /\ (1 <= Lifecycle.launched s)%nat) /\
  (Lifecycle.initialized s = true -> Lifecycle.initialized s' = true) /\
  (Lifecycle.launched s <= Lifecycle.launched s')%nat /\
  (Lifecycle.initialized s = false ->
   Lifecycle.start s = (Throw "Arbitrage Service not initialized", s)).
Proof.
  cbn zeta. split; [apply lifecycle_running|].
  split; [|split].
  - induction more as [| c more IH] using rev_ind;
      [now rewrite app_nil_r|].
    intros Hi. specialize (IH Hi).
    rewrite app_assoc. unfold Lifecycle.calls in *.
    rewrite foldl_app. cbn [foldl].
    apply (lifecycle_step c _ (lifecycle_running (cs ++ more))).
    exact IH.
  - induction more as [| c more IH] using rev_ind;
      [now rewrite app_nil_r|].
    rewrite app_assoc. unfold Lifecycle.calls in *.
    rewrite foldl_app. cbn [foldl].
    etransitivity; [exact IH|].
    apply (lifecycle_step c _ (lifecycle_running (cs ++ more))).
  - intros Hi. unfold Lifecycle.start. now rewrite Hi.
Qed.

End ServiceLifecycle.

(* ===================================================================== *)
(** ** The market order of an execution *)
(* ===================================================================== *)

Section OrderOfAnExecution.

Lemma executeTrade_dex_events (env : Env) (network action baseToken : string)
    (quoteToken : option string) (amount : BigNumber) (slippage : number) :
  respects (extends_trace dex_event)
    (Uniswap.executeTrade env network action baseToken quoteToken amount
       slippage).
Proof.
  apply (respects_executeTrade _ (extends_refl _) (extends_trans _) dex_event
           (extends_date_now _) (extends_emit _)). trivial.
Qed.

Lemma order_placed (env : Env) (symbol : string) (side : Side)
    (quantity : BigNumber) (w : World) :
  snd (try_catch (perform (EvOrder symbol side quantity) (answer_order env))
         (fun error => throw error) w)
  = set_trace (trace w ++ [EvOrder symbol side quantity]) w.
Proof.
  unfold try_catch. rewrite perform_eq.
  destruct (answer_order env _); reflexivity.
Qed.

(** X20: an execution never throws and places at most one market order,
    on the symbol of the opportunity: for dexToCex a sale of the trade
    amount as it is, placed after the calls to the DEX; otherwise a
    purchase of the trade amount rounded down by [normalizeQuantity],
    placed before any call to the DEX.  Every other call is a call to
    the DEX, and a run that returns true has placed the order. *)
Theorem executeArbitrage_places_at_most_one_order
    (env : Env) (o : Opportunity.t) (w : World) :
  exists b w' dex1 ord dex2,
    Service.executeArbitrage env o w = (Normal b, w') /\
    trace w' = trace w ++ dex1 ++ ord ++ dex2 /\
    Forall dex_event dex1 /\ Forall dex_event dex2 /\
    (ord = [] \/ exists e, order_of env o = Normal e /\ ord = [e]) /\
    (b = true -> ord <> []) /\
    (if String.eqb (Opportunity.direction o) "dexToCex"
     then dex2 = [] else dex1 = []).
Proof.
  unfold order_of.
  destruct (String.eqb (Opportunity.direction o) "dexToCex") eqn:Edir.
  - (* buy on the DEX, then sell on the CEX *)
    pose proof (executeTrade_dex_events env (Opportunity.network o) "buy"
                  (Opportunity.baseToken o) (Opportunity.quoteToken o)
                  (Opportunity.tradeAmount o)
                  (maxSlippagePercentage (config env)) w) as (t1 & Ht1 & F1).
    destruct (Uniswap.executeTrade env (Opportunity.network o) "buy"
                (Opportunity.baseToken o) (Opportunity.quoteToken o)
                (Opportunity.tradeAmount o)
                (maxSlippagePercentage (config env)) w)
      as [[r | e] w1] eqn:Etrade; cbn [snd] in Ht1.
    + assert (H1 : Service.leg1 env o w = (Normal (Service.DexResult r), w1)).
      { unfold Service.leg1. rewrite Edir.
        now rewrite (bind_normal _ _ _ _ _ Etrade). }
      pose proof (order_placed env (Service.binanceSymbol_of o) SELL
                    (Opportunity.tradeAmount o) w1) as Hord.
      destruct (Binance.executeSell env (Service.binanceSymbol_of o)
                  (Opportunity.tradeAmount o) w1) as [[id | e] w2] eqn:Esell;
        unfold Binance.executeSell in Esell; rewrite Esell in Hord;
        cbn [snd] in Hord; fold (Binance.executeSell env
          (Service.binanceSymbol_of o) (Opportunity.tradeAmount o)) in Esell.
      * assert (H2 : Service.leg2 env o w1
                     = (Normal (Service.CexResult id), w2)).
        { unfold Service.leg2. rewrite Edir.
          now rewrite (bind_normal _ _ _ _ _ Esell). }
        exists true, w2, t1, [EvOrder (Service.binanceSymbol_of o) SELL
                                (Opportunity.tradeAmount o)], [].
        split; [exact (executeArbitrage_both_legs _ _ _ _ _ _ _ H1 H2)|].
        split; [subst w2; cbn [trace set_trace];
                now rewrite Ht1, app_nil_r, app_assoc|].
        split; [exact F1|]. split; [constructor|].
        split; [right; eexists; split; reflexivity|].
        split; [discriminate | reflexivity].
      * assert (H2 : Service.leg2 env o w1 = (Throw e, w2)).
        { unfold Service.leg2. rewrite Edir. now apply bind_throw. }
        exists false, w2, t1, [EvOrder (Service.binanceSymbol_of o) SELL
                                 (Opportunity.tradeAmount o)], [].
        split; [exact (executeArbitrage_leg2_throws _ _ _ _ _ _ _ H1 H2)|].
        split; [subst w2; cbn [trace set_trace];
                now rewrite Ht1, app_nil_r, app_assoc|].
        split; [exact F1|]. split; [constructor|].
        split; [right; eexists; split; reflexivity|].
        split; [discriminate | reflexivity].
    + assert (H1 : Service.leg1 env o w = (Throw e, w1)).
      { unfold Service.leg1. rewrite Edir. now apply bind_throw. }
      exists false, w1, t1, [], [].
      split; [exact (executeArbitrage_leg1_throws _ _ _ _ _ H1)|].
      split; [now rewrite Ht1, !app_nil_r|].
      split; [exact F1|]. split; [constructor|].
      split; [now left|]. split; [discriminate | reflexivity].
  - (* buy on the CEX, then sell on the DEX *)
    destruct (Binance.normalizeQuantity (symbolInfo env)
                (Service.binanceSymbol_of o) (Opportunity.tradeAmount o))
      as [quantity | e] eqn:Enorm.
    + pose proof (order_placed env (Service.binanceSymbol_of o) BUY
                    quantity w) as Hord.
      destruct (Binance.executeBuy env (Service.binanceSymbol_of o)
                  quantity w) as [[id | e] w1] eqn:Ebuy;
        unfold Binance.executeBuy in Ebuy; rewrite Ebuy in Hord;
        cbn [snd] in Hord; fold (Binance.executeBuy env
          (Service.binanceSymbol_of o) quantity) in Ebuy.
      * assert (H1 : Service.leg1 env o w
                     = (Normal (Service.CexResult id), w1)).
        { unfold Service.leg1. rewrite Edir, Enorm.
          unfold lift, bind at 1. cbn beta iota.
          now rewrite (bind_normal _ _ _ _ _ Ebuy). }
        pose proof (executeTrade_dex_events env (Opportunity.network o)
                      "sell" (Opportunity.baseToken o)
                      (Opportunity.quoteToken o) (Opportunity.tradeAmount o)
                      (maxSlippagePercentage (config env)) w1)
          as (t2 & Ht2 & F2).
        destruct (Uniswap.executeTrade env (Opportunity.network o) "sell"
                    (Opportunity.baseToken o) (Opportunity.quoteToken o)
                    (Opportunity.tradeAmount o)
                    (maxSlippagePercentage (config env)) w1)
          as [[r | e] w2] eqn:Etrade; cbn [snd] in Ht2.
        -- assert (H2 : Service.leg2 env o w1
                        = (Normal (Service.DexResult r), w2)).
           { unfold Service.leg2. rewrite Edir.
             now rewrite (bind_normal _ _ _ _ _ Etrade). }
           exists true, w2, [],
             [EvOrder (Service.binanceSymbol_of o) BUY quantity], t2.
           split; [exact (executeArbitrage_both_legs _ _ _ _ _ _ _ H1 H2)|].
           split; [rewrite Ht2; subst w1; cbn [trace set_trace app];
                   now rewrite <- app_assoc|].
           split; [constructor|]. split; [exact F2|].
           split; [right; eexists; split; reflexivity|].
           split; [discriminate | reflexivity].
        -- assert (H2 : Service.leg2 env o w1 = (Throw e, w2)).
           { unfold Service.leg2. rewrite Edir. now apply bind_throw. }
           exists false, w2, [],
             [EvOrder (Service.binanceSymbol_of o) BUY quantity], t2.
           split; [exact (executeArbitrage_leg2_throws _ _ _ _ _ _ _ H1 H2)|].
           split; [rewrite Ht2; subst w1; cbn [trace set_trace app];
                   now rewrite <- app_assoc|].
           split; [constructor|]. split; [exact F2|].
           split; [right; eexists; split; reflexivity|].
           split; [discriminate | reflexivity].
      * assert (H1 : Service.leg1 env o w = (Throw e, w1)).
        { unfold Service.leg1. rewrite Edir, Enorm.
          unfold lift, bind at 1. cbn beta iota. now apply bind_throw. }
        exists false, w1, [],
          [EvOrder (Service.binanceSymbol_of o) BUY quantity], [].
        split; [exact (executeArbitrage_leg1_throws _ _ _ _ _ H1)|].
        split; [subst w1; cbn [trace set_trace app]; reflexivity|].
        split; [constructor|]. split; [constructor|].
        split; [right; eexists; split; reflexivity|].
        split; [discriminate | reflexivity].
    + assert (H1 : Service.leg1 env o w = (Throw e, w)).
      { unfold Service.leg1. rewrite Edir, Enorm. reflexivity. }
      exists false, w, [], [], [].
      split; [exact (executeArbitrage_leg1_throws _ _ _ _ _ H1)|].
      split; [now rewrite !app_nil_r|].
      split; [constructor|]. split; [constructor|].
      split; [now left|]. split; [discriminate | reflexivity].
Qed.

End OrderOfAnExecution.

(* ===================================================================== *)
(** ** The price the DEX adapter returns *)
(* ===================================================================== *)

Section DexPrice.

(** The decimals of a token: 6, 8 or 18, unless the name is inherited. *)
Lemma getTokenDecimals_values (symbol : option string) :
  is_prototype_name (render symbol) = false ->
  Uniswap.getTokenDecimals symbol = Some 6%N \/
  Uniswap.getTokenDecimals symbol = Some 8%N \/
  Uniswap.getTokenDecimals symbol = Some 18%N.
Proof.
  intros Hp. unfold Uniswap.getTokenDecimals, get_property. rewrite Hp.
  destruct (Uniswap.decimalMap !! render symbol) as [d|] eqn:E;
    [|right; right; reflexivity].
  apply elem_of_list_to_map_2 in E.
  repeat (apply elem_of_cons in E as [E | E];
          [injection E as _ ->; vm_compute;
           first [ left; reflexivity | right; left; reflexivity
                 | right; right; reflexivity ]|]).
  inversion E.
Qed.

(** X21: [getPrice] never returns a price.  On either release of ethers
    it throws, before it asks the venue anything and before it reads the
    clock, whatever the adapter, the network and the tokens are.  When
    the adapter is initialized and the network lists both tokens, the
    error is that of the missing library function: [ethers.parseUnits]
    on release 5 and, after one unit of the base token has been parsed
    with its 6, 8 or 18 decimals, [ethers.BigNumber] on release 6. *)
Theorem getPrice_never_returns_a_price
    (env : Env) (network baseToken : string) (quoteToken : option string)
    (w : World) :
  (exists e,
     Uniswap.getPrice env network baseToken quoteToken w = (Throw e, w)) /\
  (uniswap_initialized env = true ->
   forall base quote,
     Uniswap.getTokenAddress env network (Some baseToken) = Normal base ->
     Uniswap.getTokenAddress env network quoteToken = Normal quote ->
     (ethers env = Ethers5 ->
      Uniswap.getPrice env network baseToken quoteToken w
        = (Throw "ethers.parseUnits is not a function", w)) /\
     (ethers env = Ethers6 ->
      is_prototype_name baseToken = false ->
      (exists d,
         Uniswap.getTokenDecimals (Some baseToken) = Some d /\
         (d = 6 \/ d = 8 \/ d = 18)%N /\
         Uniswap.parseUnits (BN 1) (Some d) = Normal (10 ^ Z.of_N d)%Z) /\
      Uniswap.getPrice env network baseToken quoteToken w
        = (Throw "Cannot read properties of undefined (reading 'from')",
           w))) /\
  Uniswap.getPrice (sample_env true (Normal 42%Z)) "optimism" "WBTC"
    (Some "USDT") sample_world
  = (Throw "Cannot read properties of undefined (reading 'from')",
     sample_world).
Proof.
  split; [apply getPrice_throws|]. split; [|reflexivity].
  intros Hinit base quote Hbase Hquote.
  unfold Uniswap.getPrice, try_catch, bind, lift, ret, throw.
  rewrite Hinit, Hbase, Hquote.
  unfold Uniswap.ethers_parseUnits, Uniswap.ethers_BigNumber_from.
  split.
  - intros ->. reflexivity.
  - intros -> Hp.
    destruct (getTokenDecimals_values (Some baseToken) Hp)
      as [E | [E | E]]; rewrite E.
    + split; [|reflexivity]. exists 6%N. repeat split; auto.
    + split; [|reflexivity]. exists 8%N. repeat split; auto.
    + split; [|reflexivity]. exists 18%N. repeat split; auto.
Qed.

End DexPrice.

(* ===================================================================== *)
(** ** The cache key and the loop *)
(* ===================================================================== *)

Section CacheKeyAndLoop.

Lemma append_cons (c : ascii) (a x : string) :
  String.append (String c a) x = String c (String.append a x).
Proof. reflexivity. Qed.

Lemma append_inj_l (a x y : string) :
  String.append a x = String.append a y -> x = y.
Proof.
  induction a as [| c a IH]; intros H; [exact H|].
  rewrite !append_cons in H. injection H as H. now apply IH.
Qed.

Lemma append_sep_inj (sep : ascii) (a b x y : string) :
  free_of sep a -> free_of sep b ->
  String.append a (String sep x) = String.append b (String sep y) ->
  a = b /\ x = y.
Proof.
  intros Ha Hb H.
  assert (Hab : a = b).
  { apply (f_equal (split_on sep)) in H.
    rewrite (split_on_app sep a x Ha), (split_on_app sep b y Hb) in H.
    now injection H. }
  subst b. split; [reflexivity|].
  apply append_inj_l in H. now injection H.
Qed.

(** X22: two lookups use the same cache key only for the same network,
    base token and printed quote token, as long as the network names hold
    no colon and the base tokens no hyphen: the cache never serves the
    price of another pair or another network. *)
Theorem cacheKey_injective
    (network1 network2 baseToken1 baseToken2 : string)
    (quoteToken1 quoteToken2 : option string) :
  free_of ":" network1 -> free_of ":" network2 ->
  free_of "-" baseToken1 -> free_of "-" baseToken2 ->
  Service.cacheKey network1 baseToken1 quoteToken1
    = Service.cacheKey network2 baseToken2 quoteToken2 ->
  network1 = network2 /\ baseToken1 = baseToken2 /\
  render quoteToken1 = render quoteToken2.
Proof.
  intros Hn1 Hn2 Hb1 Hb2 H. unfold Service.cacheKey in H.
  apply append_inj_l in H.
  apply (append_sep_inj ":" network1 network2) in H as [Hn H];
    [|assumption|assumption].
  apply (append_sep_inj "-" baseToken1 baseToken2) in H as [Hb H];
    [|assumption|assumption].
  repeat split; assumption.
Qed.

Lemma cacheKey_injective_witness :
  "optimism" = "optimism" /\ "WBTC" = "WBTC" /\
  render (Some "USDT") = render (Some "USDT").
Proof.
  apply (cacheKey_injective "optimism" "optimism" "WBTC" "WBTC"
           (Some "USDT") (Some "USDT"));
    try reflexivity; cbn; repeat split; discriminate.
Defined.

Lemma loop_iteration_calls (env : Env) (w : World) :
  exists w' t,
    Service.loop_iteration env w = (Normal tt, w') /\
    trace w' = trace w ++ t /\ Forall loop_event t.
Proof.
  destruct (findArbitrageOpportunities_eq env w) as (new & w1 & Hfind & _).
  destruct (respects_findArbitrageOpportunities (extends_trace is_quote)
              (extends_refl _) (extends_trans _) (extends_date_now _)
              (getDexPrice_only_quotes) (extends_set_scanning _)
              (extends_set_computed _) (extends_set_ledger _) env w)
    as (quotes & Hq & HFq).
  rewrite Hfind in Hq. cbn [snd] in Hq.
  set (l := array_sort Service.compare (List.filter profitable new)) in *.
  destruct (execute_profitable_returns env l w1) as (w2 & Hexec).
  destruct (execute_profitable_venues env l w1) as (calls & Hc & HFc).
  rewrite Hexec in Hc. cbn [snd] in Hc.
  exists (set_trace (trace w2 ++ [EvSleep 1000]) w2),
    (quotes ++ calls ++ [EvSleep 1000]).
  split; [|split].
  - unfold Service.loop_iteration. apply try_catch_normal.
    rewrite (bind_normal _ _ _ _ _ Hfind), (bind_normal _ _ _ _ _ Hexec).
    reflexivity.
  - cbn [trace set_trace]. now rewrite Hc, Hq, <- !app_assoc.
  - apply Forall_app. split.
    + eapply List.Forall_impl; [|exact HFq].
      intros e He. left. left. destruct e; try contradiction; exact I.
    + apply Forall_app. split.
      * eapply List.Forall_impl; [|exact HFc]. intros e He. now left.
      * constructor; [now right | constructor].
Qed.

(** X23: [runArbitrageLoop] never throws, however many rounds it runs and
    whatever the venues answer, so the promise [start] leaves unawaited is
    never rejected.  All it does is call the venues and pause for 1000
    ms; the pause of 5000 ms is never taken.  When the flag is already
    cleared it returns at once and leaves everything as it is. *)
Theorem runArbitrageLoop_never_throws
    (env : Env) (running : list Event -> bool) (rounds : nat) (w : World) :
  exists w' t,
    Service.runArbitrageLoop env running rounds w = (Normal tt, w') /\
    trace w' = trace w ++ t /\
    Forall loop_event t /\
    (running (trace w) = false -> w' = w).
Proof.
  revert w. induction rounds as [| n IH]; intros w.
  - exists w, []. split; [reflexivity|].
    split; [now rewrite app_nil_r|]. split; [constructor | reflexivity].
  - cbn [Service.runArbitrageLoop]. unfold bind at 1, get_trace.
    destruct (running (trace w)) eqn:Erun.
    + destruct (loop_iteration_calls env w) as (w1 & t1 & H1 & Ht1 & F1).
      destruct (IH w1) as (w2 & t2 & H2 & Ht2 & F2 & _).
      exists w2, (t1 ++ t2). rewrite (bind_normal _ _ _ _ _ H1).
      split; [exact H2|].
      split; [now rewrite Ht2, Ht1, app_assoc|].
      split; [apply Forall_app; now split | discriminate].
    + exists w, []. split; [reflexivity|].
      split; [now rewrite app_nil_r|]. split; [constructor | reflexivity].
Qed.

End CacheKeyAndLoop.

(* ===================================================================== *)
(** ** What the DEX leg spends *)
(* ===================================================================== *)

Section SpentAmount.


End SpentAmount.
